(** * The flashcard generator ([flashcard_generator.py],
      [console_flashcard_maker.py], [aiResponse.py])

    A shallow embedding of [FlashCardGenerator], the PDF layout engine, and
    of the properties its specification states about it, and of the
    console tool that asks a model for the cards.

    - [Py]: the Python values and primitive operations the class uses
      (exceptions, [int] as [Z], [float] as binary64, list indexing).
    - [Re]: [re.sub] for the three patterns of [_parse_markdown].
    - [ReportLab]: the drawing backend, as a recorder of the calls it
      receives (units and page sizes, canvas pages, frames, paragraphs),
      with the paragraph texts and the paths it refuses as a [backend].
    - [FlashCardGenerator]: the class itself, method by method, over a state
      made of the instance, the standard output and the files written.
    - [Console]: [geminiResponse] and [generate_flashcards_with_gemini],
      over what the service, the clock and [json.loads] answer.

    The definitions the statements need come next, then the properties:
    the setters, the empty deck, the markup translation, the card
    dimensions, the pagination and the placement of the cells,
    [generate_pdf], and the retries and the cards of the console tool. *)

From Stdlib Require Import ZArith List String Ascii Bool Lia Floats DecimalString.
Import ListNotations.

Set Warnings "-inexact-float".

#[local] Open Scope string_scope.
#[local] Open Scope list_scope.
#[local] Open Scope Z_scope.

(* ===================================================================== *)
(** ** Python values and primitive operations *)
(* ===================================================================== *)

Module Py.

(** The built-in exceptions the modelled code can raise, each with its
    message. *)
Inductive exn : Type :=
| ValueError (msg : string)
| ZeroDivisionError (msg : string)
| OverflowError (msg : string)
| IndexError (msg : string)
| OSError (msg : string).

(** What evaluating a piece of Python does: it returns a value, raises, or
    is still running when the step budget of the enclosing [while] is
    used up. *)
Inductive outcome (A : Type) : Type :=
| Returns (a : A)
| Raises (e : exn)
| OutOfFuel.

Arguments Returns {A} a.
Arguments Raises {A} e.
Arguments OutOfFuel {A}.

Definition bind {A B : Type} (m : outcome A) (k : A -> outcome B) : outcome B :=
  match m with
  | Returns a => k a
  | Raises e => Raises e
  | OutOfFuel => OutOfFuel
  end.

(** *** [int] and [float] *)

(** The least magnitude that [float(n)] cannot represent: integers are
    rounded to nearest-even, so everything from [2^1024 - 2^970] on rounds
    to [2^1024]. *)
Definition float_int_bound : Z := 2 ^ 1024 - 2 ^ 970.

(** Conversion of an [int] operand in mixed arithmetic ([int * float],
    [float / int]). *)
Definition float_of_int (n : Z) : outcome float :=
  if Z.abs n <? float_int_bound
  then Returns (SF2Prim (binary_normalize prec emax n 0 false))
  else Raises (OverflowError "int too large to convert to float").

(** The integer nearest to a finite float in the direction [round] picks
    ([Z.quot] toward zero, [Z.div] toward minus infinity). *)
Definition integral (round : Z -> Z -> Z) (s : bool) (m : positive) (e : Z) : Z :=
  let sm := if s then Z.neg m else Z.pos m in
  if 0 <=? e then sm * 2 ^ e else round sm (2 ^ (- e)).

(** [int(x)] on a float: truncation toward zero. *)
Definition int_of_float (x : float) : outcome Z :=
  match Prim2SF x with
  | S754_nan => Raises (ValueError "cannot convert float NaN to integer")
  | S754_infinity _ => Raises (OverflowError "cannot convert float infinity to integer")
  | S754_zero _ => Returns 0
  | S754_finite s m e => Returns (integral Z.quot s m e)
  end.

(** [math.floor(x)]: the mathematical floor, the function the
    specification names. *)
Definition floor_of_float (x : float) : outcome Z :=
  match Prim2SF x with
  | S754_nan => Raises (ValueError "cannot convert float NaN to integer")
  | S754_infinity _ => Raises (OverflowError "cannot convert float infinity to integer")
  | S754_zero _ => Returns 0
  | S754_finite s m e => Returns (integral Z.div s m e)
  end.

(** [x / y] on floats. *)
Definition truediv (x y : float) : outcome float :=
  if PrimFloat.eqb y 0%float
  then Raises (ZeroDivisionError "float division by zero")
  else Returns (x / y)%float.

(** [x / n] with [n] an [int]. *)
Definition truediv_int (x : float) (n : Z) : outcome float :=
  bind (float_of_int n) (truediv x).

(** [n * x] with [n] an [int]. *)
Definition mul_int (n : Z) (x : float) : outcome float :=
  bind (float_of_int n) (fun fn => Returns (fn * x)%float).

(** [a // b] and [a % b] on [int]: floor division, the remainder takes the
    sign of the divisor, as [Z.div] and [Z.modulo] do. *)
Definition floordiv (a b : Z) : outcome Z :=
  if b =? 0 then Raises (ZeroDivisionError "integer division or modulo by zero")
  else Returns (a / b).

Definition mod_ (a b : Z) : outcome Z :=
  if b =? 0 then Raises (ZeroDivisionError "integer division or modulo by zero")
  else Returns (a mod b).

(** *** Sequences and strings *)

Definition len {A : Type} (l : list A) : Z := Z.of_nat (List.length l).

(** [l[i]]: a negative index counts from the end. *)
Definition getitem {A : Type} (l : list A) (i : Z) : outcome A :=
  let j := if i <? 0 then i + len l else i in
  if j <? 0 then Raises (IndexError "list index out of range")
  else match nth_error l (Z.to_nat j) with
       | Some a => Returns a
       | None => Raises (IndexError "list index out of range")
       end.

(** [range(n)]. *)
Definition range (n : Z) : list Z := map Z.of_nat (seq 0 (Z.to_nat n)).

(** Truth value of a string: non-empty. *)
Definition truthy (s : string) : bool :=
  match s with EmptyString => false | String _ _ => true end.

(** [str(n)] on an [int]. *)
Definition str_of_int (n : Z) : string := NilZero.string_of_int (Z.to_int n).

(** [for x in l: body], the loop variables threaded as [s]. *)
Fixpoint for_each {A S : Type} (l : list A) (body : A -> S -> outcome S) (s : S)
  : outcome S :=
  match l with
  | [] => Returns s
  | x :: l' => bind (body x s) (for_each l' body)
  end.

(** [while cond: body], run for at most [fuel] iterations. *)
Fixpoint while {S : Type} (fuel : nat) (cond : S -> bool) (body : S -> outcome S)
  (s : S) : outcome S :=
  if cond s then
    match fuel with
    | O => OutOfFuel
    | S fuel' => bind (body s) (while fuel' cond body)
    end
  else Returns s.

End Py.

Import Py.

Declare Scope py_scope.
Delimit Scope py_scope with py.
Notation "x <- m ;; k" := (Py.bind m (fun x => k))
  (at level 61, m at next level, right associativity) : py_scope.
Notation "' pat <- m ;; k" := (Py.bind m (fun x => match x with pat => k end))
  (at level 61, pat pattern, m at next level, right associativity) : py_scope.

(* ===================================================================== *)
(** ** [re.sub] for a delimiter pair around a lazy group *)
(* ===================================================================== *)

(** The three patterns of [_parse_markdown] have one shape: a literal
    delimiter [d], the lazy group [(.*?)], and [d] again, with the template
    [<t>\1</t>]. Strings are [string]s over [ascii]; the only characters the
    patterns tell apart are those of [d] and the newline, which [.] does not
    match. *)
Module Re.

Definition newline : ascii := "010"%char.

(** [s[n:]]. *)
Fixpoint drop (n : nat) (s : string) : string :=
  match n, s with
  | O, _ => s
  | S _, EmptyString => EmptyString
  | S n', String _ s' => drop n' s'
  end.

(** [(.*?)d] matched at the start of [s]: the group grows one character at
    a time, never over a newline, and stops at the first position where
    [d] follows. Returns the group and what follows the closing [d]. *)
Fixpoint lazy_group (d s : string) : option (string * string) :=
  if String.prefix d s then Some (EmptyString, drop (String.length d) s)
  else match s with
       | EmptyString => None
       | String c s' =>
           if Ascii.eqb c newline then None
           else match lazy_group d s' with
                | Some (g, r) => Some (String c g, r)
                | None => None
                end
       end.

(** [d(.*?)d] matched at the start of [s]. *)
Definition match_at (d s : string) : option (string * string) :=
  if String.prefix d s then lazy_group d (drop (String.length d) s) else None.

(** [re.sub] scanning left to right: a match is replaced by the group
    between [opening] and [closing] and the scan resumes after it; where
    the pattern does not match, the character is copied. [fuel] bounds
    the number of scan steps. *)
Fixpoint sub_from (fuel : nat) (d opening closing s : string) : string :=
  match fuel with
  | O => s
  | S fuel' =>
      match s with
      | EmptyString => EmptyString
      | String c s' =>
          match match_at d s with
          | Some (g, r) =>
              (opening ++ g ++ closing ++ sub_from fuel' d opening closing r)%string
          | None => String c (sub_from fuel' d opening closing s')
          end
      end
  end.

(** [re.sub(d(.*?)d, opening \1 closing, s)]: every scan step consumes at
    least one character, so [length s] steps are enough. *)
Definition sub (d opening closing s : string) : string :=
  sub_from (String.length s) d opening closing s.

End Re.

(* ===================================================================== *)
(** ** The drawing backend *)
(* ===================================================================== *)

(** ReportLab is an external library: it is modelled by the constants the
    generator imports, by a canvas that records the drawing calls it
    receives, page by page, and by what the library can refuse: the text
    of a paragraph, which [Paragraph] parses as markup when it is built,
    and the path of the file, which [save] opens. What it refuses is not in
    the repository: it is the [backend], and the properties hold for every
    backend. *)
Module ReportLab.

(** [reportlab.lib.units] and [reportlab.lib.pagesizes]. *)
Definition inch : float := 72.
Definition cm : float := inch / 2.54.
Definition mm : float := cm * 0.1.
Definition A4 : float * float := (210 * mm, 297 * mm)%float.

(** [reportlab.lib.enums]. *)
Definition TA_CENTER : Z := 1.

(** A [ParagraphStyle]: its name, the sample style it derives from, and
    the attributes it overrides. *)
Record ParagraphStyle : Type := {
  style_name : string;
  style_parent : option string;
  style_alignment : option Z;
  style_fontSize : option Z;
  style_leading : option Z
}.

(** [getSampleStyleSheet()[name]]. *)
Definition sample_style (name : string) : ParagraphStyle :=
  {| style_name := name; style_parent := None; style_alignment := None;
     style_fontSize := None; style_leading := None |}.

(** A paragraph that has been built. *)
Record paragraph : Type := {
  para_text : string;
  para_style : ParagraphStyle
}.

(** What the library refuses: the exception the paragraph parser raises on
    a text in a style, and the exception opening a path for writing
    raises; [None] when it accepts. *)
Record backend : Type := {
  parse_error : string -> ParagraphStyle -> option exn;
  open_error : string -> option exn
}.

(** [Paragraph(text, style)]: the text is parsed when the paragraph is
    built. *)
Definition Paragraph (b : backend) (text : string) (style : ParagraphStyle)
  : outcome paragraph :=
  match parse_error b text style with
  | Some e => Raises e
  | None => Returns {| para_text := text; para_style := style |}
  end.

(** [Frame(x1, y1, width, height, leftPadding=6, bottomPadding=6,
    rightPadding=6, topPadding=6, showBoundary=0)]. *)
Record Frame : Type := {
  frame_x1 : float;
  frame_y1 : float;
  frame_width : float;
  frame_height : float;
  leftPadding : Z;
  bottomPadding : Z;
  rightPadding : Z;
  topPadding : Z;
  showBoundary : Z
}.

(** The calls that put content on the current page. [addFromList] is
    [Frame.addFromList(story, canvas)]: the frame flows the story into its
    rectangle and clips what does not fit. *)
Inductive canvas_op : Type :=
| setStrokeColorRGB (r g b : float)
| rect (x y width height : float)
| saveState
| restoreState
| addFromList (f : Frame) (story : list paragraph).

Definition page : Type := list canvas_op.

(** [canvas.Canvas(filename, pagesize=...)]: the finished pages and the
    content of the page being drawn ([_code]). *)
Record Canvas : Type := {
  canvas_filename : string;
  canvas_pagesize : float * float;
  canvas_pages : list page;
  canvas_code : page
}.

Definition new_canvas (filename : string) (pagesize : float * float) : Canvas :=
  {| canvas_filename := filename; canvas_pagesize := pagesize;
     canvas_pages := []; canvas_code := [] |}.

(** Drawing calls append to the current page. *)
Definition draw (c : Canvas) (ops : list canvas_op) : Canvas :=
  {| canvas_filename := canvas_filename c; canvas_pagesize := canvas_pagesize c;
     canvas_pages := canvas_pages c; canvas_code := canvas_code c ++ ops |}.

(** [showPage()] closes the current page, blank or not, and starts a new
    one. *)
Definition showPage (c : Canvas) : Canvas :=
  {| canvas_filename := canvas_filename c; canvas_pagesize := canvas_pagesize c;
     canvas_pages := canvas_pages c ++ [canvas_code c]; canvas_code := [] |}.

(** The document a canvas writes. *)
Record Document : Type := {
  doc_pagesize : float * float;
  doc_pages : list page
}.

(** [save()]: "if there is current data a ShowPage is executed
    automatically", then the file of the canvas is opened and the pages
    are written to it. *)
Definition save (b : backend) (c : Canvas) : outcome (string * Document) :=
  let c' := match canvas_code c with [] => c | _ :: _ => showPage c end in
  match open_error b (canvas_filename c') with
  | Some e => Raises e
  | None =>
      Returns (canvas_filename c',
               {| doc_pagesize := canvas_pagesize c'; doc_pages := canvas_pages c' |})
  end.

End ReportLab.

Import ReportLab.

(* ===================================================================== *)
(** ** [class FlashCardGenerator] *)
(* ===================================================================== *)

Module FlashCardGenerator.

(** An element of [self.entries]: the dictionary [add_entry] builds, with
    its four fixed keys. *)
Record Entry : Type := {
  original : string;
  translation : string;
  extra : string;
  index : string
}.

(** The attributes of an instance. [margins] is the tuple
    [(top, right, bottom, left)]; lengths are [float]s, as the signatures
    of the setters say. *)
Record t : Type := {
  filename : string;
  page_size : float * float;
  margins : float * float * float * float;
  cards_per_row : Z;
  card_height : float;
  entries : list Entry
}.

(** [self.margins[0]] to [self.margins[3]]. *)
Definition margins_0 (g : t) : float := let '(a, _, _, _) := margins g in a.
Definition margins_1 (g : t) : float := let '(_, b, _, _) := margins g in b.
Definition margins_2 (g : t) : float := let '(_, _, c, _) := margins g in c.
Definition margins_3 (g : t) : float := let '(_, _, _, d) := margins g in d.

(** Assignment to one attribute. *)
Definition with_filename (v : string) (g : t) : t :=
  {| filename := v; page_size := page_size g; margins := margins g;
     cards_per_row := cards_per_row g; card_height := card_height g;
     entries := entries g |}.
Definition with_page_size (v : float * float) (g : t) : t :=
  {| filename := filename g; page_size := v; margins := margins g;
     cards_per_row := cards_per_row g; card_height := card_height g;
     entries := entries g |}.
Definition with_margins (v : float * float * float * float) (g : t) : t :=
  {| filename := filename g; page_size := page_size g; margins := v;
     cards_per_row := cards_per_row g; card_height := card_height g;
     entries := entries g |}.
Definition with_cards_per_row (v : Z) (g : t) : t :=
  {| filename := filename g; page_size := page_size g; margins := margins g;
     cards_per_row := v; card_height := card_height g;
     entries := entries g |}.
Definition with_card_height (v : float) (g : t) : t :=
  {| filename := filename g; page_size := page_size g; margins := margins g;
     cards_per_row := cards_per_row g; card_height := v;
     entries := entries g |}.
Definition with_entries (v : list Entry) (g : t) : t :=
  {| filename := filename g; page_size := page_size g; margins := margins g;
     cards_per_row := cards_per_row g; card_height := card_height g;
     entries := v |}.

(** *** Methods as state transformers *)

(** What a method call can touch: the instance, the standard output (one
    element per [print]) and the files written (latest first). *)
Record world : Type := {
  self : t;
  stdout : list string;
  files : list (string * Document)
}.

(** A method run from a state ends in a state, with an outcome. *)
Definition M (A : Type) : Type := world -> world * outcome A.

Definition ret {A : Type} (a : A) : M A := fun w => (w, Returns a).

Definition raise {A : Type} (e : exn) : M A := fun w => (w, Raises e).

Definition bindM {A B : Type} (m : M A) (k : A -> M B) : M B :=
  fun w =>
    match m w with
    | (w', Returns a) => k a w'
    | (w', Raises e) => (w', Raises e)
    | (w', OutOfFuel) => (w', OutOfFuel)
    end.

(** The instance. *)
Definition get : M t := fun w => (w, Returns (self w)).

(** A computation that touches neither the instance nor the outside. *)
Definition lift {A : Type} (r : outcome A) : M A := fun w => (w, r).

(** [self.attr = v]. *)
Definition assign (f : t -> t) : M unit :=
  fun w => ({| self := f (self w); stdout := stdout w; files := files w |}, Returns tt).

Definition print (line : string) : M unit :=
  fun w => ({| self := self w; stdout := stdout w ++ [line]; files := files w |},
            Returns tt).

(** [c.save()]: the document is written under the name of the canvas, or
    the backend raises and nothing is written. *)
Definition save_canvas (b : backend) (c : Canvas) : M unit :=
  fun w =>
    match save b c with
    | Returns f => ({| self := self w; stdout := stdout w; files := f :: files w |},
                    Returns tt)
    | Raises e => (w, Raises e)
    | OutOfFuel => (w, OutOfFuel)
    end.

Declare Scope method_scope.
Delimit Scope method_scope with method.
Notation "x <- m ;; k" := (bindM m (fun x => k))
  (at level 61, m at next level, right associativity) : method_scope.
Notation "m ;; k" := (bindM m (fun _ => k))
  (at level 61, right associativity) : method_scope.

(** [for x in l: body] at the level of methods. *)
Fixpoint for_eachM {A : Type} (l : list A) (body : A -> M unit) : M unit :=
  match l with
  | [] => ret tt
  | x :: l' => (body x ;; for_eachM l' body)%method
  end.

(** [__init__]: the attributes of a new instance. *)
Definition __init__ : t :=
  {| filename := "flashcards.pdf";
     page_size := A4;
     margins := (1 * cm, 1 * cm, 1 * cm, 1 * cm)%float;
     cards_per_row := 2;
     card_height := (5 * cm)%float;
     entries := [] |}.

(** The setters return [self]: the instance of the final state. *)
Definition set_filename (filename : string) : M unit :=
  assign (with_filename filename).

Definition set_cards_per_row (count : Z) : M unit :=
  if count <=? 0 then raise (ValueError "Cards per row must be greater than 0")
  else assign (with_cards_per_row count).

Definition set_page_size (size : float * float) : M unit :=
  assign (with_page_size size).

Definition set_margins (top right bottom left : float) : M unit :=
  assign (with_margins (top, right, bottom, left)).

Definition set_card_height (height : float) : M unit :=
  if (height <=? 0)%float then raise (ValueError "Card height must be greater than 0")
  else assign (with_card_height height).

Definition nl : string := String Re.newline EmptyString.

Definition add_entry (original translation extra index : string) : M unit :=
  (print ("Adding entry: original='" ++ original ++ "', translation='" ++ translation
          ++ "', extra='" ++ extra ++ "', index='" ++ index ++ "'" ++ nl ++ nl)%string ;;
   assign (fun g => with_entries
                      (entries g
                       ++ [{| original := original; translation := translation;
                              extra := extra; index := index |}]) g))%method.

(** [_parse_markdown]: bold, then italic, then underline. *)
Definition _parse_markdown (text : string) : string :=
  let text := Re.sub "**" "<b>" "</b>" text in
  let text := Re.sub "*" "<i>" "</i>" text in
  let text := Re.sub "__" "<u>" "</u>" text in
  text.

Definition _calculate_card_dimensions (g : t) : outcome (float * Z) :=
  (let page_width := fst (page_size g) in
   let page_height := snd (page_size g) in
   let usable_width := (page_width - margins_1 g - margins_3 g)%float in
   let usable_height := (page_height - margins_0 g - margins_2 g)%float in
   card_width <- truediv_int usable_width (cards_per_row g) ;;
   quotient <- truediv usable_height (card_height g) ;;
   cards_per_column <- int_of_float quotient ;;
   let max_cards_per_page := cards_per_row g * cards_per_column in
   Returns (card_width, max_cards_per_page))%py.


(** *** [generate] *)

(** The paragraph styles [generate] builds. *)
Definition title_style : ParagraphStyle :=
  {| style_name := "Title"; style_parent := Some "Heading2";
     style_alignment := Some TA_CENTER; style_fontSize := None;
     style_leading := None |}.
Definition extra_style : ParagraphStyle :=
  {| style_name := "Extra"; style_parent := Some "Italic";
     style_alignment := None; style_fontSize := Some 9;
     style_leading := Some 11 |}.
Definition normal_style : ParagraphStyle := sample_style "Normal".
Definition index_style : ParagraphStyle :=
  {| style_name := "Index"; style_parent := Some "Normal";
     style_alignment := Some TA_CENTER; style_fontSize := Some 8;
     style_leading := None |}.
Definition translation_style : ParagraphStyle :=
  {| style_name := "Translation"; style_parent := Some "Normal";
     style_alignment := Some TA_CENTER; style_fontSize := Some 10;
     style_leading := Some 12 |}.

(** Which side of the sheet a pass draws. *)
Inductive side : Type := Front | Back.

(** The column a pass gives to the cell of within-page index [i]:
    [i % cards_per_row] on the front, [cards_per_row - 1 - (i %
    cards_per_row)] on the back. *)
Definition column (sd : side) (cards_per_row i : Z) : outcome Z :=
  (r <- mod_ i cards_per_row ;;
   Returns (match sd with Front => r | Back => cards_per_row - 1 - r end))%py.

(** The paragraphs a pass builds for the cell's frame, in the order the
    code builds them; the story is the original, a line break and the
    extra, or the translation. *)
Definition story (b : backend) (sd : side) (entry : Entry) : outcome (list paragraph) :=
  match sd with
  | Front =>
      (let original_text := _parse_markdown (original entry) in
       original_para <- Paragraph b original_text title_style ;;
       if truthy (extra entry)
       then let extra_text := _parse_markdown (extra entry) in
            extra_para <- Paragraph b extra_text extra_style ;;
            br <- Paragraph b "<br/>" normal_style ;;
            Returns [original_para; br; extra_para]
       else Returns [original_para])%py
  | Back =>
      (let translation_text := _parse_markdown (translation entry) in
       translation_para <- Paragraph b translation_text translation_style ;;
       Returns [translation_para])%py
  end.

(** The body of either [for] loop from [x0 = ...] on: the drawing calls
    for one face of [entry] in the cell at ([row], [col]). *)
Definition draw_cell (b : backend) (g : t) (card_width : float) (sd : side) (entry : Entry)
  (row col : Z) : outcome (list canvas_op) :=
  (dx <- mul_int col card_width ;;
   let x0 := (margins_3 g + dx)%float in
   dy <- mul_int (row + 1) (card_height g) ;;
   let y0 := (snd (page_size g) - margins_0 g - dy)%float in
   let content_margin := (0.3 * cm)%float in
   inset <- mul_int 2 content_margin ;;
   let frame_width := (card_width - inset)%float in
   inset' <- mul_int 2 content_margin ;;
   let frame_height := (card_height g - inset')%float in
   let frame_x := (x0 + content_margin)%float in
   let frame_y := (y0 + content_margin)%float in
   let face_frame :=
     {| frame_x1 := frame_x; frame_y1 := frame_y; frame_width := frame_width;
        frame_height := frame_height; leftPadding := 5; bottomPadding := 6;
        rightPadding := 5; topPadding := 6; showBoundary := 0 |} in
   let index_frame :=
     {| frame_x1 := frame_x; frame_y1 := frame_y; frame_width := frame_width;
        frame_height := (0.5 * cm)%float; leftPadding := 6; bottomPadding := 2;
        rightPadding := 6; topPadding := 6; showBoundary := 0 |} in
   face_story <- story b sd entry ;;
   index_ops <-
     (if truthy (index entry)
      then index_para <- Paragraph b (index entry) index_style ;;
           Returns [saveState; addFromList index_frame [index_para]; restoreState]
      else Returns []) ;;
   Returns
     ([setStrokeColorRGB 0.8 0.8 0.8;
       rect x0 y0 card_width (card_height g);
       addFromList face_frame face_story]
      ++ index_ops))%py.

(** One iteration of [for i in range(cards_on_current_page)] of the pass
    [sd]. *)
Definition place (b : backend) (g : t) (card_width : float) (sd : side)
  (cards_processed i : Z) (c : Canvas) : outcome Canvas :=
  (let entry_index := cards_processed + i in
   entry <- getitem (entries g) entry_index ;;
   row <- floordiv i (cards_per_row g) ;;
   col <- column sd (cards_per_row g) i ;;
   ops <- draw_cell b g card_width sd entry row col ;;
   Returns (draw c ops))%py.

(** The variables the [while] loop updates. *)
Record loop_vars : Type := {
  c : Canvas;
  cards_processed : Z
}.

(** The body of [while cards_processed < total_cards]. *)
Definition page_group (b : backend) (g : t) (card_width : float)
  (cards_per_page total_cards : Z) (v : loop_vars) : outcome loop_vars :=
  (let remaining_cards := total_cards - cards_processed v in
   let cards_on_current_page := Z.min cards_per_page remaining_cards in
   c1 <- for_each (range cards_on_current_page)
           (place b g card_width Front (cards_processed v)) (c v) ;;
   let c2 := showPage c1 in
   c3 <- for_each (range cards_on_current_page)
           (place b g card_width Back (cards_processed v)) c2 ;;
   let cards_processed' := cards_processed v + cards_on_current_page in
   let c4 := if cards_processed' <? total_cards then showPage c3 else c3 in
   Returns {| c := c4; cards_processed := cards_processed' |})%py.

(** [generate] from the computation of the dimensions to the end of the
    [while] loop: the canvas to save. *)
Definition render (b : backend) (fuel : nat) (g : t) : outcome Canvas :=
  ('(card_width, cards_per_page) <- _calculate_card_dimensions g ;;
   let cards_per_row := cards_per_row g in
   rows_per_page <- floordiv cards_per_page cards_per_row ;;
   let c0 := new_canvas (filename g) (page_size g) in
   let total_cards := len (entries g) in
   v <- while fuel (fun v => cards_processed v <? total_cards)
          (page_group b g card_width cards_per_page total_cards)
          {| c := c0; cards_processed := 0 |} ;;
   Returns (c v))%py.

(** [generate]; [fuel] bounds the iterations of its [while] loop. *)
Definition generate (b : backend) (fuel : nat) : M unit :=
  (g <- get ;;
   match entries g with
   | [] => print "Warning: No flashcard entries to generate"
   | _ :: _ =>
       canvas <- lift (render b fuel g) ;;
       save_canvas b canvas ;;
       print ("Generated " ++ str_of_int (len (entries g))
              ++ " flashcards in '" ++ filename g ++ "'")%string ;;
       print "For correct printing: Use double-sided printing, flip on short edge."
   end)%method.

(** [generate_pdf]. *)
Definition generate_pdf (b : backend) (fuel : nat)
  (flashcards : list (string * string * string * string)) (output_path : string)
  : M string :=
  (assign (with_entries []) ;;
   set_filename output_path ;;
   for_eachM flashcards
     (fun '(front, back, extra, index) => add_entry front back extra index) ;;
   generate b fuel ;;
   ret output_path)%method.

End FlashCardGenerator.

Import FlashCardGenerator.

(* ===================================================================== *)
(** * [aiResponse.py] and [console_flashcard_maker.py]

    The console tool asks the Gemini service for flashcards and reads them
    out of its reply. The service, the [.env] loader, the clock, the
    traceback text and [json.loads] are outside the repository: they are
    the fields of [outside], and every property holds whatever they
    answer. A string is a sequence of characters below code point 256, as
    in the generator. *)

Module Console.

(** ** Python values, as [json.loads] builds them *)

#[warnings="-register-all"] Inductive value : Type :=
| VNone
| VBool (b : bool)
| VInt (n : Z)
| VFloat (x : float)
| VStr (s : string)
| VList (items : list value)
| VDict (items : list (string * value)).

(** [type(v).__name__]. *)
Definition type_name (v : value) : string :=
  match v with
  | VNone => "NoneType"
  | VBool _ => "bool"
  | VInt _ => "int"
  | VFloat _ => "float"
  | VStr _ => "str"
  | VList _ => "list"
  | VDict _ => "dict"
  end.

(** [bool(v)]. *)
Definition truth (v : value) : bool :=
  match v with
  | VNone => false
  | VBool b => b
  | VInt n => negb (n =? 0)
  | VFloat x => negb (x =? 0)%float
  | VStr s => negb (String.eqb s EmptyString)
  | VList items => match items with [] => false | _ => true end
  | VDict items => match items with [] => false | _ => true end
  end.

(** [d.get(key)]: the value under [key], or [None]. *)
Fixpoint dict_get (key : string) (items : list (string * value)) : value :=
  match items with
  | [] => VNone
  | (k, v) :: rest => if String.eqb k key then v else dict_get key rest
  end.

(** ** Exceptions *)

Inductive exn : Type :=
| TimeoutError (message : string)
| JSONDecodeError (message : string)
| AttributeError (message : string)
| TypeError (message : string)
| ValueError (message : string)
| ImportError (message : string)
| Exception (message : string).

(** [str(e)]. *)
Definition str (e : exn) : string :=
  match e with
  | TimeoutError m | JSONDecodeError m | AttributeError m | TypeError m | ValueError m
  | ImportError m | Exception m => m
  end.

Inductive result (A : Type) : Type :=
| Ok (a : A)
| Err (e : exn).

Arguments Ok {A} a.
Arguments Err {A} e.

Definition and_then {A B : Type} (m : result A) (k : A -> result B) : result B :=
  match m with
  | Ok a => k a
  | Err e => Err e
  end.

(** ** Whitespace: [str.isspace], [str.strip] and the [\s] of [re] *)

Definition isspace (c : ascii) : bool :=
  let n := nat_of_ascii c in
  ((9 <=? n) && (n <=? 13) || (28 <=? n) && (n <=? 32) || (n =? 133) || (n =? 160))%nat.

Fixpoint lstrip (s : string) : string :=
  match s with
  | EmptyString => EmptyString
  | String c s' => if isspace c then lstrip s' else s
  end.

Fixpoint rstrip (s : string) : string :=
  match s with
  | EmptyString => EmptyString
  | String c s' =>
      match rstrip s' with
      | EmptyString => if isspace c then EmptyString else String c EmptyString
      | r => String c r
      end
  end.

Definition strip (s : string) : string := rstrip (lstrip s).

(** ** [re.search(r'\[\s*\{.*\}\s*\]', s, re.DOTALL)] *)

(** [\s*\{] at the start of [s]: the text matched and the text after it. *)
Fixpoint open_brace (s : string) : option (string * string) :=
  match s with
  | EmptyString => None
  | String c s' =>
      if Ascii.eqb c "{" then Some (String c EmptyString, s')
      else if isspace c then
             match open_brace s' with
             | Some (m, r) => Some (String c m, r)
             | None => None
             end
           else None
  end.

(** [\s*\]] at the start of [s]: the text matched. *)
Fixpoint close_bracket (s : string) : option string :=
  match s with
  | EmptyString => None
  | String c s' =>
      if Ascii.eqb c "]" then Some (String c EmptyString)
      else if isspace c then option_map (String c) (close_bracket s') else None
  end.

(** [.*\}\s*\]] at the start of [s], where [.] matches every character:
    the greedy [.*] gives the match that ends last. *)
Fixpoint greedy_close (s : string) : option string :=
  match s with
  | EmptyString => None
  | String c s' =>
      match greedy_close s' with
      | Some m => Some (String c m)
      | None => if Ascii.eqb c "}" then option_map (String c) (close_bracket s') else None
      end
  end.

(** The pattern at the start of [s]. *)
Definition match_here (s : string) : option string :=
  match s with
  | EmptyString => None
  | String c s' =>
      if Ascii.eqb c "[" then
        match open_brace s' with
        | Some (m, r) => option_map (fun m' => String c (m ++ m')) (greedy_close r)
        | None => None
        end
      else None
  end.

(** [json_match.group(0)] of the leftmost match, [None] without a match. *)
Fixpoint search (s : string) : option string :=
  match match_here s with
  | Some m => Some m
  | None =>
      match s with
      | EmptyString => None
      | String _ s' => search s'
      end
  end.

(** ** What is outside the repository *)

(** The service: [genai.configure] raises, or the model raises, or the
    response has a [text], or it has none and [type] and [str] give the two
    strings. *)
Inductive api_result : Type :=
| ConfigureError (e : exn)
| ModelError (e : exn)
| Text (text : string)
| NoText (type_ str_ : string).

(** The answers of the outside at call number [k]: what the import of
    [dotenv] and [load_dotenv()] make of [GEMINI_API_KEY], or the
    exception they raise, [ImportError] without the module; the service;
    the traceback text; the two readings of the clock; and [json.loads]. *)
Record outside : Type := {
  load_dotenv : nat -> option string -> result (option string);
  genai : nat -> string -> string -> api_result;
  format_exc : nat -> string;
  time : nat -> float * float;
  json_loads : string -> result value
}.

(** ** State *)

(** [GEMINI_API_KEY] in [os.environ], the lines printed, the seconds slept
    and the messages given to the model. *)
Record world : Type := {
  environ : option string;
  printed : list string;
  slept : list Z;
  requests : list string
}.

Definition M (A : Type) : Type := world -> world * result A.

Definition ret {A : Type} (a : A) : M A := fun w => (w, Ok a).

Definition raise {A : Type} (e : exn) : M A := fun w => (w, Err e).

Definition bindM {A B : Type} (m : M A) (k : A -> M B) : M B :=
  fun w =>
    match m w with
    | (w', Ok a) => k a w'
    | (w', Err e) => (w', Err e)
    end.

(** [try: m except ...: handler]; a handler that does not take the
    exception gives [None]. *)
Definition try {A : Type} (m : M A) (handler : exn -> option (M A)) : M A :=
  fun w =>
    match m w with
    | (w', Ok a) => (w', Ok a)
    | (w', Err e) =>
        match handler e with
        | Some h => h w'
        | None => (w', Err e)
        end
    end.

Definition lift {A : Type} (r : result A) : M A := fun w => (w, r).

Definition print (line : string) : M unit :=
  fun w => ({| environ := environ w; printed := printed w ++ [line];
               slept := slept w; requests := requests w |}, Ok tt).

Definition sleep (seconds : Z) : M unit :=
  fun w => ({| environ := environ w; printed := printed w;
               slept := slept w ++ [seconds]; requests := requests w |}, Ok tt).

Definition request (message : string) : M unit :=
  fun w => ({| environ := environ w; printed := printed w;
               slept := slept w; requests := requests w ++ [message] |}, Ok tt).

Definition getenv : M (option string) := fun w => (w, Ok (environ w)).

Definition setenv (key : option string) : M unit :=
  fun w => ({| environ := key; printed := printed w;
               slept := slept w; requests := requests w |}, Ok tt).

Declare Scope console_scope.
Delimit Scope console_scope with console.
Notation "x <- m ;; k" := (bindM m (fun x => k))
  (at level 61, m at next level, right associativity) : console_scope.
Notation "m ;; k" := (bindM m (fun _ => k))
  (at level 61, right associativity) : console_scope.

(** ** [aiResponse.geminiResponse] *)

(** [bool(api_key)] and its [str]. *)
Definition has_key (api_key : option string) : bool :=
  match api_key with
  | Some (String _ _) => true
  | _ => false
  end.

Definition str_of_bool (b : bool) : string := if b then "True" else "False".

Definition nl : string := String "010"%char EmptyString.

(** The body of the outer [try]. *)
Definition geminiResponse_body (o : outside) (k : nat) (message : string) : M string :=
  (api_key <- getenv ;;
   print ("API key found: " ++ str_of_bool (has_key api_key)) ;;
   api_key <-
     (if has_key api_key then ret api_key
      else
        match load_dotenv o k api_key with
        | Ok key =>
            setenv key ;;
            print ("API key loaded from .env: " ++ str_of_bool (has_key key)) ;;
            ret key
        | Err (ImportError _) => print "dotenv module not found" ;; ret api_key
        | Err e => raise e
        end) ;;
   match api_key with
   | Some (String c key) =>
       match genai o k (String c key) message with
       | ConfigureError e => raise e
       | ModelError e =>
           request message ;;
           print ("Error listing models: " ++ str e) ;;
           raise e
       | Text text => request message ;; ret text
       | NoText type_ str_ =>
           request message ;;
           print ("Unexpected response format: " ++ type_) ;;
           ret str_
       end
   | _ =>
       raise (ValueError
                ("API key not found. Please set the GEMINI_API_KEY environment variable "
                 ++ "or enter it in the web interface."))
   end)%console.

(** The string returned for an exception. *)
Definition error_reply (e : exn) : string :=
  ("Error: " ++ str e ++ nl ++ nl
   ++ "Try running: pip install --upgrade google-generativeai")%string.

Definition geminiResponse (o : outside) (k : nat) (message : string) : M string :=
  try (geminiResponse_body o k message)
    (fun e => Some (print ("Error in geminiResponse: " ++ str e) ;;
                    print (format_exc o k) ;;
                    ret (error_reply e))%console).

(** ** [console_flashcard_maker.generate_flashcards_with_gemini] *)

Definition max_text_length : nat := Z.to_nat 12000.

(** Lines 39 to 41: the text, cut when it is long. *)
Definition truncate (text : string) : string :=
  if (max_text_length <? String.length text)%nat
  then (substring 0 max_text_length text ++ "... [content truncated for processing]")%string
  else text.

Definition quote : string := String (ascii_of_nat 34) EmptyString.

(** Lines 43 to 64. *)
Definition prompt (num_cards : Z) (text : string) : string :=
  (nl ++ "    Create exactly " ++ str_of_int num_cards ++
   " flashcards from the following study material. " ++ nl ++
   "    Each flashcard should have:" ++ nl ++
   "    1. A clear question or concept on the front" ++ nl ++
   "    2. A concise answer or explanation on the back" ++ nl ++ nl ++
   "    Focus on the most important concepts in the material and try to cover different topics." ++
   nl ++ "    Make sure each card has substantial content on both front and back sides." ++
   nl ++ "    Be concise but thorough in your responses." ++ nl ++ nl ++
   "    For example:" ++ nl ++ "    Q: What is the capital of France?" ++ nl ++
   "    A: Paris" ++ nl ++ nl ++ "    Study material:" ++ nl ++ "    " ++ text ++ nl ++
   nl ++ "    Format your response as a JSON array with objects containing only " ++
   quote ++ "front" ++ quote ++ " and " ++ quote ++ "back" ++ quote ++ " fields." ++ nl ++
   "    Ensure you generate exactly " ++ str_of_int num_cards ++ " flashcards in total." ++
   nl ++ "    The " ++ quote ++ "back" ++ quote ++
   " field MUST contain substantive content for every card." ++ nl ++
   "    Do not include any hints or extra information fields." ++ nl ++ "    ")%string.

(** [(card.get(key) or <empty>).strip()]. *)
Definition field (key : string) (card : value) : result string :=
  match card with
  | VDict items =>
      let v := dict_get key items in
      if truth v then
        match v with
        | VStr s => Ok (strip s)
        | _ => Err (AttributeError ("'" ++ type_name v ++ "' object has no attribute 'strip'"))
        end
      else Ok EmptyString
  | _ => Err (AttributeError ("'" ++ type_name card ++ "' object has no attribute 'get'"))
  end.

(** The items [enumerate(cards_json)] runs over. *)
Definition iterate (cards_json : value) : result (list value) :=
  match cards_json with
  | VList items => Ok items
  | VDict items => Ok (map (fun item => VStr (fst item)) items)
  | VStr s => Ok (map (fun c => VStr (String c EmptyString)) (list_ascii_of_string s))
  | _ => Err (TypeError ("'" ++ type_name cards_json ++ "' object is not iterable"))
  end.

Definition card : Type := string * string * string * string.

(** Lines 84 to 88, from index [i] on. *)
Fixpoint collect (i : Z) (cards_json : list value) (flashcards : list card)
  : result (list card) :=
  match cards_json with
  | [] => Ok flashcards
  | c :: rest =>
      and_then (field "front" c) (fun front =>
      and_then (field "back" c) (fun back =>
      collect (i + 1) rest
        (if negb (String.eqb front EmptyString) && negb (String.eqb back EmptyString)
         then flashcards ++ [(front, back, EmptyString, str_of_int (i + 1))]
         else flashcards)))
  end.

(** Lines 79 to 95: the cards of a response. *)
Definition read_cards (o : outside) (response_text : string) : M (list card) :=
  try (match search response_text with
       | Some group =>
           cards_json <- lift (json_loads o group) ;;
           lift (and_then (iterate cards_json) (fun items => collect 0 items []))
       | None => print "No JSON found in response" ;; ret []
       end)%console
    (fun e =>
       match e with
       | JSONDecodeError _ => Some (print "JSON parsing failed" ;; ret [])%console
       | _ => None
       end).

Definition max_api_time : float := 45%float.

(** The body of the [try] of lines 67 to 95. *)
Definition attempt_body (o : outside) (prompt : string) (attempt : Z) : M (list card) :=
  (print ("Attempt " ++ str_of_int (attempt + 1) ++ " to generate flashcards") ;;
   response_text <- geminiResponse o (Z.to_nat attempt) prompt ;;
   let '(start_time, now) := time o (Z.to_nat attempt) in
   if (max_api_time <? now - start_time)%float
   then print "API call took too long, aborting" ;;
        raise (TimeoutError "API call timed out")
   else read_cards o response_text)%console.

(** What a pass of the loop ends in: the function returns, or the loop
    goes on. *)
Inductive pass (A : Type) : Type :=
| Return (a : A)
| Continue.

Arguments Return {A} a.
Arguments Continue {A}.

(** Lines 67 to 110: a pass of the loop. *)
Definition attempt_pass (o : outside) (prompt : string) (max_retries attempt : Z)
  : M (pass (list card)) :=
  try (flashcards <- attempt_body o prompt attempt ;; ret (Return flashcards))%console
    (fun e =>
       match e with
       | TimeoutError _ =>
           Some (print ("Timeout error: " ++ str e) ;;
                 if attempt <? max_retries - 1
                 then print ("Retrying (" ++ str_of_int (attempt + 2) ++ "/"
                             ++ str_of_int max_retries ++ ")...") ;;
                      ret Continue
                 else ret (Return []))%console
       | _ =>
           Some (print ("Error generating flashcards: " ++ str e) ;;
                 if attempt <? max_retries - 1
                 then let wait_time := 2 ^ (attempt + 1) in
                      print ("Waiting " ++ str_of_int wait_time
                             ++ " seconds before retry...") ;;
                      sleep wait_time ;;
                      ret Continue
                 else ret (Return []))%console
       end).

(** The loop of line 66 over the attempts left. *)
Fixpoint attempts (o : outside) (prompt : string) (max_retries : Z) (left : list Z)
  : M (list card) :=
  match left with
  | [] => ret []
  | attempt :: rest =>
      (p <- attempt_pass o prompt max_retries attempt ;;
       match p with
       | Return flashcards => ret flashcards
       | Continue => attempts o prompt max_retries rest
       end)%console
  end.

Definition generate_flashcards_with_gemini (o : outside) (text : string)
  (num_cards max_retries : Z) : M (list card) :=
  attempts o (prompt num_cards (truncate text)) max_retries (range max_retries).

End Console.

(* ===================================================================== *)
(** ** Vocabulary of the properties *)
(* ===================================================================== *)

(** A fresh instance, nothing printed, nothing written. *)
Definition fresh : world := {| self := __init__; stdout := []; files := [] |}.

(** *** Markup *)

(** [c] occurs in [s]. *)
Fixpoint occurs (c : ascii) (s : string) : bool :=
  match s with
  | EmptyString => false
  | String c' s' => Ascii.eqb c c' || occurs c s'
  end.

(** The pattern [d(.*?)d] matches somewhere in [s]. *)
Fixpoint has_match (d s : string) : bool :=
  match Re.match_at d s with
  | Some _ => true
  | None =>
      match s with
      | EmptyString => false
      | String _ s' => has_match d s'
      end
  end.

(** No occurrence of [d] in [s] has a partner: two occurrences of [d] that
    do not overlap always have a newline between them. *)
Definition unpaired (d s : string) : Prop :=
  forall p g r : string,
    s = (p ++ d ++ g ++ d ++ r)%string -> occurs Re.newline g = true.

(** A match in a line, seen in the text that goes on with a newline and
    [s]: what follows the end of the line plays no part in it. *)
Definition on_line (s : string) (m : option (string * string)) : option (string * string) :=
  match m with
  | Some (g, r) => Some (g, (r ++ String Re.newline s)%string)
  | None => None
  end.

(** *** Dimensions *)

(** [page_height - margin_top - margin_bottom], as
    [_calculate_card_dimensions] computes it. *)
Definition usable_height (g : t) : float :=
  (snd (page_size g) - margins_0 g - margins_2 g)%float.

(** A page 10 high with a top margin of 20 and cards 4 high, set through the
    setters. *)
Definition top_heavy : world * outcome unit :=
  (set_page_size (10, 10)%float ;;
   set_margins 20 0 0 0 ;;
   set_card_height 4)%method fresh.

(** The default generator after [set_card_height(30 * cm)] and one
    [add_entry]: the card is taller than the usable height of an A4 page. *)
Definition tall_card : world * outcome unit :=
  (set_card_height (30 * cm)%float ;;
   add_entry "Question" "Answer" "" "")%method fresh.

(** *** The backend *)

(** The texts a pass gives to [Paragraph] for an entry, with their
    styles. *)
Definition paragraphs_of (sd : side) (entry : Entry) : list (string * ParagraphStyle) :=
  match sd with
  | Front =>
      (_parse_markdown (original entry), title_style)
      :: (if truthy (extra entry)
          then [(_parse_markdown (extra entry), extra_style); ("<br/>", normal_style)]
          else [])
  | Back => [(_parse_markdown (translation entry), translation_style)]
  end
  ++ (if truthy (index entry) then [(index entry, index_style)] else []).

(** The backend accepts the paragraphs of a face. *)
Definition accepted (b : backend) (sd : side) (entry : Entry) : bool :=
  forallb (fun '(text, style) =>
             match parse_error b text style with None => true | Some _ => false end)
    (paragraphs_of sd entry).

(** The backend accepts the paragraphs of every entry, on both sides. *)
Definition legible (b : backend) (g : t) : bool :=
  forallb (fun entry => accepted b Front entry && accepted b Back entry) (entries g).

(** The backend can open the file of the generator. *)
Definition writable (b : backend) (g : t) : bool :=
  match open_error b (filename g) with None => true | Some _ => false end.

(** The tags [_parse_markdown] writes, by their letter. *)
Definition tag_letter (c : ascii) : bool :=
  Ascii.eqb c "b" || Ascii.eqb c "i" || Ascii.eqb c "u".

(** Some closing tag of [s] does not close the tag opened last, with
    [open] the tags open at the start of [s], the last first. *)
Fixpoint crossed (open : list ascii) (s : string) : bool :=
  match s with
  | EmptyString => false
  | String c s' =>
      if Ascii.eqb c "<" then
        match s' with
        | String t (String e s'') =>
            if tag_letter t && Ascii.eqb e ">" then crossed (t :: open) s'
            else if Ascii.eqb t "/" then
                   match s'' with
                   | String e' _ =>
                       if tag_letter e && Ascii.eqb e' ">" then
                         match open with
                         | top :: rest => if Ascii.eqb top e then crossed rest s' else true
                         | [] => true
                         end
                       else crossed open s'
                   | EmptyString => crossed open s'
                   end
                 else crossed open s'
        | _ => crossed open s'
        end
      else crossed open s'
  end.

(** A backend that, as the paragraph parser of ReportLab does, refuses a
    text whose tags cross, and that can open every path. *)
Definition nesting : backend :=
  {| parse_error :=
       fun text _ =>
         if crossed [] text
         then Some (ValueError "Parse error: a closing tag does not match the open tag")
         else None;
     open_error := fun _ => None |}.

(** A backend that accepts every paragraph and cannot open a path in a
    directory. *)
Definition flat_directory : backend :=
  {| parse_error := fun _ _ => None;
     open_error :=
       fun path =>
         if existsb (Ascii.eqb "/") (list_ascii_of_string path)
         then Some (OSError ("[Errno 2] No such file or directory: '" ++ path ++ "'"))
         else None |}.

(** The backend refuses, with [e], a paragraph of the face [sd] of
    [entry]; of some entry of [g]. *)
Definition refusal (b : backend) (sd : side) (entry : Entry) (e : exn) : Prop :=
  exists text style,
    In (text, style) (paragraphs_of sd entry) /\ parse_error b text style = Some e.

Definition refused (b : backend) (g : t) (e : exn) : Prop :=
  exists sd entry, In entry (entries g) /\ refusal b sd entry e.

(** What [save] writes when it can open the file. *)
Definition saved (c : Canvas) : string * Document :=
  let c' := match canvas_code c with [] => c | _ :: _ => showPage c end in
  (canvas_filename c',
   {| doc_pagesize := canvas_pagesize c'; doc_pages := canvas_pages c' |}).

(** *** Pages *)

(** [float(n)], for an [int] in its range. *)
Definition to_float (n : Z) : float := SF2Prim (binary_normalize prec emax n 0 false).

(** The story of a face, once its paragraphs are built. *)
Definition face_story (sd : side) (entry : Entry) : list paragraph :=
  match sd with
  | Front =>
      let original_para :=
        {| para_text := _parse_markdown (original entry); para_style := title_style |} in
      if truthy (extra entry)
      then [original_para;
            {| para_text := "<br/>"; para_style := normal_style |};
            {| para_text := _parse_markdown (extra entry); para_style := extra_style |}]
      else [original_para]
  | Back =>
      [{| para_text := _parse_markdown (translation entry);
          para_style := translation_style |}]
  end.

(** The corner of the cell at ([row], [col]): [col] card widths right of
    the left margin and [row + 1] card heights below the top margin. *)
Definition corner (g : t) (card_width : float) (row col : Z) : float * float :=
  ((margins_3 g + to_float col * card_width)%float,
   (snd (page_size g) - margins_0 g - to_float (row + 1) * card_height g)%float).

(** The frame of a cell with its corner at ([x0], [y0]): 0.3 cm inside the
    card on every side; the frame of the index has the same origin and
    width and is 0.5 cm high. *)
Definition cell_frame (g : t) (card_width x0 y0 : float) : Frame :=
  {| frame_x1 := (x0 + 0.3 * cm)%float; frame_y1 := (y0 + 0.3 * cm)%float;
     frame_width := (card_width - to_float 2 * (0.3 * cm))%float;
     frame_height := (card_height g - to_float 2 * (0.3 * cm))%float;
     leftPadding := 5; bottomPadding := 6; rightPadding := 5; topPadding := 6;
     showBoundary := 0 |}.

Definition cell_index_frame (card_width x0 y0 : float) : Frame :=
  {| frame_x1 := (x0 + 0.3 * cm)%float; frame_y1 := (y0 + 0.3 * cm)%float;
     frame_width := (card_width - to_float 2 * (0.3 * cm))%float;
     frame_height := (0.5 * cm)%float;
     leftPadding := 6; bottomPadding := 2; rightPadding := 6; topPadding := 6;
     showBoundary := 0 |}.

(** The drawing of the face [sd] of [entry] in the cell at ([row], [col]):
    the border of the card at the corner of the cell, the story in its
    frame, and the index, when the entry has one, at the bottom of the
    frame. *)
Definition cell (g : t) (card_width : float) (sd : side) (entry : Entry) (row col : Z)
  : list canvas_op :=
  let '(x0, y0) := corner g card_width row col in
  [setStrokeColorRGB 0.8 0.8 0.8;
   rect x0 y0 card_width (card_height g);
   addFromList (cell_frame g card_width x0 y0) (face_story sd entry)]
  ++ (if truthy (index entry)
      then [saveState;
            addFromList (cell_index_frame card_width x0 y0)
              [{| para_text := index entry; para_style := index_style |}];
            restoreState]
      else []).

Section Layout.

Variables (b : backend) (g : t) (card_width : float) (P : Z).

(** The column of cell [i] in either pass. *)
Definition column_of (sd : side) (i : Z) : Z :=
  match sd with
  | Front => i mod cards_per_row g
  | Back => cards_per_row g - 1 - i mod cards_per_row g
  end.

(** What the pass [sd] draws for cell [i] of the group that starts at entry
    [k]. *)
Definition face (sd : side) (k i : Z) : list canvas_op :=
  match nth_error (entries g) (Z.to_nat (k + i)) with
  | Some entry => cell g card_width sd entry (i / cards_per_row g) (column_of sd i)
  | None => []
  end.

(** The page one pass draws for a group of [n] cells. *)
Definition group_page (sd : side) (k n : Z) : page :=
  List.concat (map (face sd k) (range n)).

(** Iterations still to run when [k] cards are processed:
    [ceil((N - k) / P)]. *)
Definition groups_left (k : Z) : nat :=
  Z.to_nat ((len (entries g) - k + P - 1) / P).

(** The pages of [count] groups from entry [k] on: for each group its
    front page, then its back page. *)
Fixpoint sheets (count : nat) (k : Z) : list page :=
  match count with
  | O => []
  | S count' =>
      let n := Z.min P (len (entries g) - k) in
      group_page Front k n :: group_page Back k n :: sheets count' (k + n)
  end.

(** The [while] loop of [generate], started with the variables [v]. *)
Definition loop (fuel : nat) (v : loop_vars) : outcome loop_vars :=
  while fuel (fun v => cards_processed v <? len (entries g))
    (page_group b g card_width P (len (entries g))) v.

(** All the iterations [render] makes on the entries of [g]:
    [ceil(N / P)]. *)
Definition groups : nat := groups_left 0.

(** The document [generate] writes. *)
Definition document : Document :=
  {| doc_pagesize := page_size g; doc_pages := sheets groups 0 |}.

End Layout.

(** The two lines [generate] prints after writing the file. *)
Definition report (g : t) : list string :=
  [("Generated " ++ str_of_int (len (entries g)) ++ " flashcards in '"
    ++ filename g ++ "'")%string;
   "For correct printing: Use double-sided printing, flip on short edge."].

(** The state [generate] ends in when it writes [doc]. *)
Definition written (w : world) (doc : Document) : world :=
  {| self := self w;
     stdout := stdout w ++ report (self w);
     files := (filename (self w), doc) :: files w |}.

(** A deck of [n] numbered cards. *)
Definition deck (n : Z) : list Entry :=
  map (fun i => {| original := ("Question " ++ str_of_int (i + 1))%string;
                   translation := ("**Answer** " ++ str_of_int (i + 1))%string;
                   extra := ""; index := str_of_int (i + 1) |})
    (range n).

(** The default configuration with 23 entries, the specification's
    example. *)
Definition example23 : world :=
  {| self := with_entries (deck 23) __init__; stdout := []; files := [] |}.

(** A new generator with the entries [l], nothing printed, nothing
    written. *)
Definition holding (l : list Entry) : world :=
  {| self := with_entries l __init__; stdout := []; files := [] |}.

(** A card whose text is [text] on the given side; ["***a***"] is
    translated to tags that cross. *)
Definition card_with_front (text : string) : Entry :=
  {| original := text; translation := "Answer"; extra := ""; index := "1" |}.

Definition card_with_back (text : string) : Entry :=
  {| original := "Question"; translation := text; extra := ""; index := "2" |}.

(** *** [generate_pdf] *)

(** The entry [add_entry] stores for a tuple, and the line it prints. *)
Definition entry_of (card : string * string * string * string) : Entry :=
  let '(front, back, extra, index) := card in
  {| original := front; translation := back; extra := extra; index := index |}.

Definition added_line (card : string * string * string * string) : string :=
  let '(front, back, extra, index) := card in
  ("Adding entry: original='" ++ front ++ "', translation='" ++ back
   ++ "', extra='" ++ extra ++ "', index='" ++ index ++ "'" ++ nl ++ nl)%string.

(** The instance once [generate_pdf] has loaded [flashcards] and
    [output_path]. *)
Definition loaded (flashcards : list (string * string * string * string))
  (output_path : string) (g : t) : t :=
  with_entries (map entry_of flashcards) (with_filename output_path g).

(** Two instances with the same layout configuration. *)
Definition same_configuration (g1 g2 : t) : Prop :=
  page_size g1 = page_size g2 /\ margins g1 = margins g2
  /\ cards_per_row g1 = cards_per_row g2 /\ card_height g1 = card_height g2.

(** *** Sessions *)

(** A call of a public method, with its arguments. *)
Inductive call : Type :=
| call_set_filename (filename : string)
| call_set_cards_per_row (count : Z)
| call_set_page_size (size : float * float)
| call_set_margins (top right bottom left : float)
| call_set_card_height (height : float)
| call_add_entry (original translation extra index : string)
| call_generate (b : backend) (fuel : nat)
| call_generate_pdf (b : backend) (fuel : nat)
    (flashcards : list (string * string * string * string)) (output_path : string).

(** The state a call leaves, whether it returns or raises (a caller that
    catches the exception goes on with the same instance); each call of
    [generate] meets the backend as it is then. *)
Definition perform (cl : call) (w : world) : world :=
  match cl with
  | call_set_filename filename => fst (set_filename filename w)
  | call_set_cards_per_row count => fst (set_cards_per_row count w)
  | call_set_page_size size => fst (set_page_size size w)
  | call_set_margins top_ right_ bottom_ left_ =>
      fst (set_margins top_ right_ bottom_ left_ w)
  | call_set_card_height height => fst (set_card_height height w)
  | call_add_entry original translation extra index =>
      fst (add_entry original translation extra index w)
  | call_generate b fuel => fst (generate b fuel w)
  | call_generate_pdf b fuel flashcards output_path =>
      fst (generate_pdf b fuel flashcards output_path w)
  end.

(** A new instance after a sequence of calls. *)
Definition session (calls : list call) : world :=
  fold_left (fun w cl => perform cl w) calls fresh.

(** *** Drawing calls on a page *)

Definition is_rect (op : canvas_op) : bool :=
  match op with rect _ _ _ _ => true | _ => false end.

(** The card borders drawn on a page. *)
Definition rects (p : page) : nat := List.length (filter is_rect p).

(** The graphics-state stack under the calls of a page: [saveState] pushes,
    [restoreState] pops and fails on an empty stack. *)
Fixpoint state_stack (depth : nat) (p : page) : option nat :=
  match p with
  | [] => Some depth
  | saveState :: p' => state_stack (S depth) p'
  | restoreState :: p' =>
      match depth with
      | O => None
      | S depth' => state_stack depth' p'
      end
  | _ :: p' => state_stack depth p'
  end.

(** The stories flowed into the frames of the cards of a page: the frame
    of a card has 5 points of padding on the left, the frame of an index
    the 6 of the library. *)
Definition card_stories (p : page) : list (list paragraph) :=
  flat_map (fun op =>
              match op with
              | addFromList f story => if leftPadding f =? 5 then [story] else []
              | _ => []
              end) p.

(** The pages at the even positions of a document, and those at the odd
    positions. *)
Fixpoint fronts_of (pages : list page) : list page :=
  match pages with
  | [] => []
  | front :: rest =>
      front :: match rest with
               | [] => []
               | _ :: rest' => fronts_of rest'
               end
  end.

Definition backs_of (pages : list page) : list page :=
  match pages with
  | [] => []
  | _ :: rest => fronts_of rest
  end.

(** The default generator after [set_card_height(float("nan"))], which the
    setter lets through, and one [add_entry]. *)
Definition nan_card : world * outcome unit :=
  (set_card_height nan ;;
   add_entry "Question" "Answer" "" "")%method fresh.

(** *** Plain text *)

(** [s] holds no markup character. *)
Definition plain (s : string) : Prop := occurs "*" s = false /\ occurs "_" s = false.

(** The number of occurrences of [c] in [s]. *)
Fixpoint count_char (c : ascii) (s : string) : nat :=
  match s with
  | EmptyString => O
  | String c' s' => if Ascii.eqb c c' then S (count_char c s') else count_char c s'
  end.

(** *** The console tool *)

(** [s] is made of whitespace. *)
Fixpoint blank (s : string) : bool :=
  match s with
  | EmptyString => true
  | String c s' => Console.isspace c && blank s'
  end.

Definition starts_with_space (s : string) : bool :=
  match s with
  | EmptyString => false
  | String c _ => Console.isspace c
  end.

Fixpoint ends_with_space (s : string) : bool :=
  match s with
  | EmptyString => false
  | String c EmptyString => Console.isspace c
  | String _ s' => ends_with_space s'
  end.

(** [s] has a character, and whitespace neither first nor last. *)
Definition trimmed (s : string) : Prop :=
  s <> EmptyString /\ starts_with_space s = false /\ ends_with_space s = false.

(** The cards have trimmed sides, no extra, and as index the decimal of
    positions that are at least [lo] and increase. *)
Fixpoint numbered (lo : Z) (cards : list Console.card) : Prop :=
  match cards with
  | [] => True
  | (front, back, extra, index) :: rest =>
      trimmed front /\ trimmed back /\ extra = EmptyString
      /\ exists p, lo <= p /\ index = str_of_int p /\ numbered (p + 1) rest
  end.

(** An item of the array gives no card: one of its sides is empty once
    stripped. *)
Definition skipped (item : Console.value) : Prop :=
  Console.field "front" item = Console.Ok EmptyString
  \/ Console.field "back" item = Console.Ok EmptyString.

(** The cards are those of the items of the array after position [lo],
    positions counted from one: the first card is read from the first of
    these items that is not skipped, has the stripped sides of the item as
    its front and back, no extra, and the decimal of the position of the
    item as its index; the other cards are those of the items after it;
    and after the last card every item is skipped. *)
Fixpoint read_from (items : list Console.value) (lo : Z) (cards : list Console.card) : Prop :=
  match cards with
  | [] =>
      forall q item,
        lo < q -> nth_error items (Z.to_nat (q - 1)) = Some item -> skipped item
  | (front, back, extra, index) :: rest =>
      exists p item,
        lo < p
        /\ nth_error items (Z.to_nat (p - 1)) = Some item
        /\ Console.field "front" item = Console.Ok front
        /\ Console.field "back" item = Console.Ok back
        /\ front <> EmptyString /\ back <> EmptyString
        /\ extra = EmptyString
        /\ index = str_of_int p
        /\ (forall q item',
              lo < q < p -> nth_error items (Z.to_nat (q - 1)) = Some item' ->
              skipped item')
        /\ read_from items p rest
  end.

(** The cards are read from the array of a reply of the service to
    [prompt]: the array that [json.loads] decodes from the group that the
    search finds in the reply. *)
Definition read_from_reply (o : Console.outside) (prompt : string)
  (cards : list Console.card) : Prop :=
  exists k w0 w1 response_text group cards_json items,
    Console.geminiResponse o k prompt w0 = (w1, Console.Ok response_text)
    /\ Console.search response_text = Some group
    /\ Console.json_loads o group = Console.Ok cards_json
    /\ Console.iterate cards_json = Console.Ok items
    /\ read_from items 0 cards.

(** The sum of the seconds slept. *)
Definition total (seconds : list Z) : Z := fold_right Z.add 0 seconds.

(** A service that answers [reply] at once, with a [json.loads] that reads
    [v]; an environment with a key. *)
Definition canned (reply : string) (v : Console.value) : Console.outside :=
  {| Console.load_dotenv :=
       fun _ _ => Console.Err (Console.ImportError "No module named 'dotenv'");
     Console.genai := fun _ _ _ => Console.Text reply;
     Console.format_exc := fun _ => "Traceback (most recent call last):";
     Console.time := fun _ => (0%float, 1%float);
     Console.json_loads := fun _ => Console.Ok v |}.

Definition keyed : Console.world :=
  {| Console.environ := Some "secret"; Console.printed := [];
     Console.slept := []; Console.requests := [] |}.

(** A service that is never reached: no key anywhere. *)
Definition keyless : Console.world :=
  {| Console.environ := None; Console.printed := [];
     Console.slept := []; Console.requests := [] |}.

(** The reply holds no array, or one that [json.loads] rejects. *)
Definition unreadable (o : Console.outside) (reply : string) : Prop :=
  match Console.search reply with
  | None => True
  | Some group =>
      exists message,
        Console.json_loads o group = Console.Err (Console.JSONDecodeError message)
  end.

(** The line printed for such a reply. *)
Definition unreadable_line (reply : string) : string :=
  match Console.search reply with
  | None => "No JSON found in response"
  | Some _ => "JSON parsing failed"
  end.

(** Call [k] of the service returns within [max_api_time]. *)
Definition in_time (o : Console.outside) (k : nat) : Prop :=
  (Console.max_api_time <? snd (Console.time o k) - fst (Console.time o k))%float = false.

Definition missing_key : Console.exn :=
  Console.ValueError
    ("API key not found. Please set the GEMINI_API_KEY environment variable "
     ++ "or enter it in the web interface.").

(** A service whose reply is [reply] and whose [json.loads] rejects
    everything. *)
Definition rejecting (reply : string) : Console.outside :=
  {| Console.load_dotenv :=
       fun _ _ => Console.Err (Console.ImportError "No module named 'dotenv'");
     Console.genai := fun _ _ _ => Console.Text reply;
     Console.format_exc := fun _ => "Traceback (most recent call last):";
     Console.time := fun _ => (0%float, 1%float);
     Console.json_loads := fun _ => Console.Err (Console.JSONDecodeError "Expecting value") |}.

(** No key in the environment at the first call, and none from [.env]. *)
Definition no_key (o : Console.outside) (w : Console.world) : Prop :=
  Console.has_key (Console.environ w) = false
  /\ match Console.load_dotenv o 0 (Console.environ w) with
     | Console.Ok key => Console.has_key key = false
     | Console.Err (Console.ImportError _) => True
     | Console.Err _ => False
     end.

(** [item] makes the loop over the cards raise. *)
Definition malformed (item : Console.value) : bool :=
  match Console.field "front" item, Console.field "back" item with
  | Console.Ok _, Console.Ok _ => false
  | _, _ => true
  end.

(** A service whose [json.loads] reads a card with a number as front. *)
Definition numeric_front : Console.outside :=
  canned "[{}]"
    (Console.VList [Console.VDict [("front", Console.VStr "Q"); ("back", Console.VStr "A")];
                    Console.VDict [("front", Console.VInt 7); ("back", Console.VStr "B")]]).

(** A service that takes a minute to give cards that are well formed. *)
Definition sluggish : Console.outside :=
  {| Console.load_dotenv :=
       fun _ _ => Console.Err (Console.ImportError "No module named 'dotenv'");
     Console.genai := fun _ _ _ => Console.Text "[{}]";
     Console.format_exc := fun _ => "Traceback (most recent call last):";
     Console.time := fun _ => (0%float, 60%float);
     Console.json_loads :=
       fun _ => Console.Ok
                  (Console.VList [Console.VDict [("front", Console.VStr "Q");
                                                 ("back", Console.VStr "A")]]) |}.

(* ===================================================================== *)
(** ** Properties *)
(* ===================================================================== *)

(** *** Configuration setters *)

(** C6. A count [<= 0] makes [set_cards_per_row] raise [ValueError] and a
    height [<= 0] makes [set_card_height] raise [ValueError]; the call ends
    in the state it started from, so the stored value is neither replaced
    nor clamped, and the error is the setter's own outcome: no call of
    [generate] is involved. *)
Theorem setters_reject_non_positive (w : world) (count : Z) (height : float) :
  count <= 0 ->
  (height <=? 0)%float = true ->
  set_cards_per_row count w
  = (w, Raises (ValueError "Cards per row must be greater than 0"))
  /\ set_card_height height w
     = (w, Raises (ValueError "Card height must be greater than 0")).
Proof.
  intros Hcount Hheight. split.
  - unfold set_cards_per_row.
    destruct (Z.leb_spec count 0) as [_ | Hpos]; [reflexivity | lia].
  - unfold set_card_height. rewrite Hheight. reflexivity.
Qed.

Lemma setters_reject_non_positive_witness :
  set_cards_per_row (-3) fresh
  = (fresh, Raises (ValueError "Cards per row must be greater than 0"))
  /\ set_card_height (-1.5)%float fresh
     = (fresh, Raises (ValueError "Card height must be greater than 0")).
Proof.
  apply (setters_reject_non_positive fresh (-3) (-1.5)%float).
  - lia.
  - reflexivity.
Defined.

(** C10. [set_margins] and [set_page_size] accept every argument: they
    store it, leave the other attributes alone and return without raising,
    and [_calculate_card_dimensions] then computes from the stored values
    as they are. *)
Theorem unvalidated_setters_store (w : world) (top right bottom left : float)
  (size : float * float) :
  set_margins top right bottom left w
  = ({| self := with_margins (top, right, bottom, left) (self w);
        stdout := stdout w; files := files w |}, Returns tt)
  /\ set_page_size size w
     = ({| self := with_page_size size (self w);
           stdout := stdout w; files := files w |}, Returns tt)
  /\ _calculate_card_dimensions
       (with_margins (top, right, bottom, left) (with_page_size size (self w)))
     = (card_width <- truediv_int (fst size - right - left)%float
                        (cards_per_row (self w)) ;;
        quotient <- truediv (snd size - top - bottom)%float (card_height (self w)) ;;
        cards_per_column <- int_of_float quotient ;;
        Returns (card_width, cards_per_row (self w) * cards_per_column))%py.
Proof.
  repeat split.
Qed.

(** *** Empty deck *)

(** C7. With no entry, [generate] prints the warning and returns, whatever
    the backend: no exception, no file written, the instance as it was. *)
Theorem generate_empty_is_noop (b : backend) (fuel : nat) (w : world) :
  entries (self w) = [] ->
  generate b fuel w
  = ({| self := self w;
        stdout := stdout w ++ ["Warning: No flashcard entries to generate"];
        files := files w |}, Returns tt).
Proof.
  intros Hempty. unfold generate, bindM, get. rewrite Hempty. reflexivity.
Qed.

Lemma generate_empty_is_noop_witness :
  generate nesting 0 fresh
  = ({| self := __init__;
        stdout := ["Warning: No flashcard entries to generate"];
        files := [] |}, Returns tt).
Proof.
  apply (generate_empty_is_noop nesting 0 fresh). reflexivity.
Defined.

(** *** Markup translation *)

Lemma length_append (s1 s2 : string) :
  String.length (s1 ++ s2) = (String.length s1 + String.length s2)%nat.
Proof. induction s1 as [| a s1 IH]; simpl; [reflexivity | now rewrite IH]. Qed.

Lemma append_assoc (s1 s2 s3 : string) : ((s1 ++ s2) ++ s3 = s1 ++ s2 ++ s3)%string.
Proof. induction s1 as [| c s1 IH]; cbn [append]; [reflexivity | now rewrite IH]. Qed.

Lemma occurs_append (c : ascii) (s1 s2 : string) :
  occurs c (s1 ++ s2) = occurs c s1 || occurs c s2.
Proof. induction s1 as [| a s1 IH]; simpl; [reflexivity | now rewrite IH, orb_assoc]. Qed.

Lemma prefix_split (d s : string) :
  String.prefix d s = true -> s = (d ++ Re.drop (String.length d) s)%string.
Proof.
  revert s. induction d as [| a d IH]; intros s H; [reflexivity |].
  destruct s as [| b s]; [discriminate |]. simpl in H |- *.
  destruct (Ascii.ascii_dec a b) as [-> | Hab]; [| discriminate].
  now rewrite <- (IH s H).
Qed.

Lemma prefix_append (d r : string) : String.prefix d (d ++ r) = true.
Proof.
  induction d as [| a d IH]; simpl; [now destruct r |].
  destruct (Ascii.ascii_dec a a); [exact IH | congruence].
Qed.

Lemma drop_append (d r : string) : Re.drop (String.length d) (d ++ r) = r.
Proof. induction d as [| a d IH]; simpl; [now destruct r | exact IH]. Qed.

Section Substitution.

(** The delimiter of the pattern. *)
Variable d : string.

(** What [lazy_group] returns is a split of its input at an occurrence of
    [d], the group free of newlines, and no split has a shorter group. *)
Lemma lazy_group_shortest (s g r : string) :
  Re.lazy_group d s = Some (g, r) ->
  s = (g ++ d ++ r)%string
  /\ occurs Re.newline g = false
  /\ forall g' r', s = (g' ++ d ++ r')%string -> (String.length g <= String.length g')%nat.
Proof.
  revert g r. induction s as [| a s IH]; intros g r H.
  - cbn [Re.lazy_group] in H. destruct (String.prefix d "") eqn:Hp; [| discriminate].
    injection H as <- <-. repeat split; [now apply prefix_split | intros; simpl; lia].
  - cbn [Re.lazy_group] in H.
    destruct (String.prefix d (String a s)) eqn:Hp.
    + injection H as <- <-. repeat split; [now apply prefix_split | intros; simpl; lia].
    + destruct (Ascii.eqb a Re.newline) eqn:Hnl; [discriminate |].
      destruct (Re.lazy_group d s) as [[g0 r0] |] eqn:Hrec; [| discriminate].
      injection H as <- <-.
      destruct (IH g0 r0 eq_refl) as (Hs & Hg & Hmin). repeat split.
      * simpl. now rewrite <- Hs.
      * cbn [occurs]. rewrite Ascii.eqb_sym, Hnl. exact Hg.
      * intros g' r' Hsplit. destruct g' as [| b g'].
        -- simpl in Hsplit. rewrite Hsplit, prefix_append in Hp. discriminate.
        -- simpl in Hsplit. injection Hsplit as _ Hsplit.
           simpl. apply le_n_S. now apply (Hmin g' r').
Qed.

Lemma lazy_group_at_delimiter (r : string) :
  Re.lazy_group d (d ++ r) = Some (EmptyString, r).
Proof.
  destruct (d ++ r)%string eqn:E; cbn [Re.lazy_group];
    rewrite <- E, prefix_append, drop_append; reflexivity.
Qed.

(** A group free of newlines followed by [d] is always matched. *)
Lemma lazy_group_complete (g r : string) :
  occurs Re.newline g = false -> Re.lazy_group d (g ++ d ++ r) <> None.
Proof.
  induction g as [| a g IH]; intros Hg.
  - cbn [append]. rewrite lazy_group_at_delimiter. discriminate.
  - cbn [occurs] in Hg. apply orb_false_elim in Hg as [Ha Hg].
    cbn [Re.lazy_group append].
    destruct (String.prefix d (String a (g ++ d ++ r))); [discriminate |].
    rewrite Ascii.eqb_sym, Ha.
    specialize (IH Hg). destruct (Re.lazy_group d (g ++ d ++ r)) as [[? ?] |];
      [discriminate | congruence].
Qed.

Lemma match_at_split (s g r : string) :
  Re.match_at d s = Some (g, r) ->
  s = (d ++ g ++ d ++ r)%string /\ occurs Re.newline g = false.
Proof.
  unfold Re.match_at. destruct (String.prefix d s) eqn:Hp; [| discriminate].
  intros H. apply lazy_group_shortest in H as (Hs & Hg & _).
  split; [| exact Hg]. rewrite <- Hs. now apply prefix_split.
Qed.

Lemma has_match_complete (s : string) : has_match d s = false -> unpaired d s.
Proof.
  intros H p g r ->. revert H. induction p as [| a p IH]; intros H.
  - destruct (occurs Re.newline g) eqn:Hg; [reflexivity | exfalso].
    assert (Hm : Re.match_at d (d ++ g ++ d ++ r) <> None).
    { unfold Re.match_at. rewrite prefix_append, drop_append.
      now apply lazy_group_complete. }
    cbn [append] in H. destruct (d ++ g ++ d ++ r)%string; cbn [has_match] in H;
      destruct (Re.match_at d _); congruence.
  - apply IH. cbn [append has_match] in H.
    destruct (Re.match_at d (String a (p ++ d ++ g ++ d ++ r))); [discriminate | exact H].
Qed.

(** Where no occurrence of the delimiter has a partner, the substitution
    changes nothing. *)
Lemma sub_from_unpaired (opening closing s : string) (fuel : nat) :
  unpaired d s -> Re.sub_from fuel d opening closing s = s.
Proof.
  revert fuel. induction s as [| a s IH]; intros fuel H; destruct fuel; try reflexivity.
  cbn [Re.sub_from].
  destruct (Re.match_at d (String a s)) as [[g r] |] eqn:Hm.
  - apply match_at_split in Hm as (Hs & Hg).
    specialize (H EmptyString g r Hs). congruence.
  - f_equal. apply IH. intros p g r ->. apply (H (String a p) g r). reflexivity.
Qed.

End Substitution.

(** A string without the first character of [d] has no occurrence of
    [d] at all. *)
Lemma unpaired_without (c : ascii) (d s : string) :
  occurs c s = false -> unpaired (String c d) s.
Proof.
  intros H p g r ->. rewrite occurs_append in H. simpl in H.
  rewrite Ascii.eqb_refl, orb_true_r in H. discriminate.
Qed.

(** Two asterisks on a line are a pair for the italic rule, whatever
    separates them: no pair for italic means no pair for bold. *)
Lemma unpaired_bold (s : string) : unpaired "*" s -> unpaired "**" s.
Proof.
  intros H p g r ->.
  specialize (H p EmptyString (g ++ "**" ++ r)%string eq_refl). discriminate.
Qed.

(** The scan of [Re.sub] needs no more steps than its input has characters:
    a larger budget changes nothing. *)
Lemma sub_from_enough (a : ascii) (d opening closing : string) (n m : nat) (s : string) :
  (String.length s <= n)%nat -> (String.length s <= m)%nat ->
  Re.sub_from n (String a d) opening closing s
  = Re.sub_from m (String a d) opening closing s.
Proof.
  revert m s. induction n as [| n IH]; intros m s Hn Hm.
  - destruct s; [now destruct m | simpl in Hn; lia].
  - destruct s as [| b s]; [now destruct m |].
    destruct m as [| m]; [simpl in Hm; lia |].
    cbn [Re.sub_from]. simpl in Hn, Hm.
    destruct (Re.match_at (String a d) (String b s)) as [[g r] |] eqn:Hmatch.
    + apply match_at_split in Hmatch as (Hs & _).
      apply (f_equal String.length) in Hs. cbn [append] in Hs.
      cbn [String.length] in Hs.
      rewrite !length_append in Hs. cbn [String.length] in Hs. rewrite length_append in Hs.
      do 3 f_equal. apply IH; lia.
    + f_equal. apply IH; lia.
Qed.

Section Paired.

(** The delimiter, with its first character apart, and the two tags. *)
Variables (c0 : ascii) (d' opening closing : string).

(** The scan copies a text without the first character of the
    delimiter. *)
Lemma sub_from_copies (a s : string) (fuel : nat) :
  occurs c0 a = false ->
  Re.sub_from (String.length a + fuel) (String c0 d') opening closing (a ++ s)
  = (a ++ Re.sub_from fuel (String c0 d') opening closing s)%string.
Proof.
  induction a as [| x a IH]; intros Ha; [reflexivity |].
  cbn [occurs] in Ha. apply orb_false_elim in Ha as [Hx Ha].
  cbn [String.length Nat.add append Re.sub_from].
  assert (Hnone : Re.match_at (String c0 d') (String x (a ++ s)) = None).
  { unfold Re.match_at. cbn [String.prefix].
    destruct (Ascii.ascii_dec c0 x) as [-> | _]; [| reflexivity].
    now rewrite Ascii.eqb_refl in Hx. }
  rewrite Hnone. f_equal. now apply IH.
Qed.

(** A span without the first character of the delimiter and without a
    newline is the group of the match. *)
Lemma lazy_group_span (b r : string) :
  occurs c0 b = false -> occurs Re.newline b = false ->
  Re.lazy_group (String c0 d') (b ++ String c0 d' ++ r) = Some (b, r).
Proof.
  remember (String c0 d' ++ r)%string as t eqn:Et.
  induction b as [| x b IH]; intros Hb Hnl.
  - subst t. exact (lazy_group_at_delimiter (String c0 d') r).
  - cbn [occurs] in Hb, Hnl.
    apply orb_false_elim in Hb as [Hx Hb]. apply orb_false_elim in Hnl as [Hxnl Hnl].
    cbn [append Re.lazy_group String.prefix].
    destruct (Ascii.ascii_dec c0 x) as [-> | _]; [now rewrite Ascii.eqb_refl in Hx |].
    rewrite Ascii.eqb_sym, Hxnl. now rewrite IH.
Qed.

(** A delimited span between two texts without the first character of the
    delimiter is put between the tags, and nothing else changes. *)
Lemma sub_pair (a b r : string) :
  occurs c0 a = false -> occurs c0 b = false -> occurs Re.newline b = false ->
  occurs c0 r = false ->
  Re.sub (String c0 d') opening closing (a ++ String c0 d' ++ b ++ String c0 d' ++ r)
  = (a ++ opening ++ b ++ closing ++ r)%string.
Proof.
  intros Ha Hb Hnl Hr. unfold Re.sub. rewrite length_append, sub_from_copies by exact Ha.
  f_equal.
  pose proof (lazy_group_span b r Hb Hnl) as Hgroup.
  remember (b ++ String c0 d' ++ r)%string as t eqn:Et.
  assert (Hmatch : Re.match_at (String c0 d') (String c0 (d' ++ t)) = Some (b, r)).
  { unfold Re.match_at. change (String c0 (d' ++ t)) with (String c0 d' ++ t)%string.
    now rewrite prefix_append, drop_append. }
  change (String c0 d' ++ t)%string with (String c0 (d' ++ t)).
  cbn [String.length Re.sub_from]. rewrite Hmatch. do 3 f_equal.
  apply sub_from_unpaired. now apply unpaired_without.
Qed.

(** One step of the scan where the pattern does not match: the character
    is copied. *)
Lemma sub_copy (x : ascii) (s : string) :
  Re.match_at (String c0 d') (String x s) = None ->
  Re.sub (String c0 d') opening closing (String x s)
  = String x (Re.sub (String c0 d') opening closing s).
Proof. unfold Re.sub. cbn [String.length Re.sub_from]. now intros ->. Qed.

(** One step of the scan where the pattern matches: the group goes between
    the tags and the scan resumes after the match. *)
Lemma sub_match (x : ascii) (s g r : string) :
  Re.match_at (String c0 d') (String x s) = Some (g, r) ->
  Re.sub (String c0 d') opening closing (String x s)
  = (opening ++ g ++ closing ++ Re.sub (String c0 d') opening closing r)%string.
Proof.
  intros Hmatch. unfold Re.sub. cbn [String.length Re.sub_from]. rewrite Hmatch.
  do 3 f_equal. apply sub_from_enough; [| lia].
  apply match_at_split in Hmatch as (Hs & _).
  apply (f_equal String.length) in Hs. cbn [append String.length] in Hs.
  rewrite !length_append in Hs. cbn [String.length] in Hs. rewrite length_append in Hs. lia.
Qed.

(** The substitution copies a text without the first character of the
    delimiter and goes on after it. *)
Lemma sub_skips (a s : string) :
  occurs c0 a = false ->
  Re.sub (String c0 d') opening closing (a ++ s)
  = (a ++ Re.sub (String c0 d') opening closing s)%string.
Proof.
  induction a as [| x a IH]; intros Ha; [reflexivity |].
  cbn [occurs] in Ha. apply orb_false_elim in Ha as [Hx Ha].
  cbn [append]. rewrite sub_copy; [now rewrite IH |].
  unfold Re.match_at. cbn [String.prefix].
  destruct (Ascii.ascii_dec c0 x) as [-> | _]; [| reflexivity].
  now rewrite Ascii.eqb_refl in Hx.
Qed.

(** A pair is closed by the first delimiter that follows the opening one:
    the span goes between the tags, and the substitution goes on with what
    follows the closing delimiter, whatever it holds. *)
Lemma sub_span (g r : string) :
  occurs c0 g = false -> occurs Re.newline g = false ->
  Re.sub (String c0 d') opening closing (String c0 d' ++ g ++ String c0 d' ++ r)
  = (opening ++ g ++ closing ++ Re.sub (String c0 d') opening closing r)%string.
Proof.
  intros Hg Hnl.
  pose proof (lazy_group_span g r Hg Hnl) as Hgroup.
  remember (g ++ String c0 d' ++ r)%string as t eqn:Et.
  change (String c0 d' ++ t)%string with (String c0 (d' ++ t)).
  apply sub_match. unfold Re.match_at.
  change (String c0 (d' ++ t)) with (String c0 d' ++ t)%string.
  now rewrite prefix_append, drop_append.
Qed.

(** The substitution copies a tagged span without the first character of
    the delimiter. *)
Lemma sub_skips_tagged (a tag1 g tag2 s : string) :
  occurs c0 a = false -> occurs c0 tag1 = false -> occurs c0 g = false ->
  occurs c0 tag2 = false ->
  Re.sub (String c0 d') opening closing (a ++ tag1 ++ g ++ tag2 ++ s)
  = (a ++ tag1 ++ g ++ tag2 ++ Re.sub (String c0 d') opening closing s)%string.
Proof. intros Ha H1 Hg H2. now rewrite !sub_skips by assumption. Qed.

End Paired.

(** *** Lines *)

Lemma prefix_line (d l s : string) :
  occurs Re.newline d = false ->
  String.prefix d (l ++ String Re.newline s) = String.prefix d l.
Proof.
  revert l. induction d as [| a d IH]; intros l Hd; [now destruct l |].
  cbn [occurs] in Hd. apply orb_false_elim in Hd as [Ha Hd].
  destruct l as [| x l]; cbn [append String.prefix].
  - destruct (Ascii.ascii_dec a Re.newline) as [-> | _]; [| reflexivity].
    now rewrite Ascii.eqb_refl in Ha.
  - destruct (Ascii.ascii_dec a x); [now apply IH | reflexivity].
Qed.

Lemma drop_prefix_append (d l t : string) :
  String.prefix d l = true ->
  Re.drop (String.length d) (l ++ t) = (Re.drop (String.length d) l ++ t)%string.
Proof.
  revert l. induction d as [| a d IH]; intros l Hp; [reflexivity |].
  destruct l as [| x l]; [discriminate |]. cbn [String.prefix] in Hp.
  destruct (Ascii.ascii_dec a x); [| discriminate].
  cbn [String.length append Re.drop]. now apply IH.
Qed.

Section Lines.

(** The delimiter, with its first character apart, and the two tags; none
    of them holds a newline. *)
Variables (c0 : ascii) (d' opening closing : string).

Hypothesis Hdelimiter : occurs Re.newline (String c0 d') = false.
Hypothesis Hopening : occurs Re.newline opening = false.
Hypothesis Hclosing : occurs Re.newline closing = false.

Lemma lazy_group_line (l s : string) :
  occurs Re.newline l = false ->
  Re.lazy_group (String c0 d') (l ++ String Re.newline s)
  = on_line s (Re.lazy_group (String c0 d') l).
Proof.
  induction l as [| x l IH]; intros Hl.
  - pose proof (prefix_line _ "" s Hdelimiter) as Hp. cbn [append] in Hp.
    cbn [append Re.lazy_group]. rewrite Hp. cbn [String.prefix on_line].
    now rewrite Ascii.eqb_refl.
  - cbn [occurs] in Hl. apply orb_false_elim in Hl as [Hx Hl].
    cbn [append Re.lazy_group].
    change (String x (l ++ String Re.newline s)) with (String x l ++ String Re.newline s)%string.
    rewrite (prefix_line _ (String x l) s Hdelimiter).
    destruct (String.prefix (String c0 d') (String x l)) eqn:Hp.
    + cbn [on_line]. now rewrite drop_prefix_append.
    + rewrite Ascii.eqb_sym, Hx, (IH Hl).
      now destruct (Re.lazy_group (String c0 d') l) as [[g r] |].
Qed.

Lemma drop_line (n : nat) (l : string) :
  occurs Re.newline l = false -> occurs Re.newline (Re.drop n l) = false.
Proof.
  revert l. induction n as [| n IH]; intros l Hl; [exact Hl |].
  destruct l as [| x l]; [reflexivity |]. cbn [occurs] in Hl.
  apply orb_false_elim in Hl as [_ Hl]. cbn [Re.drop]. now apply IH.
Qed.

Lemma match_at_line (l s : string) :
  occurs Re.newline l = false ->
  Re.match_at (String c0 d') (l ++ String Re.newline s)
  = on_line s (Re.match_at (String c0 d') l).
Proof.
  intros Hl. unfold Re.match_at. rewrite (prefix_line _ l s Hdelimiter).
  destruct (String.prefix (String c0 d') l) eqn:Hp; [| reflexivity].
  rewrite drop_prefix_append by exact Hp. apply lazy_group_line. now apply drop_line.
Qed.

(** The substitution works line by line: a match never holds a newline. *)
Lemma sub_line (n : nat) :
  forall l s : string,
    (String.length l <= n)%nat ->
    occurs Re.newline l = false ->
    Re.sub (String c0 d') opening closing (l ++ String Re.newline s)
    = (Re.sub (String c0 d') opening closing l
       ++ String Re.newline (Re.sub (String c0 d') opening closing s))%string
    /\ occurs Re.newline (Re.sub (String c0 d') opening closing l) = false.
Proof.
  induction n as [| n IH]; intros l s Hn Hl.
  - destruct l; [| cbn in Hn; lia]. cbn [append]. split; [| reflexivity].
    rewrite sub_copy; [reflexivity |].
    change (String Re.newline s) with ("" ++ String Re.newline s)%string.
    now rewrite match_at_line.
  - destruct l as [| x l]; [apply (IH "" s); [cbn; lia | reflexivity] |].
    cbn [String.length] in Hn.
    pose proof (match_at_line (String x l) s Hl) as Hline.
    cbn [append] in Hline |- *.
    destruct (Re.match_at (String c0 d') (String x l)) as [[g r] |] eqn:Hmatch;
      cbn [on_line] in Hline.
    + rewrite (sub_match _ _ _ _ _ _ _ _ Hline), (sub_match _ _ _ _ _ _ _ _ Hmatch).
      apply match_at_split in Hmatch as (Hs & Hg).
      assert (Hr : occurs Re.newline r = false /\ (String.length r <= n)%nat).
      { rewrite Hs in Hl. rewrite !occurs_append in Hl.
        repeat (apply orb_false_elim in Hl as [_ Hl]). split; [exact Hl |].
        apply (f_equal String.length) in Hs. cbn [append String.length] in Hs.
        rewrite !length_append in Hs. cbn [String.length] in Hs.
        rewrite length_append in Hs. lia. }
      destruct (IH r s (proj2 Hr) (proj1 Hr)) as [-> Hout]. split.
      * now rewrite !append_assoc.
      * rewrite !occurs_append, Hopening, Hg, Hclosing, Hout. reflexivity.
    + rewrite (sub_copy _ _ _ _ _ _ Hline), (sub_copy _ _ _ _ _ _ Hmatch).
      cbn [occurs] in Hl. apply orb_false_elim in Hl as [Hx Hl].
      destruct (IH l s ltac:(lia) Hl) as [-> Hout]. split; [reflexivity |].
      cbn [occurs]. now rewrite Hx, Hout.
Qed.

End Lines.

(** A text is translated line by line. *)
Lemma parse_markdown_line (l s : string) :
  occurs Re.newline l = false ->
  _parse_markdown (l ++ String Re.newline s)
  = (_parse_markdown l ++ String Re.newline (_parse_markdown s))%string.
Proof.
  intros Hl. unfold _parse_markdown.
  destruct (sub_line "*" "*" "<b>" "</b>" eq_refl eq_refl eq_refl _ l s (le_n _) Hl)
    as [-> Hbold].
  destruct (sub_line "*" "" "<i>" "</i>" eq_refl eq_refl eq_refl _ _
              (Re.sub "**" "<b>" "</b>" s) (le_n _) Hbold) as [-> Hitalic].
  now destruct (sub_line "_" "_" "<u>" "</u>" eq_refl eq_refl eq_refl _ _
                  (Re.sub "*" "<i>" "</i>" (Re.sub "**" "<b>" "</b>" s)) (le_n _) Hitalic)
    as [-> _].
Qed.

(** The rule for bold leaves a pair of single asterisks alone when its
    span is not empty and no asterisk follows it. *)
Lemma bold_skips_italic (a g r : string) :
  occurs "*" a = false -> occurs "*" g = false -> g <> EmptyString ->
  String.prefix "*" r = false ->
  Re.sub "**" "<b>" "</b>" (a ++ "*" ++ g ++ "*" ++ r)
  = (a ++ "*" ++ g ++ "*" ++ Re.sub "**" "<b>" "</b>" r)%string.
Proof.
  intros Ha Hg Hspan Hr. rewrite sub_skips by exact Ha. f_equal.
  destruct g as [| x g]; [congruence |].
  pose proof Hg as Hx. cbn [occurs] in Hx. apply orb_false_elim in Hx as [Hx _].
  change ("*" ++ String x g ++ "*" ++ r)%string
    with (String "*" (String x g ++ String "*" r)).
  rewrite sub_copy.
  - f_equal. rewrite sub_skips by exact Hg. f_equal.
    rewrite sub_copy; [reflexivity |].
    unfold Re.match_at. cbn [String.prefix].
    destruct (Ascii.ascii_dec "*" "*"); [| congruence]. now rewrite Hr.
  - unfold Re.match_at. cbn [String.prefix append].
    destruct (Ascii.ascii_dec "*" "*"); [| congruence].
    destruct (Ascii.ascii_dec "*" x) as [<- | _]; [| reflexivity].
    now rewrite Ascii.eqb_refl in Hx.
Qed.

(** Where no delimiter has a partner, nothing changes. *)
Lemma parse_markdown_unpaired (s : string) :
  unpaired "*" s -> unpaired "__" s -> _parse_markdown s = s.
Proof.
  intros Hstar Hunder. unfold _parse_markdown, Re.sub.
  rewrite (sub_from_unpaired "**"); [| now apply unpaired_bold].
  rewrite (sub_from_unpaired "*"); [| exact Hstar].
  now apply sub_from_unpaired.
Qed.

(** C8, as the code has it. [_parse_markdown] is a total function on
    strings, so no input makes it raise. A string without ['*'] and ['_']
    comes back unchanged. Matching is non-greedy: after a text without
    markup, a pair of ["**"], of ['*'] or of ["__"] around a span without
    markup on one line is closed by the first delimiter that follows the
    opening one, the span goes between the tags, and what follows the
    closing delimiter, whatever it holds, is translated in its turn; for
    ['*'] the span is not empty and no ['*'] comes right after the pair,
    as these belong to the rule for bold. A text is translated line by
    line. Delimiters stay in the output as literal characters when none of
    them has a partner: no line holds two ['*'], and no line holds two
    disjoint occurrences of ["__"]. *)
Theorem parse_markdown_lenient :
  (forall s, occurs "*" s = false -> occurs "_" s = false -> _parse_markdown s = s)
  /\ (forall a g r,
        plain a -> plain g -> occurs Re.newline g = false ->
        _parse_markdown (a ++ "**" ++ g ++ "**" ++ r)
        = (a ++ "<b>" ++ g ++ "</b>" ++ _parse_markdown r)%string
        /\ _parse_markdown (a ++ "__" ++ g ++ "__" ++ r)
           = (a ++ "<u>" ++ g ++ "</u>" ++ _parse_markdown r)%string
        /\ (g <> EmptyString -> String.prefix "*" r = false ->
            _parse_markdown (a ++ "*" ++ g ++ "*" ++ r)
            = (a ++ "<i>" ++ g ++ "</i>" ++ _parse_markdown r)%string))
  /\ (forall l s,
        occurs Re.newline l = false ->
        _parse_markdown (l ++ String Re.newline s)
        = (_parse_markdown l ++ String Re.newline (_parse_markdown s))%string)
  /\ (forall s, unpaired "*" s -> unpaired "__" s -> _parse_markdown s = s).
Proof.
  split; [| split; [| split; [exact parse_markdown_line |]]].
  - intros s Hstar Hunder. apply parse_markdown_unpaired; now apply unpaired_without.
  - intros a g r [Has Hau] [Hgs Hgu] Hnl. unfold _parse_markdown. split; [| split].
    + rewrite (sub_skips "*" "*") by exact Has.
      rewrite (sub_span "*" "*") by assumption.
      rewrite (sub_skips_tagged "*" "") by (assumption || reflexivity).
      now rewrite (sub_skips_tagged "_" "_") by (assumption || reflexivity).
    + rewrite (sub_skips_tagged "*" "*") by (assumption || reflexivity).
      rewrite (sub_skips_tagged "*" "") by (assumption || reflexivity).
      rewrite (sub_skips "_" "_") by exact Hau.
      now rewrite (sub_span "_" "_") by assumption.
    + intros Hspan Hr. rewrite bold_skips_italic by assumption.
      rewrite (sub_skips "*" "") by exact Has.
      rewrite (sub_span "*" "") by assumption.
      now rewrite (sub_skips_tagged "_" "_") by (assumption || reflexivity).
  - exact parse_markdown_unpaired.
Qed.

Lemma parse_markdown_lenient_witness :
  _parse_markdown "What is 2 + 2?" = "What is 2 + 2?"
  /\ _parse_markdown "Key: **cell** and **wall** or 5 * 3"
     = "Key: <b>cell</b> and <b>wall</b> or 5 * 3"
  /\ _parse_markdown "__cell__ __wall__ __init" = "<u>cell</u> <u>wall</u> __init"
  /\ _parse_markdown "*cell* and *wall* or 5 * 3" = "<i>cell</i> and <i>wall</i> or 5 * 3"
  /\ _parse_markdown ("5 * 3" ++ String Re.newline "**cell** * 2")
     = ("5 * 3" ++ String Re.newline "<b>cell</b> * 2")%string
  /\ _parse_markdown "5 * 3 = snake_case __init" = "5 * 3 = snake_case __init".
Proof.
  destruct parse_markdown_lenient as (Hplain & Hpair & Hline & Hlit).
  assert (Hrest : _parse_markdown " or 5 * 3" = " or 5 * 3"%string)
    by (apply Hlit; apply has_match_complete; reflexivity).
  split; [| split; [| split; [| split; [| split]]]].
  - apply Hplain; reflexivity.
  - destruct (Hpair "Key: " "cell" " and **wall** or 5 * 3")%string as (H1 & _);
      [split; reflexivity | split; reflexivity | reflexivity |].
    destruct (Hpair " and " "wall" " or 5 * 3")%string as (H2 & _);
      [split; reflexivity | split; reflexivity | reflexivity |].
    cbn [append] in H1, H2. now rewrite H1, H2, Hrest.
  - destruct (Hpair "" "cell" " __wall__ __init")%string as (_ & H1 & _);
      [split; reflexivity | split; reflexivity | reflexivity |].
    destruct (Hpair " " "wall" " __init")%string as (_ & H2 & _);
      [split; reflexivity | split; reflexivity | reflexivity |].
    cbn [append] in H1, H2. rewrite H1, H2, Hlit; [reflexivity | |];
      apply has_match_complete; reflexivity.
  - destruct (Hpair "" "cell" " and *wall* or 5 * 3")%string as (_ & _ & H1);
      [split; reflexivity | split; reflexivity | reflexivity |].
    destruct (Hpair " and " "wall" " or 5 * 3")%string as (_ & _ & H2);
      [split; reflexivity | split; reflexivity | reflexivity |].
    cbn [append] in H1, H2.
    rewrite H1, H2, Hrest; reflexivity || discriminate.
  - destruct (Hpair "" "cell" " * 2")%string as (H1 & _);
      [split; reflexivity | split; reflexivity | reflexivity |].
    cbn [append] in H1.
    rewrite Hline, H1, !Hlit; [reflexivity | | | | |];
      (apply has_match_complete; reflexivity) || reflexivity.
  - apply Hlit; apply has_match_complete; reflexivity.
Defined.

(** C8 as stated fails on an unmatched bold delimiter: in ["a ** b"] the
    pattern for bold has no match, yet the delimiter does not stay in the
    output, because the italic rule takes its two asterisks for an empty
    span. *)
Lemma parse_markdown_lone_bold_delimiter :
  has_match "**" "a ** b" = false
  /\ _parse_markdown "a ** b" = "a <i></i> b"
  /\ _parse_markdown "a ** b" <> "a ** b".
Proof.
  split; [| split]; [reflexivity | reflexivity | discriminate].
Qed.

(** *** Card dimensions *)

(** Rounding keeps the sign it is given. *)
Lemma binary_round_aux_sign (s s' : bool) (m : Z) (e : Z) (l : location)
  (m' : positive) (e' : Z) :
  binary_round_aux prec emax s m e l = S754_finite s' m' e' -> s' = s.
Proof.
  unfold binary_round_aux.
  destruct (shr_fexp prec emax m e l) as [mrs1 e1].
  destruct (shr_fexp prec emax _ e1 loc_Exact) as [mrs2 e2].
  destruct (shr_m mrs2); [discriminate | | discriminate].
  destruct (e2 <=? emax - prec); [| discriminate].
  now intros [= <- _ _].
Qed.

(** A non-negative float divided by a positive one is not a negative
    number. *)
Lemma quotient_not_negative (x y : float) :
  (0 <=? x)%float = true -> (0 <? y)%float = true ->
  forall m e, Prim2SF (x / y) <> S754_finite true m e.
Proof.
  rewrite leb_spec, ltb_spec, div_spec.
  change (Prim2SF 0) with (S754_zero false).
  unfold SFleb, SFltb, SF64div.
  destruct (Prim2SF x) as [sx | sx | | sx mx ex], (Prim2SF y) as [sy | sy | | sy my ey];
    try destruct sx; try destruct sy; cbn [SFcompare SFdiv xorb];
    try discriminate; intros _ _ m e.
  destruct (SFdiv_core_binary prec emax (Z.pos mx) ex (Z.pos my) ey) as [[mz ez] lz].
  intros H. apply binary_round_aux_sign in H. discriminate.
Qed.

(** A positive float is not a zero. *)
Lemma positive_not_zero (y : float) :
  (0 <? y)%float = true -> (y =? 0)%float = false.
Proof.
  rewrite ltb_spec, eqb_spec.
  change (Prim2SF 0) with (S754_zero false).
  unfold SFltb, SFeqb.
  destruct (Prim2SF y) as [sy | sy | | sy my ey]; try destruct sy; cbn [SFcompare];
    intros H; try discriminate; reflexivity.
Qed.

(** Truncation and floor agree except on negative numbers. *)
Lemma int_of_float_floor (x : float) :
  (forall m e, Prim2SF x <> S754_finite true m e) ->
  int_of_float x = floor_of_float x.
Proof.
  unfold int_of_float, floor_of_float. intros H.
  destruct (Prim2SF x) as [s | s | | s m e]; try reflexivity.
  destruct s; [now elim (H m e) |].
  unfold integral. destruct (0 <=? e) eqn:He; [reflexivity |].
  f_equal. apply Z.quot_div_nonneg; [apply Pos2Z.is_nonneg |].
  apply Z.pow_pos_nonneg; [reflexivity |].
  apply Z.leb_gt in He. apply Z.opp_nonneg_nonpos. now apply Z.lt_le_incl.
Qed.

(** A mantissa is below two to the power of its number of digits. *)
Lemma digits2_pos_gt (m : positive) : Z.pos m < 2 ^ Z.pos (digits2_pos m).
Proof.
  induction m as [m IH | m IH |]; cbn [digits2_pos];
    rewrite ?Pos2Z.inj_succ, ?Z.pow_succ_r by lia; [lia | lia | reflexivity].
Qed.

(** The mantissa and exponent of a float: 53 bits, exponent at most 971. *)
Lemma finite_bounded (x : float) (s : bool) (m : positive) (e : Z) :
  Prim2SF x = S754_finite s m e -> Z.pos m < 2 ^ 53 /\ e <= 971.
Proof.
  intros H. pose proof (Prim2SF_valid x) as Hv. rewrite H in Hv.
  cbn [valid_binary] in Hv. unfold bounded, canonical_mantissa, fexp in Hv.
  apply andb_true_iff in Hv as [Hm He].
  apply Z.eqb_eq in Hm. apply Z.leb_le in He.
  change (emax - prec) with 971 in He. change prec with 53 in Hm.
  split; [| exact He].
  apply Z.lt_le_trans with (1 := digits2_pos_gt m).
  apply Z.pow_le_mono_r; lia.
Qed.

(** [int(x)] is an integer that converts back to a float. *)
Lemma int_of_float_bound (x : float) (n : Z) :
  int_of_float x = Returns n -> Z.abs n < float_int_bound.
Proof.
  unfold int_of_float.
  destruct (Prim2SF x) as [s | s | | s m e] eqn:Hx; try discriminate.
  - intros [= <-]. reflexivity.
  - intros [= <-]. apply finite_bounded in Hx as [Hm He].
    assert (Hsm : Z.abs (if s then Z.neg m else Z.pos m) = Z.pos m) by now destruct s.
    unfold integral. destruct (Z.leb_spec 0 e) as [He0 | He0].
    + rewrite Z.abs_mul, Hsm, (Z.abs_eq (2 ^ e)) by (apply Z.pow_nonneg; lia).
      assert (H1 : 2 ^ e <= 2 ^ 971) by (apply Z.pow_le_mono_r; lia).
      assert (H2 : 0 < 2 ^ e) by (apply Z.pow_pos_nonneg; lia).
      assert (H3 : (2 ^ 53 - 1) * 2 ^ 971 < float_int_bound) by reflexivity.
      nia.
    + assert (H2 : 0 < 2 ^ (- e)) by (apply Z.pow_pos_nonneg; lia).
      rewrite <- Z.quot_abs by lia. rewrite Hsm, (Z.abs_eq (2 ^ (- e))) by lia.
      assert (H3 : 2 ^ 53 < float_int_bound) by reflexivity.
      assert (H4 : Z.pos m ÷ 2 ^ (- e) <= Z.pos m)
        by (rewrite Z.quot_div_nonneg by lia; apply Z.div_le_upper_bound; nia).
      assert (H5 : 0 <= Z.pos m ÷ 2 ^ (- e)) by (apply Z.quot_pos; lia).
      lia.
Qed.

Lemma float_of_int_returns (n : Z) :
  Z.abs n < float_int_bound ->
  float_of_int n = Returns (SF2Prim (binary_normalize prec emax n 0 false)).
Proof.
  intros H. unfold float_of_int.
  destruct (Z.ltb_spec (Z.abs n) float_int_bound); [reflexivity | lia].
Qed.

Lemma float_of_int_bound (n : Z) (x : float) :
  float_of_int n = Returns x -> Z.abs n < float_int_bound.
Proof.
  unfold float_of_int.
  destruct (Z.ltb_spec (Z.abs n) float_int_bound); [trivial | discriminate].
Qed.

(** [float / 0] raises. *)
Lemma truediv_int_nonzero (x y : float) (n : Z) :
  truediv_int x n = Returns y -> n <> 0.
Proof. intros H ->. discriminate. Qed.

(** C4, as the code has it. [int()] truncates toward zero, which is the floor
    only from zero upwards: with [cards_per_row > 0], [card_height > 0] and a
    usable height that is not negative, [_calculate_card_dimensions] yields
    [cards_per_row * floor(usable_height / card_height)] cards per page and
    the width [(page_width - margin_right - margin_left) / cards_per_row],
    and raises exactly when evaluating these formulas raises. *)
Theorem card_dimensions_formula (g : t) :
  0 < cards_per_row g ->
  (0 <? card_height g)%float = true ->
  (0 <=? usable_height g)%float = true ->
  _calculate_card_dimensions g
  = (card_width <- truediv_int (fst (page_size g) - margins_1 g - margins_3 g)%float
                     (cards_per_row g) ;;
     rows <- floor_of_float (usable_height g / card_height g)%float ;;
     Returns (card_width, cards_per_row g * rows))%py.
Proof.
  intros _ Hheight Husable. unfold _calculate_card_dimensions.
  fold (usable_height g).
  destruct (truediv_int _ (cards_per_row g)) as [card_width | e |]; try reflexivity.
  cbn [bind]. unfold truediv. rewrite (positive_not_zero _ Hheight). cbn [bind].
  rewrite int_of_float_floor; [reflexivity |].
  now apply quotient_not_negative.
Qed.

Lemma card_dimensions_formula_witness :
  _calculate_card_dimensions __init__
  = (card_width <- truediv_int
                     (fst (page_size __init__) - margins_1 __init__ - margins_3 __init__)%float
                     (cards_per_row __init__) ;;
     rows <- floor_of_float (usable_height __init__ / card_height __init__)%float ;;
     Returns (card_width, cards_per_row __init__ * rows))%py.
Proof.
  apply (card_dimensions_formula __init__); reflexivity.
Defined.

(** The default configuration gives ten cards per page, as the
    specification's example says. *)
Example default_dimensions :
  _calculate_card_dimensions __init__ = Returns (269.29133858267716%float, 10).
Proof. reflexivity. Qed.

(** C4 as stated fails when the margins exceed the page: the quotient is
    [-2.5], [int()] gives [-2] and the floor is [-3], so the two cards per
    row yield [-4] cards per page where the formula with the floor gives
    [-6]. *)
Lemma card_dimensions_truncate :
  snd top_heavy = Returns tt
  /\ 0 < cards_per_row (self (fst top_heavy))
  /\ (0 <? card_height (self (fst top_heavy)))%float = true
  /\ _calculate_card_dimensions (self (fst top_heavy)) = Returns (5%float, -4)
  /\ (rows <- floor_of_float (usable_height (self (fst top_heavy))
                              / card_height (self (fst top_heavy)))%float ;;
      Returns (cards_per_row (self (fst top_heavy)) * rows))%py = Returns (-6).
Proof.
  repeat split; reflexivity.
Qed.

(** *** Pagination *)

(** The canvas under a sequence of drawing calls. *)
Lemma draw_nil (c : Canvas) : draw c [] = c.
Proof. destruct c. unfold draw. cbn. now rewrite app_nil_r. Qed.

Lemma draw_draw (c : Canvas) (ops ops' : list canvas_op) :
  draw (draw c ops) ops' = draw c (ops ++ ops').
Proof. unfold draw. cbn. now rewrite app_assoc. Qed.

(** A loop whose every iteration only draws has drawn, at its end, what
    the iterations draw, in order. *)
Lemma for_each_draw {A : Type} (f : A -> list canvas_op)
  (body : A -> Canvas -> outcome Canvas) (l : list A) :
  (forall x c, In x l -> body x c = Returns (draw c (f x))) ->
  forall c, for_each l body c = Returns (draw c (List.concat (map f l))).
Proof.
  induction l as [| x l IH]; intros Hbody c; cbn [for_each map List.concat].
  - now rewrite draw_nil.
  - rewrite Hbody by now left. cbn [bind].
    rewrite IH by (intros; apply Hbody; now right).
    now rewrite draw_draw.
Qed.

Lemma in_range (n i : Z) : In i (range n) <-> 0 <= i < n.
Proof.
  unfold range. rewrite in_map_iff. split.
  - intros (j & <- & Hj). apply in_seq in Hj. lia.
  - intros Hi. exists (Z.to_nat i). rewrite in_seq. lia.
Qed.

Lemma length_range (n : Z) : List.length (range n) = Z.to_nat n.
Proof. unfold range. now rewrite length_map, length_seq. Qed.

Lemma nth_range (n i : Z) : 0 <= i < n -> nth (Z.to_nat i) (range n) 0 = i.
Proof.
  intros Hi. unfold range. change 0 with (Z.of_nat 0).
  rewrite map_nth, seq_nth by lia. lia.
Qed.

Lemma getitem_returns {A : Type} (l : list A) (i : Z) :
  0 <= i < len l -> exists a, getitem l i = Returns a.
Proof.
  intros Hi. unfold getitem, len in *.
  assert (Hneg : (i <? 0) = false) by now apply Z.ltb_ge.
  cbv zeta. rewrite Hneg, Hneg.
  destruct (nth_error l (Z.to_nat i)) as [a |] eqn:E; [now exists a |].
  apply nth_error_None in E. lia.
Qed.

(** Building a paragraph: the backend accepts the text or raises. *)
Lemma Paragraph_accepted (b : backend) (text : string) (style : ParagraphStyle) :
  parse_error b text style = None ->
  Paragraph b text style = Returns {| para_text := text; para_style := style |}.
Proof. intros H. unfold Paragraph. now rewrite H. Qed.

Lemma Paragraph_refused (b : backend) (text : string) (style : ParagraphStyle) (e : exn) :
  parse_error b text style = Some e -> Paragraph b text style = Raises e.
Proof. intros H. unfold Paragraph. now rewrite H. Qed.

(** Drawing a cell, when its row and column convert to floats: either the
    backend accepts the paragraphs of the face and the cell is drawn, with
    its border at the corner of the cell and the story of the entry in its
    frame, or the exception is the refusal of one of these paragraphs. *)
Lemma draw_cell_outcome (b : backend) (g : t) (card_width : float) (sd : side)
  (entry : Entry) (row col : Z) :
  Z.abs col < float_int_bound -> Z.abs (row + 1) < float_int_bound ->
  accepted b sd entry = true
  /\ draw_cell b g card_width sd entry row col = Returns (cell g card_width sd entry row col)
  \/ accepted b sd entry = false
     /\ exists e, refusal b sd entry e
                  /\ draw_cell b g card_width sd entry row col = Raises e.
Proof.
  intros Hcol Hrow. unfold draw_cell, mul_int.
  rewrite (float_of_int_returns col Hcol), (float_of_int_returns (row + 1) Hrow).
  rewrite (float_of_int_returns 2) by reflexivity.
  cbn [bind]. unfold accepted, refusal, paragraphs_of, story, cell, corner, face_story.
  destruct sd; destruct (truthy (extra entry)); destruct (truthy (index entry));
    cbn [app forallb bind];
    repeat match goal with
      | |- context [parse_error b ?text ?style] =>
          let E := fresh "E" in
          destruct (parse_error b text style) eqn:E;
          [rewrite ?(Paragraph_refused _ _ _ _ E)
          | rewrite ?(Paragraph_accepted _ _ _ E)];
          cbn [bind andb]
      end;
    first
      [ left; split; reflexivity
      | right; split; [reflexivity |]; eexists; split; [| reflexivity];
        match goal with
        | H : parse_error b ?text ?style = Some ?e |- exists _ _, _ /\ _ = Some ?e =>
            exists text, style; split; [cbn [In]; tauto | exact H]
        end ].
Qed.

Lemma draw_cell_accepted (b : backend) (g : t) (card_width : float) (sd : side)
  (entry : Entry) (row col : Z) :
  Z.abs col < float_int_bound -> Z.abs (row + 1) < float_int_bound ->
  accepted b sd entry = true ->
  draw_cell b g card_width sd entry row col = Returns (cell g card_width sd entry row col).
Proof.
  intros Hcol Hrow Haccepted.
  destruct (draw_cell_outcome b g card_width sd entry row col Hcol Hrow)
    as [[_ H] | [H _]]; [exact H | congruence].
Qed.

Lemma cell_not_empty (g : t) (card_width : float) (sd : side) (entry : Entry)
  (row col : Z) : cell g card_width sd entry row col <> [].
Proof. unfold cell. destruct (corner g card_width row col). discriminate. Qed.

(** A loop whose iterations draw or raise has drawn what they draw, in
    order, or raises what an iteration raises. *)
Lemma for_each_outcome {A : Type} (f : A -> list canvas_op) (bad : exn -> Prop)
  (body : A -> Canvas -> outcome Canvas) (l : list A) :
  (forall x c, In x l ->
     body x c = Returns (draw c (f x)) \/ exists e, bad e /\ body x c = Raises e) ->
  forall c,
    for_each l body c = Returns (draw c (List.concat (map f l)))
    \/ exists e, bad e /\ for_each l body c = Raises e.
Proof.
  induction l as [| x l IH]; intros Hbody c; cbn [for_each map List.concat].
  - left. now rewrite draw_nil.
  - destruct (Hbody x c (or_introl eq_refl)) as [-> | (e & He & ->)]; cbn [bind].
    + destruct (IH (fun y c' Hy => Hbody y c' (or_intror Hy)) (draw c (f x)))
        as [-> | (e & He & ->)].
      * left. now rewrite draw_draw.
      * right. now exists e.
    + right. now exists e.
Qed.

Lemma getitem_nth_error {A : Type} (l : list A) (i : Z) :
  0 <= i < len l ->
  exists a, nth_error l (Z.to_nat i) = Some a /\ getitem l i = Returns a /\ In a l.
Proof.
  intros Hi. unfold getitem, len in *.
  assert (Hneg : (i <? 0) = false) by now apply Z.ltb_ge.
  cbv zeta. rewrite Hneg, Hneg.
  destruct (nth_error l (Z.to_nat i)) as [a |] eqn:E.
  - exists a. repeat split. now apply nth_error_In in E.
  - apply nth_error_None in E. lia.
Qed.

Section Pagination.

Variables (b : backend) (g : t) (card_width : float) (P : Z).

Hypothesis Hcolumns : 0 < cards_per_row g.
Hypothesis Hdims : _calculate_card_dimensions g = Returns (card_width, P).
Hypothesis Hpage : 0 < P.

(** [cards_per_row] and the number of rows convert to floats. *)
Lemma dimensions_bounds :
  cards_per_row g < float_int_bound
  /\ exists rows, P = cards_per_row g * rows /\ 0 < rows < float_int_bound.
Proof.
  unfold _calculate_card_dimensions in Hdims.
  destruct (truediv_int _ (cards_per_row g)) as [w | |] eqn:Hw; try discriminate.
  cbn [bind] in Hdims.
  destruct (truediv _ (card_height g)) as [q | |]; try discriminate.
  cbn [bind] in Hdims.
  destruct (int_of_float q) as [rows | |] eqn:Hrows; try discriminate.
  cbn [bind] in Hdims. injection Hdims as _ HP.
  apply int_of_float_bound in Hrows.
  unfold truediv_int in Hw.
  destruct (float_of_int (cards_per_row g)) as [x | |] eqn:Hx; try discriminate.
  apply float_of_int_bound in Hx.
  split; [lia |]. exists rows. split; [now symmetry |]. nia.
Qed.

Lemma grid_bounds (sd : side) (i : Z) :
  0 <= i < P ->
  Z.abs (column_of g sd i) < float_int_bound
  /\ Z.abs (i / cards_per_row g + 1) < float_int_bound.
Proof.
  intros Hi. destruct dimensions_bounds as (Hc & rows & HP & Hrows).
  pose proof (Z.mod_pos_bound i (cards_per_row g) Hcolumns) as Hmod.
  assert (Hdiv : 0 <= i / cards_per_row g < rows).
  { split; [apply Z.div_pos; lia |].
    apply Z.div_lt_upper_bound; [lia |]. now rewrite <- HP. }
  split; [destruct sd; cbn [column_of] |]; lia.
Qed.

(** An iteration of a pass draws the face of its cell, the explicit
    drawing of the entry at the row and column of the cell, or raises the
    refusal of a paragraph of the entry. *)
Lemma place_outcome (sd : side) (k i : Z) (c : Canvas) :
  0 <= k -> 0 <= i < P -> k + i < len (entries g) ->
  exists entry,
    nth_error (entries g) (Z.to_nat (k + i)) = Some entry
    /\ face g card_width sd k i
       = cell g card_width sd entry (i / cards_per_row g) (column_of g sd i)
    /\ (accepted b sd entry = true
        /\ place b g card_width sd k i c = Returns (draw c (face g card_width sd k i))
        \/ accepted b sd entry = false
           /\ exists e, refused b g e /\ place b g card_width sd k i c = Raises e).
Proof.
  intros Hk Hi Hlen.
  destruct (getitem_nth_error (entries g) (k + i)) as (entry & Hnth & Hentry & Hin);
    [lia |].
  destruct (grid_bounds sd i Hi) as [Hcol Hrow].
  exists entry. split; [exact Hnth |].
  assert (Hface : face g card_width sd k i
                  = cell g card_width sd entry (i / cards_per_row g) (column_of g sd i))
    by (unfold face; now rewrite Hnth).
  split; [exact Hface |].
  unfold place, floordiv, column, mod_. rewrite Hentry. cbn [bind].
  destruct (Z.eqb_spec (cards_per_row g) 0) as [E | _]; [lia |]. cbn [bind].
  replace (match sd with Front => _ | Back => _ end) with (column_of g sd i)
    by now destruct sd.
  destruct (draw_cell_outcome b g card_width sd entry _ _ Hcol Hrow)
    as [[Hacc ->] | (Hacc & e & He & ->)]; cbn [bind].
  - left. now rewrite Hface.
  - right. split; [exact Hacc |]. exists e. split; [| reflexivity]. now exists sd, entry.
Qed.

(** A pass draws the page of its group or raises such a refusal. *)
Lemma pass_outcome (sd : side) (k n : Z) (c : Canvas) :
  0 <= k -> n <= P -> k + n <= len (entries g) ->
  for_each (range n) (place b g card_width sd k) c
  = Returns (draw c (group_page g card_width sd k n))
  \/ exists e, refused b g e
               /\ for_each (range n) (place b g card_width sd k) c = Raises e.
Proof.
  intros Hk Hn Hlen. apply for_each_outcome.
  intros i c' Hi. apply in_range in Hi.
  destruct (place_outcome sd k i c') as (entry & _ & _ & [[_ H] | (_ & e & He & H)]);
    try lia; [now left | right; now exists e].
Qed.

(** **** The [while] loop *)

Lemma groups_left_done (k : Z) : len (entries g) <= k -> groups_left g P k = 0%nat.
Proof.
  intros Hk. unfold groups_left.
  assert ((len (entries g) - k + P - 1) / P <= 0); [| lia].
  apply Z.lt_succ_r, Z.div_lt_upper_bound; lia.
Qed.

Lemma groups_left_step (k : Z) :
  k < len (entries g) ->
  groups_left g P k = S (groups_left g P (k + Z.min P (len (entries g) - k))).
Proof.
  intros Hk. unfold groups_left.
  set (a := len (entries g) - k).
  assert (Hrest : (len (entries g) - (k + Z.min P a) + P - 1) / P = (a - 1) / P).
  { destruct (Z.min_spec P a) as [[Hlt ->] | [Hle ->]].
    - f_equal. lia.
    - replace (len (entries g) - (k + a) + P - 1) with (P - 1) by lia.
      now rewrite (Z.div_small (P - 1)), (Z.div_small (a - 1)) by lia. }
  rewrite Hrest.
  replace (a + P - 1) with (a - 1 + 1 * P) by ring.
  rewrite Z.div_add by lia.
  assert (Hq : 0 <= (a - 1) / P) by (apply Z.div_pos; lia).
  rewrite Z.add_1_r. now apply Z2Nat.inj_succ.
Qed.

(** An iteration of the loop draws the two pages of its group, or raises
    the refusal of a paragraph. *)
Lemma page_group_outcome (c0 : Canvas) (k : Z) :
  0 <= k < len (entries g) ->
  let n := Z.min P (len (entries g) - k) in
  let c3 := draw (showPage (draw c0 (group_page g card_width Front k n)))
              (group_page g card_width Back k n) in
  page_group b g card_width P (len (entries g)) {| c := c0; cards_processed := k |}
  = Returns {| c := if k + n <? len (entries g) then showPage c3 else c3;
               cards_processed := k + n |}
  \/ exists e, refused b g e
               /\ page_group b g card_width P (len (entries g))
                    {| c := c0; cards_processed := k |} = Raises e.
Proof.
  intros Hk n c3. unfold page_group. cbn [c cards_processed]. fold n.
  destruct (pass_outcome Front k n c0) as [-> | (e & He & ->)]; try lia; cbn [bind];
    [| right; now exists e].
  destruct (pass_outcome Back k n
              (showPage (draw c0 (group_page g card_width Front k n))))
    as [-> | (e & He & ->)]; try lia; cbn [bind]; [now left | right; now exists e].
Qed.

(** The loop raises nothing but such a refusal. *)
Lemma loop_raises (fuel : nat) :
  forall (k : Z) (c0 : Canvas) (e : exn),
    0 <= k ->
    loop b g card_width P fuel {| c := c0; cards_processed := k |} = Raises e ->
    refused b g e.
Proof.
  unfold loop. induction fuel as [| fuel IH]; intros k c0 e Hk; cbn [while cards_processed];
    destruct (Z.ltb_spec k (len (entries g))) as [Hmore | Hdone]; try discriminate.
  destruct (page_group_outcome c0 k ltac:(lia)) as [-> | (e' & He' & ->)]; cbn [bind].
  - apply IH. lia.
  - now intros [= <-].
Qed.

(** The loop returns the canvas of the file it started with. *)
Lemma loop_filename (fuel : nat) :
  forall (k : Z) (c0 : Canvas) (v : loop_vars),
    0 <= k ->
    loop b g card_width P fuel {| c := c0; cards_processed := k |} = Returns v ->
    canvas_filename (c v) = canvas_filename c0.
Proof.
  unfold loop. induction fuel as [| fuel IH]; intros k c0 v Hk; cbn [while cards_processed];
    destruct (Z.ltb_spec k (len (entries g))) as [Hmore | Hdone]; try discriminate;
    try (now intros [= <-]).
  destruct (page_group_outcome c0 k ltac:(lia)) as [-> | (e' & He' & ->)]; cbn [bind];
    [| discriminate].
  intros Hv. apply IH in Hv; [| lia]. rewrite Hv.
  now destruct (_ <? _).
Qed.

(** What [render] raises is the refusal of a paragraph, and the canvas it
    returns is that of the file of the generator. *)
Lemma render_outcome (fuel : nat) :
  match render b fuel g with
  | Returns canvas => canvas_filename canvas = filename g
  | Raises e => refused b g e
  | OutOfFuel => True
  end.
Proof.
  unfold render. rewrite Hdims. cbn [bind]. unfold floordiv.
  destruct (Z.eqb_spec (cards_per_row g) 0) as [E | _]; [lia |]. cbn [bind].
  pose proof (loop_filename fuel 0 (new_canvas (filename g) (page_size g))) as Hname.
  pose proof (loop_raises fuel 0 (new_canvas (filename g) (page_size g))) as Hraise.
  unfold loop in Hname, Hraise.
  destruct (while fuel _ _ _) as [v | e |]; cbn [bind].
  - now apply Hname.
  - now apply Hraise.
  - exact I.
Qed.

Lemma saved_blank (c0 : Canvas) :
  canvas_code c0 = [] ->
  saved c0 = (canvas_filename c0,
              {| doc_pagesize := canvas_pagesize c0; doc_pages := canvas_pages c0 |}).
Proof. intros H. unfold saved. now rewrite H. Qed.

Lemma saved_pending (c0 : Canvas) :
  canvas_code c0 <> [] ->
  saved c0 = (canvas_filename c0,
              {| doc_pagesize := canvas_pagesize c0;
                 doc_pages := canvas_pages c0 ++ [canvas_code c0] |}).
Proof.
  intros H. unfold saved. destruct (canvas_code c0) eqn:E; [congruence |].
  cbn. now rewrite E.
Qed.

Lemma length_sheets (count : nat) (k : Z) :
  List.length (sheets g card_width P count k) = (2 * count)%nat.
Proof.
  revert k. induction count as [| count IH]; intros k; cbn [sheets List.length];
    [reflexivity | rewrite IH; lia].
Qed.

(** Group [j] of the groups left at [k] starts [j * P] entries further:
    the groups before it are full. *)
Lemma nth_sheets (j : nat) :
  forall (count : nat) (k : Z),
    0 <= k -> groups_left g P k = count -> (j < count)%nat ->
    let k' := k + Z.of_nat j * P in
    let n := Z.min P (len (entries g) - k') in
    k' < len (entries g)
    /\ nth_error (sheets g card_width P count k) (2 * j)
       = Some (group_page g card_width Front k' n)
    /\ nth_error (sheets g card_width P count k) (2 * j + 1)
       = Some (group_page g card_width Back k' n).
Proof.
  induction j as [| j IH]; intros count k Hk Hgroups Hj;
    destruct count as [| count]; try lia.
  - assert (Hmore : k < len (entries g)).
    { destruct (Z.le_gt_cases (len (entries g)) k) as [H | H]; [| lia].
      rewrite groups_left_done in Hgroups by lia. discriminate. }
    cbn [sheets Z.of_nat Nat.mul Nat.add nth_error]. rewrite Z.mul_0_l, Z.add_0_r.
    now repeat split.
  - assert (Hmore : k < len (entries g)).
    { destruct (Z.le_gt_cases (len (entries g)) k) as [H | H]; [| lia].
      rewrite groups_left_done in Hgroups by lia. discriminate. }
    rewrite groups_left_step in Hgroups by lia. injection Hgroups as Hgroups.
    assert (Hfull : Z.min P (len (entries g) - k) = P).
    { destruct (Z.min_spec P (len (entries g) - k)) as [[_ E] | [Hle E]]; [exact E |].
      rewrite E in Hgroups. rewrite groups_left_done in Hgroups by lia. lia. }
    rewrite Hfull in Hgroups.
    destruct (IH count (k + P) ltac:(lia) Hgroups ltac:(lia)) as (Hlt & Hfront & Hback).
    replace (k + Z.of_nat (S j) * P) with (k + P + Z.of_nat j * P) by lia.
    replace (2 * S j)%nat with (S (S (2 * j))) by lia.
    cbn [sheets nth_error Nat.add]. rewrite Hfull. now repeat split.
Qed.

(** The cells of a group page: one drawing per entry of the group, each
    the drawing of its entry at the row and column of its index within the
    group. *)
Lemma group_page_cells (sd : side) (k n : Z) :
  0 <= k -> 0 <= n <= P -> k + n <= len (entries g) ->
  exists cells,
    group_page g card_width sd k n = List.concat cells
    /\ len cells = n
    /\ forall i, 0 <= i < n ->
         exists entry,
           nth_error (entries g) (Z.to_nat (k + i)) = Some entry
           /\ nth (Z.to_nat i) cells []
              = cell g card_width sd entry (i / cards_per_row g) (column_of g sd i).
Proof.
  intros Hk Hn Hlen. exists (map (face g card_width sd k) (range n)).
  split; [reflexivity | split].
  - unfold len. rewrite length_map, length_range. lia.
  - intros i Hi.
    rewrite (nth_indep _ [] (face g card_width sd k 0))
      by (rewrite length_map, length_range; lia).
    rewrite map_nth, nth_range by lia.
    destruct (getitem_nth_error (entries g) (k + i)) as (entry & Hnth & _ & _); [lia |].
    exists entry. split; [exact Hnth |]. unfold face. now rewrite Hnth.
Qed.

Lemma group_page_not_empty (sd : side) (k n : Z) :
  0 <= k -> 0 < n <= P -> k + n <= len (entries g) -> group_page g card_width sd k n <> [].
Proof.
  intros Hk Hn Hlen. unfold group_page, range.
  destruct (Z.to_nat n) as [| m] eqn:E; [lia |].
  cbn [seq map List.concat]. intros H. apply app_eq_nil in H as [H _].
  revert H. unfold face.
  destruct (getitem_nth_error (entries g) (k + Z.of_nat 0)) as (entry & -> & _ & _);
    [cbn; lia |].
  apply cell_not_empty.
Qed.

Lemma groups_ceil : Z.of_nat (groups g P) = (len (entries g) + P - 1) / P.
Proof.
  unfold groups, groups_left. rewrite Z.sub_0_r. apply Z2Nat.id.
  apply Z.div_pos; unfold len; lia.
Qed.

(** The two pages of group [j], cell by cell. *)
Lemma group_layout (j : Z) :
  0 <= j < Z.of_nat (groups g P) ->
  let n := Z.min P (len (entries g) - j * P) in
  exists fronts backs,
    nth_error (doc_pages (document g card_width P)) (Z.to_nat (2 * j))
    = Some (List.concat fronts)
    /\ nth_error (doc_pages (document g card_width P)) (Z.to_nat (2 * j + 1))
       = Some (List.concat backs)
    /\ 0 < n /\ len fronts = n /\ len backs = n
    /\ forall i, 0 <= i < n ->
         exists entry,
           nth_error (entries g) (Z.to_nat (j * P + i)) = Some entry
           /\ nth (Z.to_nat i) fronts []
              = cell g card_width Front entry
                  (i / cards_per_row g) (i mod cards_per_row g)
           /\ nth (Z.to_nat i) backs []
              = cell g card_width Back entry
                  (i / cards_per_row g) (cards_per_row g - 1 - i mod cards_per_row g).
Proof.
  intros Hj n.
  destruct (nth_sheets (Z.to_nat j) (groups g P) 0 ltac:(lia) eq_refl ltac:(lia))
    as (Hlt & Hfront & Hback).
  rewrite Z2Nat.id, Z.add_0_l in Hlt, Hfront, Hback by lia.
  fold n in Hfront, Hback.
  assert (Hn : 0 < n <= P /\ j * P + n <= len (entries g)) by (subst n; lia).
  destruct (group_page_cells Front (j * P) n) as (fronts & Ef & Hlf & Hf); try lia.
  destruct (group_page_cells Back (j * P) n) as (backs & Eb & Hlb & Hb); try lia.
  exists fronts, backs. unfold document. cbn [doc_pages].
  replace (Z.to_nat (2 * j)) with (2 * Z.to_nat j)%nat by lia.
  replace (Z.to_nat (2 * j + 1)) with (2 * Z.to_nat j + 1)%nat by lia.
  rewrite <- Ef, <- Eb. repeat split; try assumption; try lia.
  intros i Hi. destruct (Hf i Hi) as (entry & Hentry & Hdraw).
  destruct (Hb i Hi) as (entry' & Hentry' & Hdraw').
  exists entry. rewrite Hentry in Hentry'. injection Hentry' as <-.
  now repeat split.
Qed.

(** **** A backend that accepts the paragraphs *)

Section Legible.

Hypothesis Hlegible : legible b g = true.

Lemma legible_accepted (sd : side) (entry : Entry) :
  In entry (entries g) -> accepted b sd entry = true.
Proof.
  intros Hin. unfold legible in Hlegible. rewrite forallb_forall in Hlegible.
  apply Hlegible in Hin. apply andb_prop in Hin. now destruct sd.
Qed.

Lemma place_face (sd : side) (k i : Z) (c : Canvas) :
  0 <= k -> 0 <= i < P -> k + i < len (entries g) ->
  place b g card_width sd k i c = Returns (draw c (face g card_width sd k i)).
Proof.
  intros Hk Hi Hlen.
  destruct (place_outcome sd k i c Hk Hi Hlen)
    as (entry & Hnth & _ & [[_ H] | [Hacc _]]); [exact H |].
  rewrite legible_accepted in Hacc; [discriminate |]. now apply nth_error_In in Hnth.
Qed.

Lemma pass_draws (sd : side) (k n : Z) (c : Canvas) :
  0 <= k -> n <= P -> k + n <= len (entries g) ->
  for_each (range n) (place b g card_width sd k) c
  = Returns (draw c (group_page g card_width sd k n)).
Proof.
  intros Hk Hn Hlen. apply for_each_draw.
  intros i c' Hi. apply in_range in Hi. apply place_face; lia.
Qed.

Lemma page_group_step (c0 : Canvas) (k : Z) :
  0 <= k < len (entries g) ->
  let n := Z.min P (len (entries g) - k) in
  let c3 := draw (showPage (draw c0 (group_page g card_width Front k n)))
              (group_page g card_width Back k n) in
  page_group b g card_width P (len (entries g)) {| c := c0; cards_processed := k |}
  = Returns {| c := if k + n <? len (entries g) then showPage c3 else c3;
               cards_processed := k + n |}.
Proof.
  intros Hk n c3. unfold page_group. cbn [c cards_processed]. fold n.
  rewrite pass_draws by lia. cbn [bind].
  rewrite pass_draws by lia. reflexivity.
Qed.

(** The loop runs one iteration per group: with fuel for all of them it
    ends with a canvas that saves the sheets after the pages it started
    with, and with less it is still running when the fuel is gone. *)
Lemma loop_runs (count : nat) :
  forall (k : Z) (c0 : Canvas) (fuel : nat),
    0 <= k -> groups_left g P k = count -> canvas_code c0 = [] ->
    if (count <=? fuel)%nat
    then exists v,
        loop b g card_width P fuel {| c := c0; cards_processed := k |} = Returns v
        /\ saved (c v)
           = (canvas_filename c0,
              {| doc_pagesize := canvas_pagesize c0;
                 doc_pages := canvas_pages c0 ++ sheets g card_width P count k |})
    else loop b g card_width P fuel {| c := c0; cards_processed := k |} = OutOfFuel.
Proof.
  induction count as [| count IH]; intros k c0 fuel Hk Hgroups Hcode.
  - assert (Hdone : len (entries g) <= k).
    { destruct (Z.le_gt_cases (len (entries g)) k) as [H | H]; [exact H |].
      rewrite groups_left_step in Hgroups by lia. discriminate. }
    cbn [Nat.leb sheets]. exists {| c := c0; cards_processed := k |}.
    split.
    + unfold loop. destruct fuel; cbn [while cards_processed];
        destruct (Z.ltb_spec k (len (entries g))); (lia || reflexivity).
    + cbn [c]. rewrite app_nil_r. now apply saved_blank.
  - assert (Hmore : k < len (entries g)).
    { destruct (Z.le_gt_cases (len (entries g)) k) as [H | H]; [| lia].
      rewrite groups_left_done in Hgroups by lia. discriminate. }
    rewrite groups_left_step in Hgroups by lia. injection Hgroups as Hgroups.
    assert (Hcond : (k <? len (entries g)) = true) by now apply Z.ltb_lt.
    destruct fuel as [| fuel].
    { cbn [Nat.leb]. unfold loop. cbn [while cards_processed]. now rewrite Hcond. }
    cbn [Nat.leb]. unfold loop. cbn [while cards_processed]. rewrite Hcond.
    rewrite page_group_step by lia. cbn [bind].
    set (n := Z.min P (len (entries g) - k)) in *.
    assert (Hn : 0 < n <= P /\ k + n <= len (entries g)) by (subst n; lia).
    destruct (Z.ltb_spec (k + n) (len (entries g))) as [Hnext | Hlast].
    + specialize (IH (k + n)
                    (showPage (draw (showPage (draw c0 (group_page g card_width Front k n)))
                                 (group_page g card_width Back k n)))
                    fuel ltac:(lia) Hgroups eq_refl).
      unfold loop in IH. destruct (Nat.leb count fuel); [| exact IH].
      destruct IH as (v & Hv & Hsave). exists v. split; [exact Hv |].
      rewrite Hsave. cbn [showPage draw canvas_filename canvas_pagesize canvas_pages
                            canvas_code sheets].
      fold n. rewrite Hcode. cbn [app]. now rewrite <- !app_assoc.
    + assert (Hgroups0 : count = 0%nat)
        by (rewrite <- Hgroups; apply groups_left_done; lia).
      clear Hgroups IH. subst count. cbn [Nat.leb].
      exists {| c := draw (showPage (draw c0 (group_page g card_width Front k n)))
                       (group_page g card_width Back k n);
                cards_processed := k + n |}.
      split.
      * unfold loop. destruct fuel; cbn [while cards_processed];
          destruct (Z.ltb_spec (k + n) (len (entries g))); (lia || reflexivity).
      * cbn [c]. rewrite saved_pending.
        -- cbn [showPage draw canvas_filename canvas_pagesize canvas_pages
                  canvas_code sheets].
           fold n. rewrite Hcode. cbn [app]. now rewrite <- !app_assoc.
        -- cbn [showPage draw canvas_code app]. apply group_page_not_empty; lia.
Qed.

(** **** [render] and [generate] *)

Lemma render_runs (fuel : nat) :
  if (groups g P <=? fuel)%nat
  then exists canvas,
      render b fuel g = Returns canvas
      /\ saved canvas = (filename g, (document g card_width P))
  else render b fuel g = OutOfFuel.
Proof.
  pose proof (loop_runs (groups g P) 0 (new_canvas (filename g) (page_size g)) fuel
                ltac:(lia) eq_refl eq_refl) as Hloop.
  unfold render. rewrite Hdims. cbn [bind]. unfold floordiv.
  destruct (Z.eqb_spec (cards_per_row g) 0) as [E | _]; [lia |]. cbn [bind].
  unfold loop in Hloop. destruct (Nat.leb (groups g P) fuel).
  - destruct Hloop as (v & -> & Hsave). cbn [bind]. now exists (c v).
  - now rewrite Hloop.
Qed.

(** With fuel for every group, [generate] writes the document and prints
    its report when the backend can open the file, and raises what the
    backend raises, with nothing written or printed, when it cannot. *)
Lemma generate_runs (fuel : nat) (w : world) :
  self w = g -> entries g <> [] ->
  generate b fuel w
  = if (groups g P <=? fuel)%nat
    then match open_error b (filename g) with
         | None => (written w (document g card_width P), Returns tt)
         | Some e => (w, Raises e)
         end
    else (w, OutOfFuel).
Proof.
  intros Hself Hentries. unfold generate, bindM at 1, get. rewrite Hself.
  destruct (entries g) as [| entry rest] eqn:E; [congruence |]. rewrite <- E.
  unfold bindM at 1, lift.
  pose proof (render_runs fuel) as Hrender. destruct (Nat.leb (groups g P) fuel).
  - destruct Hrender as (canvas & -> & Hsaved).
    unfold bindM at 1, save_canvas, save. fold (saved canvas).
    assert (Hname : canvas_filename
                      match canvas_code canvas with
                      | [] => canvas
                      | _ :: _ => showPage canvas
                      end = filename g).
    { unfold saved in Hsaved. now injection Hsaved. }
    rewrite Hname. destruct (open_error b (filename g)); [reflexivity |].
    rewrite Hsaved. unfold bindM, print, written, report. cbn [self stdout files].
    rewrite Hself. now rewrite <- app_assoc.
  - now rewrite Hrender.
Qed.

End Legible.

End Pagination.

(** *** What the pages hold *)

Lemma rects_app (p1 p2 : page) : rects (p1 ++ p2) = (rects p1 + rects p2)%nat.
Proof. unfold rects. now rewrite filter_app, length_app. Qed.

Lemma state_stack_app (p1 p2 : page) :
  forall depth,
    state_stack depth (p1 ++ p2)
    = match state_stack depth p1 with
      | Some depth' => state_stack depth' p2
      | None => None
      end.
Proof.
  induction p1 as [| op p1 IH]; intros depth; [reflexivity |].
  destruct op; cbn [app state_stack]; try apply IH.
  destruct depth; [reflexivity | apply IH].
Qed.

(** A cell is one border and one story, and restores the graphics state it
    saves. *)
Lemma cell_calls (g : t) (card_width : float) (sd : side) (entry : Entry) (row col : Z) :
  rects (cell g card_width sd entry row col) = 1%nat
  /\ card_stories (cell g card_width sd entry row col) = [face_story sd entry]
  /\ forall depth, state_stack depth (cell g card_width sd entry row col) = Some depth.
Proof.
  unfold cell. destruct (corner g card_width row col) as [x0 y0].
  destruct (truthy (index entry)); repeat split; reflexivity.
Qed.

Lemma concat_calls {A : Type} (f : A -> page) (l : list A) :
  (forall x, In x l -> rects (f x) = 1%nat /\ forall depth, state_stack depth (f x) = Some depth) ->
  rects (List.concat (map f l)) = List.length l
  /\ forall depth, state_stack depth (List.concat (map f l)) = Some depth.
Proof.
  induction l as [| x l IH]; intros Hl; [split; reflexivity |].
  destruct (Hl x (or_introl eq_refl)) as [Hrect Hstack].
  destruct IH as [IHrect IHstack]; [intros y Hy; apply Hl; now right |].
  cbn [map List.concat List.length]. split.
  - now rewrite rects_app, Hrect, IHrect.
  - intros depth. now rewrite state_stack_app, Hstack.
Qed.

Lemma card_stories_app (p1 p2 : page) :
  card_stories (p1 ++ p2) = card_stories p1 ++ card_stories p2.
Proof. unfold card_stories. apply flat_map_app. Qed.

(** The elements of a list from position [k] on, read by index. *)
Lemma flat_map_nth_error {A B : Type} (f : A -> B) (l : list A) :
  forall n : nat,
    (n <= List.length l)%nat ->
    flat_map (fun i => match nth_error l i with Some x => [f x] | None => [] end) (seq 0 n)
    = map f (firstn n l).
Proof.
  induction l as [| x l IH]; intros n Hn.
  - cbn in Hn. replace n with 0%nat by lia. reflexivity.
  - destruct n as [| n]; [reflexivity |]. cbn [List.length] in Hn.
    cbn [seq flat_map nth_error firstn map app]. f_equal.
    rewrite <- seq_shift, flat_map_concat_map, map_map, <- flat_map_concat_map.
    cbn [nth_error]. apply IH. lia.
Qed.

Section Sheets.

Variables (g : t) (card_width : float) (P : Z).

Hypothesis Hpage : 0 < P.

Lemma group_page_calls (sd : side) (k n : Z) :
  0 <= k -> n <= P -> k + n <= len (entries g) ->
  rects (group_page g card_width sd k n) = Z.to_nat n
  /\ forall depth, state_stack depth (group_page g card_width sd k n) = Some depth.
Proof.
  intros Hk Hn Hlen. unfold group_page. rewrite <- (length_range n).
  apply concat_calls. intros i Hi. apply in_range in Hi. unfold face.
  destruct (getitem_nth_error (entries g) (k + i)) as (entry & -> & _ & _); [lia |].
  destruct (cell_calls g card_width sd entry (i / cards_per_row g) (column_of g sd i))
    as (Hrects & _ & Hstack).
  now split.
Qed.

(** The stories of a group page are those of the entries of the group, in
    order. *)
Lemma group_page_stories (sd : side) (k n : Z) :
  0 <= k -> 0 <= n -> k + n <= len (entries g) ->
  card_stories (group_page g card_width sd k n)
  = map (face_story sd) (firstn (Z.to_nat n) (skipn (Z.to_nat k) (entries g))).
Proof.
  intros Hk Hn Hlen. unfold group_page, range.
  rewrite <- (flat_map_nth_error (face_story sd))
    by (rewrite length_skipn; unfold len in Hlen; lia).
  generalize (seq 0 (Z.to_nat n)). intros l.
  induction l as [| i l IH]; [reflexivity |].
  cbn [map List.concat flat_map]. rewrite card_stories_app, IH. f_equal.
  unfold face. replace (Z.to_nat (k + Z.of_nat i)) with (Z.to_nat k + i)%nat by lia.
  rewrite nth_error_skipn.
  destruct (nth_error (entries g) (Z.to_nat k + i)) as [entry |]; [| reflexivity].
  apply cell_calls.
Qed.

(** Every page of the sheets is the page of one pass over one group. *)
Lemma sheets_pages (count : nat) :
  forall k, 0 <= k -> groups_left g P k = count ->
    forall p, In p (sheets g card_width P count k) ->
      exists sd k' n,
        p = group_page g card_width sd k' n
        /\ 0 <= k' /\ 0 < n <= P /\ k' + n <= len (entries g).
Proof.
  induction count as [| count IH]; intros k Hk Hcount p Hp; [contradiction |].
  assert (Hmore : k < len (entries g)).
  { destruct (Z.le_gt_cases (len (entries g)) k) as [H | H]; [| lia].
    rewrite (groups_left_done g P Hpage) in Hcount by lia. discriminate. }
  rewrite (groups_left_step g P Hpage) in Hcount by lia. injection Hcount as Hcount.
  cbn [sheets] in Hp. set (n := Z.min P (len (entries g) - k)) in *.
  destruct Hp as [<- | [<- | Hp]].
  - exists Front, k, n. subst n. repeat split; lia.
  - exists Back, k, n. subst n. repeat split; lia.
  - apply (IH (k + n)); [subst n; lia | exact Hcount | exact Hp].
Qed.

(** Read in order, the front pages of the sheets from entry [k] on hold
    the front stories of the entries from [k] on, and the back pages their
    back stories. *)
Lemma sheets_stories (count : nat) :
  forall k, 0 <= k <= len (entries g) -> groups_left g P k = count ->
    flat_map card_stories (fronts_of (sheets g card_width P count k))
    = map (face_story Front) (skipn (Z.to_nat k) (entries g))
    /\ flat_map card_stories (backs_of (sheets g card_width P count k))
       = map (face_story Back) (skipn (Z.to_nat k) (entries g)).
Proof.
  induction count as [| count IH]; intros k Hk Hcount.
  - assert (Hdone : len (entries g) <= k).
    { destruct (Z.le_gt_cases (len (entries g)) k) as [H | H]; [exact H |].
      rewrite (groups_left_step g P Hpage) in Hcount by lia. discriminate. }
    rewrite skipn_all2 by (unfold len in Hdone; lia). split; reflexivity.
  - assert (Hmore : k < len (entries g)).
    { destruct (Z.le_gt_cases (len (entries g)) k) as [H | H]; [| lia].
      rewrite (groups_left_done g P Hpage) in Hcount by lia. discriminate. }
    rewrite (groups_left_step g P Hpage) in Hcount by lia. injection Hcount as Hcount.
    cbn [sheets fronts_of backs_of flat_map].
    set (n := Z.min P (len (entries g) - k)) in *.
    destruct (IH (k + n) ltac:(subst n; lia) Hcount) as [IHfront IHback].
    fold (backs_of (sheets g card_width P count (k + n))).
    rewrite IHfront, IHback, !group_page_stories by (subst n; lia).
    rewrite <- !map_app.
    replace (Z.to_nat (k + n)) with (Z.to_nat n + Z.to_nat k)%nat by (subst n; lia).
    rewrite <- skipn_skipn, firstn_skipn. split; reflexivity.
Qed.

End Sheets.

(** *** The pages of the document *)

(** C2. With at least one entry, [cards_per_row > 0], a derived
    [cards_per_page] [P > 0] and a backend that accepts the paragraphs of
    the entries and can open the file, the loop of [generate] makes
    exactly [ceil(N / P)] iterations (with less fuel it is still running,
    with that much it returns), and the document written has
    [2 * ceil(N / P)] pages: for each group [j], page [2j] holds the
    borders of the [min(P, N - j * P)] cards of the group, at least one,
    and page [2j + 1] as many. *)
Theorem page_count (b : backend) (w : world) (card_width : float) (P : Z) (fuel : nat) :
  entries (self w) <> [] ->
  0 < cards_per_row (self w) ->
  _calculate_card_dimensions (self w) = Returns (card_width, P) ->
  0 < P ->
  legible b (self w) = true ->
  writable b (self w) = true ->
  let N := len (entries (self w)) in
  let group_count := (N + P - 1) / P in
  (Z.of_nat fuel < group_count -> generate b fuel w = (w, OutOfFuel))
  /\ (group_count <= Z.of_nat fuel ->
      exists doc,
        generate b fuel w = (written w doc, Returns tt)
        /\ len (doc_pages doc) = 2 * group_count
        /\ forall j, 0 <= j < group_count ->
             let n := Z.min P (N - j * P) in
             exists front back,
               nth_error (doc_pages doc) (Z.to_nat (2 * j)) = Some front
               /\ nth_error (doc_pages doc) (Z.to_nat (2 * j + 1)) = Some back
               /\ 0 < n
               /\ Z.of_nat (rects front) = n
               /\ Z.of_nat (rects back) = n).
Proof.
  intros Hentries Hcolumns Hdims Hpage Hlegible Hwritable N total.
  pose proof (generate_runs _ _ _ _ Hcolumns Hdims Hpage Hlegible fuel w eq_refl Hentries)
    as Hrun.
  unfold writable in Hwritable.
  destruct (open_error b (filename (self w))); [discriminate |].
  pose proof (groups_ceil (self w) P Hpage) as Hceil. fold N in Hceil. fold total in Hceil.
  split; intros Hfuel.
  - rewrite Hrun. destruct (Nat.leb_spec (groups (self w) P) fuel); [lia | reflexivity].
  - exists (document (self w) card_width P). split; [| split].
    + rewrite Hrun. destruct (Nat.leb_spec (groups (self w) P) fuel); [reflexivity | lia].
    + unfold len, document. cbn [doc_pages]. rewrite length_sheets. lia.
    + intros j Hj n.
      destruct (nth_sheets (self w) card_width P Hpage (Z.to_nat j) (groups (self w) P) 0
                  ltac:(lia) eq_refl ltac:(lia)) as (Hlt & Hfront & Hback).
      rewrite Z2Nat.id, Z.add_0_l in Hlt, Hfront, Hback by lia.
      fold N in Hlt, Hfront, Hback. fold n in Hfront, Hback.
      exists (group_page (self w) card_width Front (j * P) n),
             (group_page (self w) card_width Back (j * P) n).
      unfold document. cbn [doc_pages].
      replace (Z.to_nat (2 * j)) with (2 * Z.to_nat j)%nat by lia.
      replace (Z.to_nat (2 * j + 1)) with (2 * Z.to_nat j + 1)%nat by lia.
      destruct (group_page_calls (self w) card_width P Front (j * P) n) as [-> _];
        [subst n; lia .. |].
      destruct (group_page_calls (self w) card_width P Back (j * P) n) as [-> _];
        [subst n; lia .. |].
      repeat split; try assumption; subst n; lia.
Qed.

Lemma page_count_witness :
  exists doc,
    generate nesting 3 example23 = (written example23 doc, Returns tt)
    /\ len (doc_pages doc) = 6.
Proof.
  destruct (page_count nesting example23 269.29133858267716%float 10 3) as [_ Hrun].
  - discriminate.
  - reflexivity.
  - reflexivity.
  - reflexivity.
  - reflexivity.
  - reflexivity.
  - destruct Hrun as (doc & Hdoc & Hlen & _); [vm_compute; discriminate |].
    exists doc. split; [exact Hdoc | exact Hlen].
Defined.

(** C2 as stated fails on an entry list the backend refuses: the one card
    ["***a***"] is translated to tags that cross, [Paragraph] raises in the
    front pass of the only group, and [generate] raises with no document
    written, though the entry list is not empty and ten cards fit a
    page. *)
Lemma page_count_refused :
  entries (self (holding [card_with_front "***a***"])) <> []
  /\ _calculate_card_dimensions (self (holding [card_with_front "***a***"]))
     = Returns (269.29133858267716%float, 10)
  /\ _parse_markdown "***a***" = "<b><i>a</b></i>"
  /\ exists msg,
       generate nesting 1 (holding [card_with_front "***a***"])
       = (holding [card_with_front "***a***"], Raises (ValueError msg)).
Proof.
  split; [discriminate | split; [reflexivity | split; [reflexivity |]]].
  eexists. vm_compute. reflexivity.
Qed.

(** C1. In the document [generate] writes, page [2j] holds the front
    faces and page [2j + 1] the back faces of group [j], one drawing per
    entry in order; the entry of within-group index [i] is drawn on the
    front in the cell at row [i div cards_per_row], column [i mod
    cards_per_row], and on the back in the cell at the same row, column
    [cards_per_row - 1 - (i mod cards_per_row)]: its border has its corner
    that many card widths right of the left margin and [row + 1] card
    heights below the top margin, and its frame holds the original on the
    front and the translation on the back. *)
Theorem mirrored_placement (b : backend) (w : world) (card_width : float) (P : Z)
  (fuel : nat) (j : Z) :
  entries (self w) <> [] ->
  0 < cards_per_row (self w) ->
  _calculate_card_dimensions (self w) = Returns (card_width, P) ->
  0 < P ->
  legible b (self w) = true ->
  writable b (self w) = true ->
  let N := len (entries (self w)) in
  (N + P - 1) / P <= Z.of_nat fuel ->
  0 <= j < (N + P - 1) / P ->
  let columns := cards_per_row (self w) in
  let n := Z.min P (N - j * P) in
  exists doc fronts backs,
    generate b fuel w = (written w doc, Returns tt)
    /\ nth_error (doc_pages doc) (Z.to_nat (2 * j)) = Some (List.concat fronts)
    /\ nth_error (doc_pages doc) (Z.to_nat (2 * j + 1)) = Some (List.concat backs)
    /\ 0 < n /\ len fronts = n /\ len backs = n
    /\ forall i, 0 <= i < n ->
         exists entry,
           nth_error (entries (self w)) (Z.to_nat (j * P + i)) = Some entry
           /\ nth (Z.to_nat i) fronts []
              = cell (self w) card_width Front entry (i / columns) (i mod columns)
           /\ nth (Z.to_nat i) backs []
              = cell (self w) card_width Back entry
                  (i / columns) (columns - 1 - i mod columns).
Proof.
  intros Hentries Hcolumns Hdims Hpage Hlegible Hwritable N Hfuel Hj columns n.
  pose proof (generate_runs _ _ _ _ Hcolumns Hdims Hpage Hlegible fuel w eq_refl Hentries)
    as Hrun.
  unfold writable in Hwritable.
  destruct (open_error b (filename (self w))); [discriminate |].
  pose proof (groups_ceil (self w) P Hpage) as Hceil. fold N in Hceil.
  destruct (group_layout (self w) card_width P Hpage j ltac:(lia))
    as (fronts & backs & Hlayout).
  exists (document (self w) card_width P), fronts, backs.
  split; [| exact Hlayout].
  rewrite Hrun. destruct (Nat.leb_spec (groups (self w) P) fuel); [reflexivity | lia].
Qed.

Lemma mirrored_placement_witness :
  exists doc fronts backs,
    generate nesting 3 example23 = (written example23 doc, Returns tt)
    /\ nth_error (doc_pages doc) 4 = Some (List.concat fronts)
    /\ nth_error (doc_pages doc) 5 = Some (List.concat backs)
    /\ len fronts = 3 /\ len backs = 3
    /\ (exists entry,
           nth_error (entries (self example23)) 22 = Some entry
           /\ nth 2 fronts [] = cell (self example23) 269.29133858267716%float Front entry 1 0
           /\ nth 2 backs [] = cell (self example23) 269.29133858267716%float Back entry 1 1).
Proof.
  destruct (mirrored_placement nesting example23 269.29133858267716%float 10 3 2)
    as (doc & fronts & backs & Hrun & Hfront & Hback & _ & Hlf & Hlb & Hcells).
  - discriminate.
  - reflexivity.
  - reflexivity.
  - reflexivity.
  - reflexivity.
  - reflexivity.
  - vm_compute. discriminate.
  - split; [discriminate | reflexivity].
  - exists doc, fronts, backs. repeat split; try assumption.
    apply (Hcells 2). split; [discriminate | reflexivity].
Defined.

(** C1 as stated fails on an entry the backend refuses: with the
    translation ["***a***"] the front pass draws the card, the back pass
    raises when it builds the paragraph of the translation, and no page
    comes out of either pass. *)
Lemma mirrored_placement_refused :
  accepted nesting Front (card_with_back "***a***") = true
  /\ accepted nesting Back (card_with_back "***a***") = false
  /\ draw_cell nesting (self (holding [card_with_back "***a***"])) 269.29133858267716%float
       Front (card_with_back "***a***") 0 0
     = Returns (cell (self (holding [card_with_back "***a***"])) 269.29133858267716%float
                  Front (card_with_back "***a***") 0 0)
  /\ exists msg,
       draw_cell nesting (self (holding [card_with_back "***a***"])) 269.29133858267716%float
         Back (card_with_back "***a***") 0 1
       = Raises (ValueError msg)
       /\ generate nesting 1 (holding [card_with_back "***a***"])
          = (holding [card_with_back "***a***"], Raises (ValueError msg)).
Proof.
  split; [reflexivity | split; [reflexivity | split; [vm_compute; reflexivity |]]].
  eexists. split; vm_compute; reflexivity.
Qed.

(** C5. In the document [generate] writes, the entry of global index [k]
    belongs to group [k div P], whose two pages hold one drawing per entry
    of the group in order; it is the cell of index [k mod P] there, drawn
    on the front page at row [(k mod P) div cards_per_row], column [(k mod
    P) mod cards_per_row], and on the back page at the same row and the
    mirrored column: both from its position [k mod P] within the group,
    whatever the size of the group. The drawing is the border of the card
    at the corner of that cell and the texts of entry [k] in its frame. *)
Theorem entry_placement (b : backend) (w : world) (card_width : float) (P : Z)
  (fuel : nat) (k : Z) :
  entries (self w) <> [] ->
  0 < cards_per_row (self w) ->
  _calculate_card_dimensions (self w) = Returns (card_width, P) ->
  0 < P ->
  legible b (self w) = true ->
  writable b (self w) = true ->
  let N := len (entries (self w)) in
  (N + P - 1) / P <= Z.of_nat fuel ->
  0 <= k < N ->
  let columns := cards_per_row (self w) in
  let j := k / P in
  let i := k mod P in
  let n := Z.min P (N - j * P) in
  exists doc fronts backs entry,
    generate b fuel w = (written w doc, Returns tt)
    /\ nth_error (doc_pages doc) (Z.to_nat (2 * j)) = Some (List.concat fronts)
    /\ nth_error (doc_pages doc) (Z.to_nat (2 * j + 1)) = Some (List.concat backs)
    /\ len fronts = n /\ len backs = n /\ i < n
    /\ (forall i', 0 <= i' < n ->
          exists entry',
            nth_error (entries (self w)) (Z.to_nat (k - i + i')) = Some entry'
            /\ nth (Z.to_nat i') fronts []
               = cell (self w) card_width Front entry' (i' / columns) (i' mod columns)
            /\ nth (Z.to_nat i') backs []
               = cell (self w) card_width Back entry'
                   (i' / columns) (columns - 1 - i' mod columns))
    /\ nth_error (entries (self w)) (Z.to_nat k) = Some entry
    /\ nth (Z.to_nat i) fronts []
       = cell (self w) card_width Front entry (i / columns) (i mod columns)
    /\ nth (Z.to_nat i) backs []
       = cell (self w) card_width Back entry (i / columns) (columns - 1 - i mod columns).
Proof.
  intros Hentries Hcolumns Hdims Hpage Hlegible Hwritable N Hfuel Hk columns j i n.
  pose proof (generate_runs _ _ _ _ Hcolumns Hdims Hpage Hlegible fuel w eq_refl Hentries)
    as Hrun.
  unfold writable in Hwritable.
  destruct (open_error b (filename (self w))); [discriminate |].
  pose proof (groups_ceil (self w) P Hpage) as Hceil. fold N in Hceil.
  pose proof (Z.div_mod k P ltac:(lia)) as Hsplit. fold j in Hsplit. fold i in Hsplit.
  pose proof (Z.mod_pos_bound k P Hpage) as Hi. fold i in Hi.
  assert (Hj : 0 <= j < (N + P - 1) / P).
  { split; [apply Z.div_pos; lia |].
    apply Z.div_lt_upper_bound; [lia |].
    pose proof (Z.mul_div_le (N + P - 1) P Hpage).
    pose proof (Z.mod_pos_bound (N + P - 1) P Hpage).
    pose proof (Z.div_mod (N + P - 1) P ltac:(lia)). nia. }
  destruct (group_layout (self w) card_width P Hpage j ltac:(lia))
    as (fronts & backs & Hfront & Hback & Hn & Hlf & Hlb & Hcells).
  fold N in Hn, Hlf, Hlb, Hcells. fold n in Hn, Hlf, Hlb, Hcells.
  assert (Hin : i < n) by (subst n; lia).
  replace (j * P) with (k - i) in Hcells by lia.
  destruct (Hcells i ltac:(lia)) as (entry & Hentry & Hdf & Hdb).
  replace (k - i + i) with k in Hentry by lia.
  exists (document (self w) card_width P), fronts, backs, entry.
  repeat split; try assumption.
  rewrite Hrun. destruct (Nat.leb_spec (groups (self w) P) fuel); [reflexivity | lia].
Qed.

Lemma entry_placement_witness :
  exists doc fronts backs entry,
    generate nesting 3 example23 = (written example23 doc, Returns tt)
    /\ nth_error (doc_pages doc) 2 = Some (List.concat fronts)
    /\ nth_error (doc_pages doc) 3 = Some (List.concat backs)
    /\ nth_error (entries (self example23)) 17 = Some entry
    /\ nth 7 fronts [] = cell (self example23) 269.29133858267716%float Front entry 3 1
    /\ nth 7 backs [] = cell (self example23) 269.29133858267716%float Back entry 3 0.
Proof.
  destruct (entry_placement nesting example23 269.29133858267716%float 10 3 17)
    as (doc & fronts & backs & entry & Hrun & Hfront & Hback & _ & _ & _ & _
        & Hentry & Hdf & Hdb).
  - discriminate.
  - reflexivity.
  - reflexivity.
  - reflexivity.
  - reflexivity.
  - reflexivity.
  - vm_compute. discriminate.
  - split; [discriminate | reflexivity].
  - exists doc, fronts, backs, entry. repeat split; assumption.
Defined.

(** C5 as stated fails on an entry list the backend refuses: when the
    second of two cards has the original ["***a***"], [generate] raises in
    the front pass and neither entry is rendered on any page, the first
    one included, which the backend accepts. *)
Lemma entry_placement_refused :
  accepted nesting Front (card_with_front "Question") = true
  /\ accepted nesting Back (card_with_front "Question") = true
  /\ accepted nesting Front (card_with_front "***a***") = false
  /\ exists msg,
       generate nesting 1 (holding [card_with_front "Question"; card_with_front "***a***"])
       = (holding [card_with_front "Question"; card_with_front "***a***"],
          Raises (ValueError msg)).
Proof.
  split; [reflexivity | split; [reflexivity | split; [reflexivity |]]].
  eexists. vm_compute. reflexivity.
Qed.

(** *** A page shorter than one card *)

(** With entries to draw and a [cards_per_page] that is not positive, no
    iteration of the loop processes a card, and the loop never ends. *)
Lemma render_diverges (b : backend) (g : t) (card_width : float) (P : Z) (fuel : nat) :
  entries g <> [] ->
  _calculate_card_dimensions g = Returns (card_width, P) ->
  P <= 0 ->
  render b fuel g = OutOfFuel.
Proof.
  intros Hentries Hdims HP. unfold render. rewrite Hdims. cbn [bind].
  assert (Hcolumns : cards_per_row g <> 0).
  { unfold _calculate_card_dimensions in Hdims.
    destruct (truediv_int _ (cards_per_row g)) as [x | |] eqn:E; try discriminate.
    now apply truediv_int_nonzero in E. }
  unfold floordiv. destruct (Z.eqb_spec (cards_per_row g) 0); [contradiction |].
  cbn [bind].
  assert (HN : 0 < len (entries g))
    by (unfold len; destruct (entries g); [congruence | cbn; lia]).
  assert (Hloop : forall k c0, k <= 0 ->
            while fuel (fun v => cards_processed v <? len (entries g))
              (page_group b g card_width P (len (entries g)))
              {| c := c0; cards_processed := k |} = OutOfFuel).
  { induction fuel as [| fuel IH]; intros k c0 Hk; cbn [while cards_processed];
      destruct (Z.ltb_spec k (len (entries g))); try lia; [reflexivity |].
    unfold page_group at 1. cbn [c cards_processed].
    assert (Hnone : range (Z.min P (len (entries g) - k)) = []).
    { unfold range. replace (Z.to_nat _) with 0%nat by lia. reflexivity. }
    rewrite Hnone. cbn [for_each bind]. apply IH. lia. }
  now rewrite Hloop.
Qed.

(** C3 fails on the code. The setters accept a card taller than the page;
    [cards_per_page] is then 0, [generate] raises nothing and its loop never
    ends: whatever the backend and the fuel, it runs out. *)
Theorem tall_card_never_returns (b : backend) (fuel : nat) :
  snd tall_card = Returns tt
  /\ _calculate_card_dimensions (self (fst tall_card))
     = Returns (269.29133858267716%float, 0)
  /\ generate b fuel (fst tall_card) = (fst tall_card, OutOfFuel).
Proof.
  split; [reflexivity | split; [reflexivity |]].
  unfold generate, bindM at 1, get.
  change (entries (self (fst tall_card)))
    with [{| original := "Question"; translation := "Answer"; extra := ""; index := "" |}].
  cbv iota. unfold bindM, lift.
  rewrite (render_diverges b _ 269.29133858267716%float 0); [reflexivity | | | ].
  - discriminate.
  - reflexivity.
  - lia.
Qed.

(** *** [generate_pdf] *)

Lemma add_entries (flashcards : list (string * string * string * string)) :
  forall w : world,
    for_eachM flashcards
      (fun '(front, back, extra, index) => add_entry front back extra index) w
    = ({| self := with_entries (entries (self w) ++ map entry_of flashcards) (self w);
          stdout := stdout w ++ map added_line flashcards;
          files := files w |}, Returns tt).
Proof.
  induction flashcards as [| [[[front back] extra] index] rest IH]; intros w.
  - destruct w as [[] ? ?]. cbn. now rewrite !app_nil_r.
  - cbn [for_eachM]. unfold bindM at 1. unfold add_entry at 1, bindM, print, assign.
    rewrite IH. cbn. now rewrite <- !app_assoc.
Qed.

(** [generate] reads the instance only, and only adds to what is printed and
    written. *)
Lemma generate_frame (b : backend) (fuel : nat) (w : world) :
  generate b fuel w
  = let '(w', r) := generate b fuel {| self := self w; stdout := []; files := [] |} in
    ({| self := self w'; stdout := stdout w ++ stdout w'; files := files w' ++ files w |}, r).
Proof.
  destruct w as [g out written]. unfold generate, get.
  unfold bindM at 1. unfold bindM at 4. cbn [self stdout files].
  destruct (entries g); [reflexivity |].
  unfold bindM, lift, save_canvas, print. cbn [self].
  destruct (render b fuel g) as [canvas | err |]; [destruct (save b canvas) | |];
    cbn [self stdout files app]; now rewrite <- ?app_assoc, ?app_nil_r.
Qed.

(** C9. [generate_pdf(L, p)] amounts to [generate] run on the instance whose
    entries are exactly the tuples of [L], in order, and whose filename is
    [p], after one line printed per tuple; it returns [p]. Started from two
    states with the same layout configuration, whatever their entries and
    filename, it has the same outcome, leaves the same instance, prints the
    same lines and writes the same files, whatever the backend accepts. *)
Theorem generate_pdf_resets (b : backend) (fuel : nat)
  (flashcards : list (string * string * string * string)) (output_path : string)
  (w1 w2 : world) :
  same_configuration (self w1) (self w2) ->
  generate_pdf b fuel flashcards output_path w1
  = (let '(w', r) :=
       generate b fuel {| self := loaded flashcards output_path (self w1);
                          stdout := stdout w1 ++ map added_line flashcards;
                          files := files w1 |} in
     (w', (_ <- r ;; Returns output_path)%py))
  /\ exists (g' : t) (printed : list string) (written : list (string * Document))
       (r : outcome string),
      generate_pdf b fuel flashcards output_path w1
      = ({| self := g'; stdout := stdout w1 ++ printed; files := written ++ files w1 |}, r)
      /\ generate_pdf b fuel flashcards output_path w2
         = ({| self := g'; stdout := stdout w2 ++ printed; files := written ++ files w2 |}, r)
      /\ entries g' = map entry_of flashcards
      /\ filename g' = output_path.
Proof.
  intros (Hsize & Hmargins & Hcolumns & Hheight).
  assert (Hrun : forall w,
             generate_pdf b fuel flashcards output_path w
             = (let '(w', r) :=
                  generate b fuel {| self := loaded flashcards output_path (self w);
                                   stdout := stdout w ++ map added_line flashcards;
                                   files := files w |} in
                (w', (_ <- r ;; Returns output_path)%py))).
  { intros w. unfold generate_pdf, set_filename.
    unfold bindM at 1, assign at 1. unfold bindM at 1, assign at 1.
    unfold bindM at 1. rewrite add_entries. cbn [self stdout files entries with_entries
                                                   with_filename app].
    unfold bindM, ret, loaded, with_entries, with_filename. cbn [filename page_size margins
      cards_per_row card_height entries].
    destruct (generate b fuel _) as [w' [[] | e |]]; reflexivity. }
  split; [apply Hrun |].
  assert (Hloaded : loaded flashcards output_path (self w1)
                    = loaded flashcards output_path (self w2)).
  { unfold loaded, with_entries, with_filename. cbn. congruence. }
  rewrite (Hrun w1), (Hrun w2), (generate_frame b fuel {| self := _; stdout := stdout w1 ++ _ |}),
    (generate_frame b fuel {| self := _; stdout := stdout w2 ++ _ |}).
  cbn [self stdout files]. rewrite <- Hloaded.
  destruct (generate b fuel {| self := loaded flashcards output_path (self w1);
                             stdout := []; files := [] |}) as [w' r] eqn:Hgen.
  exists (self w'), (map added_line flashcards ++ stdout w'), (files w'),
    (_ <- r ;; Returns output_path)%py.
  assert (Hself : self w' = loaded flashcards output_path (self w1)).
  { revert Hgen. unfold generate, bindM at 1, get. cbn [self]. destruct (entries _).
    - now intros [= <- _].
    - unfold bindM, lift, save_canvas.
      destruct (render b fuel _) as [canvas | err |]; [destruct (save b canvas) | |];
        now intros [= <- _]. }
  rewrite !app_assoc, Hself. repeat split.
Qed.

Lemma generate_pdf_resets_witness :
  exists (g' : t) (printed : list string) (written : list (string * Document))
    (r : outcome string),
    generate_pdf nesting 1 [("Q1", "A1", "", "1")] "second.pdf" fresh
    = ({| self := g'; stdout := printed; files := written |}, r)
    /\ generate_pdf nesting 1 [("Q1", "A1", "", "1")] "second.pdf"
         (fst (generate_pdf nesting 3 [("Old", "Older", "", "9")] "first.pdf" fresh))
       = ({| self := g';
             stdout := stdout (fst (generate_pdf nesting 3 [("Old", "Older", "", "9")]
                                      "first.pdf" fresh)) ++ printed;
             files := written
                      ++ files (fst (generate_pdf nesting 3 [("Old", "Older", "", "9")]
                                       "first.pdf" fresh)) |}, r)
    /\ entries g' = [{| original := "Q1"; translation := "A1"; extra := ""; index := "1" |}]
    /\ filename g' = "second.pdf".
Proof.
  destruct (generate_pdf_resets nesting 1 [("Q1", "A1", "", "1")] "second.pdf" fresh
              (fst (generate_pdf nesting 3 [("Old", "Older", "", "9")] "first.pdf" fresh)))
    as (_ & g' & printed & written & r & H1 & H2 & Hentries & Hname).
  - repeat split; reflexivity.
  - exists g', printed, written, r. rewrite app_nil_r in H1. now repeat split.
Defined.

(* ===================================================================== *)
(** ** Further properties of the generator *)
(* ===================================================================== *)

(** *** What the methods keep *)

(** [generate] leaves the instance as it is. *)
Lemma generate_self (b : backend) (fuel : nat) (w : world) :
  self (fst (generate b fuel w)) = self w.
Proof.
  unfold generate, bindM at 1, get.
  destruct (entries (self w)); [reflexivity |].
  unfold bindM, lift, save_canvas, print.
  destruct (render b fuel (self w)) as [canvas | err |]; [destruct (save b canvas) | |];
    reflexivity.
Qed.

(** [generate_pdf] changes the entries and the filename only. *)
Lemma generate_pdf_self (b : backend) (fuel : nat)
  (flashcards : list (string * string * string * string)) (output_path : string)
  (w : world) :
  self (fst (generate_pdf b fuel flashcards output_path w))
  = loaded flashcards output_path (self w).
Proof.
  unfold generate_pdf, set_filename.
  unfold bindM at 1, assign at 1. unfold bindM at 1, assign at 1.
  unfold bindM at 1. rewrite add_entries.
  cbn [self stdout files entries with_entries with_filename app].
  unfold bindM at 1.
  match goal with |- context [generate b fuel ?w0] =>
    pose proof (generate_self b fuel w0) as Hself;
    destruct (generate b fuel w0) as [w' [[] | err |]] end;
    cbn [fst self] in Hself; unfold ret; cbn [fst]; rewrite Hself; reflexivity.
Qed.

(** X1. Whatever public methods are called on a new instance, with whatever
    arguments and whether they return or raise, the instance keeps
    [cards_per_row > 0] and a [card_height] that is not [<= 0]. *)
Theorem session_keeps_geometry (calls : list call) :
  0 < cards_per_row (self (session calls))
  /\ (card_height (self (session calls)) <=? 0)%float = false.
Proof.
  unfold session.
  assert (Hstep : forall cl w,
             0 < cards_per_row (self w) /\ (card_height (self w) <=? 0)%float = false ->
             0 < cards_per_row (self (perform cl w))
             /\ (card_height (self (perform cl w)) <=? 0)%float = false).
  { intros cl w Hw. destruct cl; cbn [perform]; try exact Hw.
    - unfold set_cards_per_row. destruct (Z.leb_spec count 0); [exact Hw |].
      cbn. split; [lia | apply Hw].
    - unfold set_card_height. destruct (height <=? 0)%float eqn:E; [exact Hw |].
      cbn. split; [apply Hw | exact E].
    - now rewrite generate_self.
    - now rewrite generate_pdf_self. }
  assert (Hfold : forall w,
             0 < cards_per_row (self w) /\ (card_height (self w) <=? 0)%float = false ->
             0 < cards_per_row (self (fold_left (fun w cl => perform cl w) calls w))
             /\ (card_height (self (fold_left (fun w cl => perform cl w) calls w)) <=? 0)%float
                = false).
  { induction calls as [| cl calls IH]; intros w Hw; [exact Hw |].
    cbn [fold_left]. apply IH, Hstep, Hw. }
  apply Hfold. split; reflexivity.
Qed.

(** *** When [generate] fails and when it returns *)

(** With [cards_per_row > 0] and at least one entry, what [render] raises
    is what [_calculate_card_dimensions] raises or the refusal of a
    paragraph by the backend: the arithmetic and the indexing of the loop
    raise nothing. The canvas it returns is that of the file of the
    generator. *)
Lemma render_raises (b : backend) (fuel : nat) (g : t) :
  0 < cards_per_row g -> entries g <> [] ->
  match render b fuel g with
  | Returns canvas => canvas_filename canvas = filename g
  | Raises e => _calculate_card_dimensions g = Raises e \/ refused b g e
  | OutOfFuel => True
  end.
Proof.
  intros Hcolumns Hentries.
  destruct (_calculate_card_dimensions g) as [[card_width P] | e' |] eqn:Hdims.
  - destruct (Z.lt_ge_cases 0 P) as [Hpage | Hpage].
    + pose proof (render_outcome b g card_width P Hcolumns Hdims Hpage fuel) as Hout.
      destruct (render b fuel g); [exact Hout | now right | exact I].
    + now rewrite (render_diverges b g card_width P fuel) by (assumption || lia).
  - unfold render. rewrite Hdims. cbn [bind]. now left.
  - unfold render. rewrite Hdims. exact I.
Qed.

(** X2. On an instance with [cards_per_row > 0], an exception out of
    [generate] is the one [_calculate_card_dimensions] raises, or the one
    the backend raises when it refuses a paragraph of an entry or the path
    of the file: the page loop itself raises nothing, neither [IndexError]
    nor [ZeroDivisionError] nor an overflow in the coordinates. When
    [generate] raises, nothing has been printed or written and the
    instance is unchanged. *)
Theorem generate_raises_by_dimensions_or_backend (b : backend) (fuel : nat)
  (w w' : world) (e : exn) :
  0 < cards_per_row (self w) ->
  generate b fuel w = (w', Raises e) ->
  w' = w
  /\ (_calculate_card_dimensions (self w) = Raises e
      \/ refused b (self w) e
      \/ open_error b (filename (self w)) = Some e).
Proof.
  intros Hcolumns. unfold generate, bindM at 1, get.
  destruct (entries (self w)) as [| entry rest] eqn:Hentries; [discriminate |].
  pose proof (render_raises b fuel (self w) Hcolumns ltac:(congruence)) as Hrender.
  unfold bindM at 1, lift.
  destruct (render b fuel (self w)) as [canvas | e' |]; try discriminate.
  - unfold bindM at 1, save_canvas, save.
    assert (Hname : canvas_filename
                      match canvas_code canvas with
                      | [] => canvas
                      | _ :: _ => showPage canvas
                      end = filename (self w))
      by (now destruct (canvas_code canvas)).
    rewrite Hname. destruct (open_error b (filename (self w))) as [e' |].
    + intros [= <- <-]. split; [reflexivity | now right; right].
    + unfold bindM, print. discriminate.
  - intros [= <- <-]. split; [reflexivity |]. destruct Hrender; [now left | now right; left].
Qed.

Lemma generate_raises_by_dimensions_or_backend_witness :
  (exists msg,
      generate nesting 1 (holding [card_with_front "***a***"])
      = (holding [card_with_front "***a***"], Raises (ValueError msg)))
  /\ (forall msg,
        generate nesting 1 (holding [card_with_front "***a***"])
        = (holding [card_with_front "***a***"], Raises (ValueError msg)) ->
        _calculate_card_dimensions (self (holding [card_with_front "***a***"]))
        = Raises (ValueError msg)
        \/ refused nesting (self (holding [card_with_front "***a***"])) (ValueError msg)
        \/ open_error nesting (filename (self (holding [card_with_front "***a***"])))
           = Some (ValueError msg)).
Proof.
  split; [eexists; vm_compute; reflexivity |].
  intros msg Hrun.
  apply (generate_raises_by_dimensions_or_backend nesting 1
           (holding [card_with_front "***a***"]) (holding [card_with_front "***a***"])
           (ValueError msg)); [reflexivity | exact Hrun].
Defined.

(** X3. With at least one entry, [cards_per_row > 0], dimensions that
    [_calculate_card_dimensions] returns and a backend that accepts the
    paragraphs of the entries and can open the file, [generate] returns if
    and only if the derived [cards_per_page] is positive: otherwise its
    loop runs forever. *)
Theorem generate_returns_iff_page_holds_a_card (b : backend) (w : world)
  (card_width : float) (P : Z) :
  entries (self w) <> [] ->
  0 < cards_per_row (self w) ->
  _calculate_card_dimensions (self w) = Returns (card_width, P) ->
  legible b (self w) = true ->
  writable b (self w) = true ->
  (exists fuel, snd (generate b fuel w) = Returns tt) <-> 0 < P.
Proof.
  intros Hentries Hcolumns Hdims Hlegible Hwritable. split.
  - intros [fuel Hfuel]. destruct (Z.lt_ge_cases 0 P) as [Hpage | Hpage]; [exact Hpage |].
    exfalso. revert Hfuel. unfold generate, bindM at 1, get.
    destruct (entries (self w)) eqn:E; [congruence |].
    unfold bindM, lift.
    rewrite (render_diverges b (self w) card_width P fuel);
      [discriminate | congruence | exact Hdims | lia].
  - intros Hpage. exists (groups (self w) P).
    rewrite (generate_runs _ _ _ _ Hcolumns Hdims Hpage Hlegible _ w eq_refl Hentries).
    rewrite Nat.leb_refl. unfold writable in Hwritable.
    now destruct (open_error b (filename (self w))).
Qed.

Lemma generate_returns_iff_page_holds_a_card_witness :
  (exists fuel, snd (generate nesting fuel example23) = Returns tt) <-> 0 < 10.
Proof.
  apply (generate_returns_iff_page_holds_a_card nesting example23
           269.29133858267716%float 10); try reflexivity.
  discriminate.
Defined.

(** *** The grid *)

(** [cards_per_page] is a whole number of rows. *)
Lemma dimensions_whole_rows (g : t) (card_width : float) (P : Z) :
  _calculate_card_dimensions g = Returns (card_width, P) ->
  cards_per_row g <> 0 /\ exists rows, P = rows * cards_per_row g.
Proof.
  unfold _calculate_card_dimensions.
  destruct (truediv_int _ (cards_per_row g)) as [x | |] eqn:E; try discriminate.
  apply truediv_int_nonzero in E. cbn [bind].
  destruct (truediv _ (card_height g)) as [q | |]; try discriminate. cbn [bind].
  destruct (int_of_float q) as [rows | |]; try discriminate. cbn [bind].
  intros [= _ <-]. split; [exact E |]. exists rows. ring.
Qed.

(** X4. Every cell of a page lies in the grid: with [cards_per_row > 0], the
    cell of index [i < cards_per_page] gets, on either side, a column in
    [0 .. cards_per_row - 1] and a row in [0 .. rows_per_page - 1], where
    [rows_per_page = cards_per_page // cards_per_row] and
    [cards_per_page] is exactly [rows_per_page * cards_per_row]. *)
Theorem cells_within_grid (g : t) (card_width : float) (P : Z) (sd : side) (i : Z) :
  0 < cards_per_row g ->
  _calculate_card_dimensions g = Returns (card_width, P) ->
  0 <= i < P ->
  exists rows_per_page row col,
    floordiv P (cards_per_row g) = Returns rows_per_page
    /\ floordiv i (cards_per_row g) = Returns row
    /\ column sd (cards_per_row g) i = Returns col
    /\ 0 <= row < rows_per_page
    /\ 0 <= col < cards_per_row g
    /\ P = rows_per_page * cards_per_row g.
Proof.
  intros Hcolumns Hdims Hi.
  destruct (dimensions_whole_rows g card_width P Hdims) as (Hnz & rows & HP).
  pose proof (Z.mod_pos_bound i (cards_per_row g) Hcolumns) as Hmod.
  exists rows, (i / cards_per_row g),
    (match sd with
     | Front => i mod cards_per_row g
     | Back => cards_per_row g - 1 - i mod cards_per_row g
     end).
  unfold floordiv, column, mod_.
  destruct (Z.eqb_spec (cards_per_row g) 0) as [E | _]; [contradiction |]. cbn [bind].
  split; [rewrite HP, Z.div_mul by exact Hnz; reflexivity |].
  split; [reflexivity |]. split; [reflexivity |].
  split; [| split; [destruct sd; lia | exact HP]].
  split; [apply Z.div_pos; lia |].
  apply Z.div_lt_upper_bound; [lia |]. rewrite Z.mul_comm, <- HP. lia.
Qed.

Lemma cells_within_grid_witness :
  exists rows_per_page row col,
    floordiv 10 2 = Returns rows_per_page
    /\ floordiv 7 2 = Returns row
    /\ column Back 2 7 = Returns col
    /\ 0 <= row < rows_per_page
    /\ 0 <= col < 2
    /\ 10 = rows_per_page * 2.
Proof.
  apply (cells_within_grid __init__ 269.29133858267716%float 10 Back 7).
  - reflexivity.
  - reflexivity.
  - split; [discriminate | reflexivity].
Defined.

(** X5. Two cells of a page never share a position: on either side, cells
    that get the same row and the same column have the same index. *)
Theorem cells_do_not_overlap (sd : side) (cards_per_row i i' row col : Z) :
  floordiv i cards_per_row = Returns row ->
  column sd cards_per_row i = Returns col ->
  floordiv i' cards_per_row = Returns row ->
  column sd cards_per_row i' = Returns col ->
  i = i'.
Proof.
  unfold floordiv, column, mod_.
  destruct (Z.eqb_spec cards_per_row 0) as [E | Hnz]; [discriminate |]. cbn [bind].
  intros [= Hrow] [= Hcol] [= Hrow'] [= Hcol'].
  rewrite (Z.div_mod i cards_per_row Hnz), (Z.div_mod i' cards_per_row Hnz).
  rewrite Hrow, Hrow'. f_equal. destruct sd; lia.
Qed.

Lemma cells_do_not_overlap_witness :
  floordiv 7 2 = Returns 3 /\ column Back 2 7 = Returns 0 /\ 7 = 7.
Proof.
  split; [reflexivity | split; [reflexivity |]].
  apply (cells_do_not_overlap Back 2 7 7 3 0); reflexivity.
Defined.

(** *** Every entry on each side *)

(** X6. Every entry is drawn once on each side, in order: read page after
    page, the front pages of the document [generate] writes hold the front
    stories of the entries, one per entry and in the order of the entries,
    and the back pages hold their back stories in the same order; no entry
    is dropped and none is drawn twice. Every page holds at least one card
    and at most [cards_per_page]. *)
Theorem every_entry_drawn_once_per_side (b : backend) (w : world) (card_width : float)
  (P : Z) (fuel : nat) :
  entries (self w) <> [] ->
  0 < cards_per_row (self w) ->
  _calculate_card_dimensions (self w) = Returns (card_width, P) ->
  0 < P ->
  legible b (self w) = true ->
  writable b (self w) = true ->
  (len (entries (self w)) + P - 1) / P <= Z.of_nat fuel ->
  exists doc,
    generate b fuel w = (written w doc, Returns tt)
    /\ flat_map card_stories (fronts_of (doc_pages doc))
       = map (face_story Front) (entries (self w))
    /\ flat_map card_stories (backs_of (doc_pages doc))
       = map (face_story Back) (entries (self w))
    /\ forall p, In p (doc_pages doc) -> 0 < Z.of_nat (rects p) <= P.
Proof.
  intros Hentries Hcolumns Hdims Hpage Hlegible Hwritable Hfuel.
  pose proof (generate_runs _ _ _ _ Hcolumns Hdims Hpage Hlegible fuel w eq_refl Hentries)
    as Hrun.
  unfold writable in Hwritable.
  destruct (open_error b (filename (self w))); [discriminate |].
  pose proof (groups_ceil (self w) P Hpage) as Hceil.
  exists (document (self w) card_width P). split; [| split; [| split]].
  - rewrite Hrun. destruct (Nat.leb_spec (groups (self w) P) fuel); [reflexivity | lia].
  - unfold document, groups. cbn [doc_pages].
    now destruct (sheets_stories (self w) card_width P Hpage _ 0
                    ltac:(unfold len; lia) eq_refl) as [-> _].
  - unfold document, groups. cbn [doc_pages].
    now destruct (sheets_stories (self w) card_width P Hpage _ 0
                    ltac:(unfold len; lia) eq_refl) as [_ ->].
  - intros p Hp. unfold document, groups in Hp. cbn [doc_pages] in Hp.
    apply (sheets_pages _ _ _ Hpage _ 0 ltac:(lia) eq_refl) in Hp
      as (sd & k' & n & -> & Hk' & Hn & Hlen).
    destruct (group_page_calls (self w) card_width P sd k' n) as [-> _]; lia.
Qed.

Lemma every_entry_drawn_once_per_side_witness :
  exists doc,
    generate nesting 3 example23 = (written example23 doc, Returns tt)
    /\ flat_map card_stories (fronts_of (doc_pages doc))
       = map (face_story Front) (entries (self example23))
    /\ flat_map card_stories (backs_of (doc_pages doc))
       = map (face_story Back) (entries (self example23))
    /\ forall p, In p (doc_pages doc) -> 0 < Z.of_nat (rects p) <= 10.
Proof.
  apply (every_entry_drawn_once_per_side nesting example23 269.29133858267716%float 10 3);
    try reflexivity; discriminate.
Defined.

(** X7. On every page of the document [generate] writes, the calls of
    [saveState] and [restoreState] are balanced: no [restoreState] comes
    without a [saveState] before it, and the page ends with every saved
    state restored. *)
Theorem pages_restore_graphics_state (b : backend) (w : world) (card_width : float)
  (P : Z) (fuel : nat) :
  entries (self w) <> [] ->
  0 < cards_per_row (self w) ->
  _calculate_card_dimensions (self w) = Returns (card_width, P) ->
  0 < P ->
  legible b (self w) = true ->
  writable b (self w) = true ->
  (len (entries (self w)) + P - 1) / P <= Z.of_nat fuel ->
  exists doc,
    generate b fuel w = (written w doc, Returns tt)
    /\ forall p, In p (doc_pages doc) -> state_stack 0 p = Some 0%nat.
Proof.
  intros Hentries Hcolumns Hdims Hpage Hlegible Hwritable Hfuel.
  pose proof (generate_runs _ _ _ _ Hcolumns Hdims Hpage Hlegible fuel w eq_refl Hentries)
    as Hrun.
  unfold writable in Hwritable.
  destruct (open_error b (filename (self w))); [discriminate |].
  pose proof (groups_ceil (self w) P Hpage) as Hceil.
  exists (document (self w) card_width P). split.
  - rewrite Hrun. destruct (Nat.leb_spec (groups (self w) P) fuel); [reflexivity | lia].
  - intros p Hp. unfold document, groups in Hp. cbn [doc_pages] in Hp.
    apply (sheets_pages _ _ _ Hpage _ 0 ltac:(lia) eq_refl) in Hp
      as (sd & k' & n & -> & Hk' & Hn & Hlen).
    apply (group_page_calls (self w) card_width P); lia.
Qed.

Lemma pages_restore_graphics_state_witness :
  exists doc,
    generate nesting 3 example23 = (written example23 doc, Returns tt)
    /\ forall p, In p (doc_pages doc) -> state_stack 0 p = Some 0%nat.
Proof.
  apply (pages_restore_graphics_state nesting example23 269.29133858267716%float 10 3);
    try reflexivity; discriminate.
Defined.

(** *** Markup that is paired *)

Lemma count_char_append (c : ascii) (s1 s2 : string) :
  count_char c (s1 ++ s2) = (count_char c s1 + count_char c s2)%nat.
Proof.
  induction s1 as [| a s1 IH]; [reflexivity |].
  cbn [append count_char]. destruct (Ascii.eqb c a); now rewrite IH.
Qed.

Lemma count_char_absent (c : ascii) (s : string) :
  occurs c s = false -> count_char c s = 0%nat.
Proof.
  induction s as [| a s IH]; [reflexivity |].
  cbn [occurs count_char]. intros H. apply orb_false_elim in H as [Ha Hs].
  rewrite Ha. now apply IH.
Qed.

Lemma plain_tagged (a b r tag1 tag2 : string) :
  plain a -> plain b -> plain r -> plain tag1 -> plain tag2 ->
  plain (a ++ tag1 ++ b ++ tag2 ++ r).
Proof.
  unfold plain. intros [] [] [] [] [].
  rewrite !occurs_append. split; repeat (apply orb_false_intro; try assumption).
Qed.

(** X8. A span of plain text on one line between two [**], two [*] or two
    [__], with plain text around it, is translated to the same span
    between [<b>], [<i>] or [<u>] tags, and the text around it is kept. *)
Theorem markup_pairs_translate (a b r : string) :
  plain a -> plain b -> plain r -> occurs Re.newline b = false ->
  _parse_markdown (a ++ "**" ++ b ++ "**" ++ r) = (a ++ "<b>" ++ b ++ "</b>" ++ r)%string
  /\ _parse_markdown (a ++ "*" ++ b ++ "*" ++ r) = (a ++ "<i>" ++ b ++ "</i>" ++ r)%string
  /\ _parse_markdown (a ++ "__" ++ b ++ "__" ++ r) = (a ++ "<u>" ++ b ++ "</u>" ++ r)%string.
Proof.
  intros Ha Hb Hr Hnl.
  assert (Hwithout : forall c d o cl s, occurs c s = false ->
             Re.sub (String c d) o cl s = s).
  { intros c d o cl s Hs. apply sub_from_unpaired. now apply unpaired_without. }
  assert (Htags : forall tag1 tag2, plain tag1 -> plain tag2 ->
             plain (a ++ tag1 ++ b ++ tag2 ++ r)).
  { intros tag1 tag2 H1 H2. now apply plain_tagged. }
  destruct Ha as [Has Hau], Hb as [Hbs Hbu], Hr as [Hrs Hru].
  split; [| split]; unfold _parse_markdown.
  - rewrite (sub_pair "*" "*" "<b>" "</b>" a b r) by assumption.
    destruct (Htags "<b>" "</b>")%string as [Hs Hu]; [now split | now split |].
    rewrite (Hwithout "*"%char) by exact Hs. now rewrite Hwithout.
  - assert (Hbold : Re.sub "**" "<b>" "</b>" (a ++ "*" ++ b ++ "*" ++ r)
                    = (a ++ "*" ++ b ++ "*" ++ r)%string).
    { apply sub_from_unpaired. intros p g q E.
      apply (f_equal (count_char "*")) in E.
      rewrite !count_char_append in E.
      rewrite (count_char_absent _ a), (count_char_absent _ b), (count_char_absent _ r) in E
        by assumption.
      cbn in E. lia. }
    rewrite Hbold, (sub_pair "*" "" "<i>" "</i>" a b r) by assumption.
    destruct (Htags "<i>" "</i>")%string as [Hs Hu]; [now split | now split |].
    now rewrite Hwithout.
  - assert (Hs : occurs "*" (a ++ "__" ++ b ++ "__" ++ r) = false).
    { rewrite !occurs_append, Has, Hbs, Hrs. reflexivity. }
    rewrite (Hwithout "*"%char "*") by exact Hs. rewrite (Hwithout "*"%char) by exact Hs.
    now rewrite (sub_pair "_" "_" "<u>" "</u>" a b r) by assumption.
Qed.

Lemma markup_pairs_translate_witness :
  _parse_markdown "Key: **mitosis** (cell)" = "Key: <b>mitosis</b> (cell)"%string
  /\ _parse_markdown "Key: *mitosis* (cell)" = "Key: <i>mitosis</i> (cell)"%string
  /\ _parse_markdown "Key: __mitosis__ (cell)" = "Key: <u>mitosis</u> (cell)"%string.
Proof.
  apply (markup_pairs_translate "Key: " "mitosis" " (cell)");
    (split; reflexivity) || reflexivity.
Defined.

(** *** [generate_pdf] on a new generator *)

Lemma generate_pdf_runs (b : backend) (fuel : nat)
  (flashcards : list (string * string * string * string)) (output_path : string)
  (w : world) :
  generate_pdf b fuel flashcards output_path w
  = (let '(w', r) :=
       generate b fuel {| self := loaded flashcards output_path (self w);
                          stdout := stdout w ++ map added_line flashcards;
                          files := files w |} in
     (w', (_ <- r ;; Returns output_path)%py)).
Proof.
  unfold generate_pdf, set_filename.
  unfold bindM at 1, assign at 1. unfold bindM at 1, assign at 1.
  unfold bindM at 1. rewrite add_entries.
  cbn [self stdout files entries with_entries with_filename app].
  unfold bindM, ret, loaded, with_entries, with_filename.
  cbn [filename page_size margins cards_per_row card_height entries].
  destruct (generate b fuel _) as [w' [[] | err |]]; reflexivity.
Qed.

(** X9. On a generator with the layout of a new one, whatever it held
    before, [generate_pdf] with a list that is not empty, whose paragraph
    texts the backend accepts, prints one line per card and then depends
    on the path only. When the backend can open [output_path] it prints
    the two lines of the report, writes one document under [output_path],
    of two pages for every ten cards or part of ten, and returns
    [output_path]. When the backend cannot open [output_path] the
    exception of the backend comes out of [generate_pdf], with the cards
    loaded and their lines printed, nothing written and no report. *)
Theorem new_generator_writes_accepted_decks (b : backend) (fuel : nat)
  (flashcards : list (string * string * string * string)) (output_path : string)
  (w : world) :
  same_configuration (self w) __init__ ->
  flashcards <> [] ->
  legible b (loaded flashcards output_path __init__) = true ->
  (len flashcards + 9) / 10 <= Z.of_nat fuel ->
  match open_error b output_path with
  | None =>
      exists doc,
        generate_pdf b fuel flashcards output_path w
        = ({| self := loaded flashcards output_path __init__;
              stdout := stdout w ++ map added_line flashcards
                        ++ report (loaded flashcards output_path __init__);
              files := (output_path, doc) :: files w |}, Returns output_path)
        /\ len (doc_pages doc) = 2 * ((len flashcards + 9) / 10)
  | Some e =>
      generate_pdf b fuel flashcards output_path w
      = ({| self := loaded flashcards output_path __init__;
            stdout := stdout w ++ map added_line flashcards;
            files := files w |}, Raises e)
  end.
Proof.
  intros (Hsize & Hmargins & Hcolumns & Hheight) Hcards Hlegible Hfuel.
  assert (Hloaded : loaded flashcards output_path (self w)
                    = loaded flashcards output_path __init__).
  { destruct (self w). cbn in Hsize, Hmargins, Hcolumns, Hheight. subst. reflexivity. }
  rewrite generate_pdf_runs, Hloaded.
  set (g := loaded flashcards output_path __init__) in *.
  assert (Hdims : _calculate_card_dimensions g = Returns (269.29133858267716%float, 10))
    by reflexivity.
  assert (Hentries : entries g <> []).
  { cbn. destruct flashcards; [congruence | discriminate]. }
  assert (Hlen : len (entries g) = len flashcards).
  { cbn. unfold len. now rewrite length_map. }
  pose proof (groups_ceil g 10 ltac:(lia)) as Hceil. rewrite Hlen in Hceil.
  replace (len flashcards + 10 - 1) with (len flashcards + 9) in Hceil by lia.
  match goal with
  | |- context [generate b fuel ?w0] =>
      rewrite (generate_runs b g _ 10 ltac:(cbn; lia) Hdims ltac:(lia) Hlegible
                 fuel w0 eq_refl Hentries)
  end.
  destruct (Nat.leb_spec (groups g 10) fuel) as [_ | Hshort]; [| lia].
  change (filename g) with output_path.
  destruct (open_error b output_path) as [e |]; [reflexivity |].
  exists (document g 269.29133858267716%float 10). split.
  - unfold written. cbn [self stdout files bind]. now rewrite <- app_assoc.
  - unfold document. cbn [doc_pages]. unfold len at 1. rewrite length_sheets. lia.
Qed.

Lemma new_generator_writes_accepted_decks_witness :
  (exists doc,
      generate_pdf nesting 1 [("Q1", "A1", "", "1")] "out.pdf" fresh
      = ({| self := loaded [("Q1", "A1", "", "1")] "out.pdf" __init__;
            stdout := stdout fresh ++ map added_line [("Q1", "A1", "", "1")]
                      ++ report (loaded [("Q1", "A1", "", "1")] "out.pdf" __init__);
            files := ("out.pdf", doc) :: files fresh |}, Returns "out.pdf")
      /\ len (doc_pages doc) = 2 * ((len [("Q1", "A1", "", "1")] + 9) / 10))
  /\ generate_pdf flat_directory 1 [("Q1", "A1", "", "1")] "output/out.pdf" fresh
     = ({| self := loaded [("Q1", "A1", "", "1")] "output/out.pdf" __init__;
           stdout := stdout fresh ++ map added_line [("Q1", "A1", "", "1")];
           files := files fresh |},
        Raises (OSError "[Errno 2] No such file or directory: 'output/out.pdf'")).
Proof.
  split.
  - apply (new_generator_writes_accepted_decks nesting 1 [("Q1", "A1", "", "1")]
             "out.pdf" fresh); try reflexivity; try discriminate.
    repeat split.
  - apply (new_generator_writes_accepted_decks flat_directory 1 [("Q1", "A1", "", "1")]
             "output/out.pdf" fresh); try reflexivity; try discriminate.
    repeat split.
Defined.

(* ===================================================================== *)
(** ** Properties of the console tool *)
(* ===================================================================== *)

(** *** [strip] *)

Lemma lstrip_starts (s : string) : starts_with_space (Console.lstrip s) = false.
Proof.
  induction s as [| c s IH]; [reflexivity |].
  cbn [Console.lstrip]. destruct (Console.isspace c) eqn:E; [exact IH |].
  cbn [starts_with_space]. exact E.
Qed.

Lemma rstrip_starts (s : string) :
  starts_with_space s = false -> starts_with_space (Console.rstrip s) = false.
Proof.
  destruct s as [| c s]; [reflexivity |]. cbn [starts_with_space Console.rstrip].
  intros E. rewrite E. now destruct (Console.rstrip s).
Qed.

Lemma rstrip_ends (s : string) : ends_with_space (Console.rstrip s) = false.
Proof.
  induction s as [| c s IH]; [reflexivity |]. cbn [Console.rstrip].
  destruct (Console.rstrip s) as [| c' r] eqn:E.
  - destruct (Console.isspace c) eqn:Ec; [reflexivity | exact Ec].
  - exact IH.
Qed.

Lemma strip_trims (s : string) :
  starts_with_space (Console.strip s) = false /\ ends_with_space (Console.strip s) = false.
Proof.
  unfold Console.strip. split; [apply rstrip_starts, lstrip_starts | apply rstrip_ends].
Qed.

(** *** The cards of a response *)

Lemma field_trims (key : string) (c : Console.value) (s : string) :
  Console.field key c = Console.Ok s ->
  starts_with_space s = false /\ ends_with_space s = false.
Proof.
  unfold Console.field. destruct c; try discriminate.
  destruct (Console.truth (Console.dict_get key items)).
  - destruct (Console.dict_get key items); try discriminate.
    intros [= <-]. apply strip_trims.
  - intros [= <-]. now split.
Qed.

Lemma numbered_from (lo lo' : Z) (cards : list Console.card) :
  lo <= lo' -> numbered lo' cards -> numbered lo cards.
Proof.
  destruct cards as [| [[[front back] extra] index] rest]; [trivial |].
  cbn [numbered]. intros Hlo (Hfront & Hback & Hextra & p & Hp & Hindex & Hrest).
  split; [exact Hfront | split; [exact Hback | split; [exact Hextra |]]].
  exists p. split; [lia | split; assumption].
Qed.

Lemma collect_appends (items : list Console.value) :
  forall (i : Z) (flashcards cards : list Console.card),
    Console.collect i items flashcards = Console.Ok cards ->
    exists new, cards = flashcards ++ new /\ numbered (i + 1) new.
Proof.
  induction items as [| c rest IH]; intros i flashcards cards.
  - intros [= <-]. exists []. now rewrite app_nil_r.
  - cbn [Console.collect]. unfold Console.and_then at 1.
    destruct (Console.field "front" c) as [front | e] eqn:Hfront; [| discriminate].
    unfold Console.and_then at 1.
    destruct (Console.field "back" c) as [back | e] eqn:Hback; [| discriminate].
    intros Hrest. apply IH in Hrest as (new & -> & Hnew).
    apply field_trims in Hfront as [Hf1 Hf2]. apply field_trims in Hback as [Hb1 Hb2].
    destruct (String.eqb_spec front EmptyString) as [_ | Hf];
      [| destruct (String.eqb_spec back EmptyString) as [_ | Hb]]; cbn [negb andb].
    + exists new. split; [reflexivity |]. apply (numbered_from _ (i + 1 + 1)); [lia | exact Hnew].
    + exists new. split; [reflexivity |]. apply (numbered_from _ (i + 1 + 1)); [lia | exact Hnew].
    + exists ((front, back, EmptyString, str_of_int (i + 1)) :: new).
      split; [now rewrite <- app_assoc |]. cbn [numbered]. unfold trimmed.
      split; [easy | split; [easy | split; [reflexivity |]]].
      exists (i + 1). split; [lia | split; [reflexivity | exact Hnew]].
Qed.

(** The cards of a response are none, or what the loop collects. *)
Lemma read_cards_numbered (o : Console.outside) (response_text : string)
  (w w' : Console.world) (cards : list Console.card) :
  Console.read_cards o response_text w = (w', Console.Ok cards) -> numbered 1 cards.
Proof.
  unfold Console.read_cards, Console.try.
  destruct (Console.search response_text) as [group |].
  - unfold Console.bindM at 1, Console.lift at 1.
    destruct (Console.json_loads o group) as [v | e].
    + unfold Console.lift, Console.and_then.
      destruct (Console.iterate v) as [items | e];
        [destruct (Console.collect 0 items []) as [cards' | e] eqn:Hcollect |].
      * intros [= _ <-]. apply collect_appends in Hcollect as (new & -> & Hnew).
        exact Hnew.
      * destruct e; try discriminate.
        unfold Console.bindM, Console.print, Console.ret. now intros [= _ <-].
      * destruct e; try discriminate.
        unfold Console.bindM, Console.print, Console.ret. now intros [= _ <-].
    + destruct e; try discriminate.
      unfold Console.bindM, Console.print, Console.ret. now intros [= _ <-].
  - unfold Console.bindM, Console.print, Console.ret. now intros [= _ <-].
Qed.
(** *** Calls of the service *)

(** [geminiResponse] returns a string whatever happens inside: it only
    prints, and gives the message to the model at most once. *)
Lemma geminiResponse_returns (o : Console.outside) (k : nat) (message : string)
  (w : Console.world) :
  exists w' s lines,
    Console.geminiResponse o k message w = (w', Console.Ok s)
    /\ Console.printed w' = Console.printed w ++ lines
    /\ Console.slept w' = Console.slept w
    /\ (Console.requests w' = Console.requests w
        \/ Console.requests w' = Console.requests w ++ [message]).
Proof.
  destruct w as [key out naps reqs].
  unfold Console.geminiResponse, Console.try, Console.geminiResponse_body.
  unfold Console.bindM at 1, Console.getenv. unfold Console.bindM at 1, Console.print at 1.
  cbn [Console.environ Console.printed Console.slept Console.requests].
  unfold Console.bindM at 1.
  destruct (Console.has_key key) eqn:Hkey.
  - destruct key as [[| c key] |]; try discriminate. unfold Console.ret at 1.
    destruct (Console.genai o k (String c key) message); cbn;
      eexists _, _, _; (split; [reflexivity |]); cbn; rewrite <- ?app_assoc;
      (split; [reflexivity |]); split; auto.
  - destruct (Console.load_dotenv o k key) as [[[| c key'] |] | e]; [| | | destruct e];
      cbn;
      try (destruct key as [[| c0 key0] |]; try discriminate; cbn);
      try (destruct (Console.genai o k (String c key') message); cbn);
      eexists _, _, _; (split; [reflexivity |]); cbn; rewrite <- ?app_assoc;
      (split; [reflexivity |]); split; auto.
Qed.
Lemma read_cards_effects (o : Console.outside) (response_text : string)
  (w w' : Console.world) (r : Console.result (list Console.card)) :
  Console.read_cards o response_text w = (w', r) ->
  (exists lines, Console.printed w' = Console.printed w ++ lines)
  /\ Console.slept w' = Console.slept w
  /\ Console.requests w' = Console.requests w.
Proof.
  unfold Console.read_cards, Console.try.
  assert (Hsame : (exists lines, Console.printed w = Console.printed w ++ lines)
                  /\ Console.slept w = Console.slept w
                  /\ Console.requests w = Console.requests w).
  { split; [exists []; now rewrite app_nil_r | now split]. }
  assert (Hline : forall line,
            (exists lines, Console.printed w ++ [line] = Console.printed w ++ lines)
            /\ Console.slept w = Console.slept w
            /\ Console.requests w = Console.requests w).
  { intros line. split; [now exists [line] | now split]. }
  destruct (Console.search response_text) as [group |].
  - unfold Console.bindM at 1, Console.lift at 1.
    destruct (Console.json_loads o group) as [v | e].
    + unfold Console.lift.
      destruct (Console.and_then _ _) as [cards | e]; [now intros [= <- _] |].
      destruct e; try (now intros [= <- _]).
      unfold Console.bindM, Console.print, Console.ret. intros [= <- _]. apply Hline.
    + destruct e; try (now intros [= <- _]).
      unfold Console.bindM, Console.print, Console.ret. intros [= <- _]. apply Hline.
  - unfold Console.bindM, Console.print, Console.ret. intros [= <- _]. apply Hline.
Qed.

(** A pass of the loop never raises. It gives the prompt to the model at
    most once; it sleeps only before another pass, and then for
    [2 ** (attempt + 1)] seconds; the cards it returns are numbered. *)
Lemma attempt_pass_returns (o : Console.outside) (prompt : string) (max_retries attempt : Z)
  (w : Console.world) :
  exists w' p lines reqs naps,
    Console.attempt_pass o prompt max_retries attempt w = (w', Console.Ok p)
    /\ Console.printed w' = Console.printed w ++ lines
    /\ Console.requests w' = Console.requests w ++ reqs
    /\ (reqs = [] \/ reqs = [prompt])
    /\ Console.slept w' = Console.slept w ++ naps
    /\ (naps = [] \/ naps = [2 ^ (attempt + 1)] /\ p = Console.Continue)
    /\ (p = Console.Continue -> attempt < max_retries - 1)
    /\ (forall cards, p = Console.Return cards -> numbered 1 cards).
Proof.
  unfold Console.attempt_pass, Console.try, Console.attempt_body.
  unfold Console.bindM at 1. unfold Console.bindM at 1, Console.print at 1.
  unfold Console.bindM at 1.
  match goal with
  | |- context [Console.geminiResponse o ?k prompt ?w0] =>
      destruct (geminiResponse_returns o k prompt w0)
        as (w1 & s & lines & -> & Hout & Hnaps & Hreqs)
  end.
  cbn [Console.printed Console.slept Console.requests] in Hout, Hnaps, Hreqs.
  assert (Hsent : exists reqs, Console.requests w1 = Console.requests w ++ reqs
                               /\ (reqs = [] \/ reqs = [prompt])).
  { destruct Hreqs as [-> | ->]; [exists [] | exists [prompt]];
      rewrite ?app_nil_r; auto. }
  destruct Hsent as (reqs & Hsent & Hshape). clear Hreqs.
  rewrite <- app_assoc in Hout. revert Hout.
  generalize ([("Attempt " ++ str_of_int (attempt + 1) ++ " to generate flashcards")%string]
              ++ lines).
  clear lines. intros lines Hout.
  destruct (Console.time o (Z.to_nat attempt)) as [start_time now].
  destruct (Console.max_api_time <? now - start_time)%float.
  - unfold Console.bindM, Console.print, Console.raise, Console.ret, Console.str.
    cbn [Console.printed Console.slept Console.requests Console.environ].
    destruct (Z.ltb_spec attempt (max_retries - 1));
      eexists _, _, _, reqs, [];
      (split; [reflexivity |]);
      cbn [Console.printed Console.slept Console.requests];
      rewrite Hout, Hnaps, Hsent, <- ?app_assoc;
      (split; [reflexivity |]); rewrite ?app_nil_r;
      (split; [reflexivity |]); (split; [exact Hshape |]);
      (split; [reflexivity |]); (split; [now left |]);
      (split; [intros; (assumption || discriminate) |]);
      intros cards [= <-]; exact I.
  - destruct (Console.read_cards o s w1) as [w2 [cards | e]] eqn:Hread;
      pose proof (read_cards_effects _ _ _ _ _ Hread) as ((more & Hout2) & Hnaps2 & Hreqs2).
    + unfold Console.ret. exists w2, (Console.Return cards), (lines ++ more), reqs, [].
      split; [reflexivity |].
      rewrite Hout2, Hnaps2, Hreqs2, Hout, Hnaps, Hsent, <- ?app_assoc, ?app_nil_r.
      split; [reflexivity |]. split; [reflexivity |]. split; [exact Hshape |].
      split; [reflexivity |]. split; [now left |]. split; [discriminate |].
      intros cards' [= <-]. exact (read_cards_numbered _ _ _ _ _ Hread).
    + assert (Hother :
        exists w' p lines' naps,
          (let h :=
             (Console.bindM (Console.print ("Error generating flashcards: " ++ Console.str e))
                (fun _ =>
                   if attempt <? max_retries - 1
                   then Console.bindM
                          (Console.print ("Waiting " ++ str_of_int (2 ^ (attempt + 1))
                                          ++ " seconds before retry..."))
                          (fun _ => Console.bindM (Console.sleep (2 ^ (attempt + 1)))
                                      (fun _ => Console.ret Console.Continue))
                   else Console.ret (Console.Return [])))
           in h w2) = (w', Console.Ok p)
          /\ Console.printed w' = Console.printed w2 ++ lines'
          /\ Console.requests w' = Console.requests w2
          /\ Console.slept w' = Console.slept w2 ++ naps
          /\ (naps = [] \/ naps = [2 ^ (attempt + 1)] /\ p = Console.Continue)
          /\ (p = Console.Continue -> attempt < max_retries - 1)
          /\ (forall cards, p = Console.Return cards -> numbered 1 cards)).
      { unfold Console.bindM, Console.print, Console.sleep, Console.ret.
        cbn [Console.printed Console.slept Console.requests Console.environ].
        destruct (Z.ltb_spec attempt (max_retries - 1)).
        - eexists _, _, _, [2 ^ (attempt + 1)]. split; [reflexivity |].
          cbn [Console.printed Console.slept Console.requests]. rewrite <- ?app_assoc.
          split; [reflexivity |]. split; [reflexivity |]. split; [reflexivity |].
          split; [now right |]. split; [trivial |]. discriminate.
        - eexists _, _, _, []. split; [reflexivity |].
          cbn [Console.printed Console.slept Console.requests].
          split; [reflexivity |]. rewrite ?app_nil_r.
          split; [reflexivity |]. split; [reflexivity |].
          split; [now left |]. split; [discriminate |]. intros cards [= <-]. exact I. }
      assert (Htimeout :
        forall m, e = Console.TimeoutError m ->
        exists w' p lines',
          (let h :=
             (Console.bindM (Console.print ("Timeout error: " ++ Console.str e))
                (fun _ =>
                   if attempt <? max_retries - 1
                   then Console.bindM
                          (Console.print ("Retrying (" ++ str_of_int (attempt + 2) ++ "/"
                                          ++ str_of_int max_retries ++ ")..."))
                          (fun _ => Console.ret Console.Continue)
                   else Console.ret (Console.Return [])))
           in h w2) = (w', Console.Ok p)
          /\ Console.printed w' = Console.printed w2 ++ lines'
          /\ Console.requests w' = Console.requests w2
          /\ Console.slept w' = Console.slept w2
          /\ (p = Console.Continue -> attempt < max_retries - 1)
          /\ (forall cards, p = Console.Return cards -> numbered 1 cards)).
      { intros m _. unfold Console.bindM, Console.print, Console.ret.
        cbn [Console.printed Console.slept Console.requests Console.environ].
        destruct (Z.ltb_spec attempt (max_retries - 1));
          eexists _, _, _; (split; [reflexivity |]);
          cbn [Console.printed Console.slept Console.requests]; rewrite <- ?app_assoc;
          (split; [reflexivity |]); (split; [reflexivity |]); (split; [reflexivity |]);
          (split; [intros; (assumption || discriminate) |]);
          intros cards [= <-]; exact I. }
      unfold Console.bindM at 1.
      destruct e as [m | m | m | m | m | m | m];
        [destruct (Htimeout m eq_refl) as (w' & p & lines' & Hrun & H1 & H2 & H3 & H4 & H5);
         cbv zeta in Hrun; exists w', p, (lines ++ more ++ lines'), reqs, [];
         split; [exact Hrun |];
         rewrite H1, H2, H3, Hout2, Hnaps2, Hreqs2, Hout, Hnaps, Hsent,
           <- ?app_assoc, ?app_nil_r;
         repeat (split; [reflexivity || assumption || (now left) |]); assumption
        | destruct Hother as (w' & p & lines' & naps & Hrun & H1 & H2 & H3 & H4 & H5 & H6);
          cbv zeta in Hrun; exists w', p, (lines ++ more ++ lines'), reqs, naps;
          split; [exact Hrun |];
          rewrite H1, H2, H3, Hout2, Hnaps2, Hreqs2, Hout, Hnaps, Hsent, <- ?app_assoc;
          repeat (split; [reflexivity || assumption |]); assumption ..].
Qed.
(** The loop over the attempts from [a] on, [n] of them, the last being
    attempt [max_retries - 1]. *)
Lemma attempts_return (o : Console.outside) (prompt : string) (max_retries : Z) (n : nat) :
  forall (a : nat) (w : Console.world),
    Z.of_nat (a + n) = Z.max 0 max_retries ->
    exists w' cards lines reqs naps,
      Console.attempts o prompt max_retries (map Z.of_nat (seq a n)) w
      = (w', Console.Ok cards)
      /\ Console.printed w' = Console.printed w ++ lines
      /\ Console.requests w' = Console.requests w ++ reqs
      /\ Forall (eq prompt) reqs
      /\ (List.length reqs <= n)%nat
      /\ Console.slept w' = Console.slept w ++ naps
      /\ total naps + 2 ^ (Z.of_nat a + 1) <= 2 ^ Z.max (Z.of_nat (a + n)) (Z.of_nat a + 1)
      /\ numbered 1 cards.
Proof.
  induction n as [| n IH]; intros a w Hlast.
  - exists w, [], [], [], []. cbn [seq map Console.attempts]. unfold Console.ret.
    rewrite !app_nil_r. repeat (split; [reflexivity || constructor |]).
    split; [| exact I]. cbn [total fold_right]. rewrite Z.max_r by lia. lia.
  - cbn [seq map Console.attempts]. unfold Console.bindM at 1.
    destruct (attempt_pass_returns o prompt max_retries (Z.of_nat a) w)
      as (w1 & p & lines & reqs & naps & -> & Hout & Hreqs & Hshape & Hnaps & Hnap
          & Hmore & Hcards).
    assert (Hsent : Forall (eq prompt) reqs /\ (List.length reqs <= 1)%nat).
    { destruct Hshape as [-> | ->]; split; cbn; repeat constructor. }
    destruct Hsent as [Hsent Hcount].
    assert (Hpow : 2 ^ (Z.of_nat a + 1) <= 2 ^ Z.max (Z.of_nat (a + S n)) (Z.of_nat a + 1)).
    { apply Z.pow_le_mono_r; lia. }
    destruct p as [cards |].
    + exists w1, cards, lines, reqs, naps. unfold Console.ret.
      split; [reflexivity |]. split; [exact Hout |]. split; [exact Hreqs |].
      split; [exact Hsent |]. split; [lia |]. split; [exact Hnaps |].
      split; [| now apply Hcards].
      destruct Hnap as [-> | [_ [=]]]. cbn [total fold_right]. lia.
    + specialize (Hmore eq_refl).
      destruct (IH (S a) w1) as (w' & cards & lines' & reqs' & naps' & -> & Hout' & Hreqs'
                                 & Hsent' & Hcount' & Hnaps' & Hsum & Hnumbered);
        [lia |].
      exists w', cards, (lines ++ lines'), (reqs ++ reqs'), (naps ++ naps').
      split; [reflexivity |].
      rewrite Hout', Hreqs', Hnaps', Hout, Hreqs, Hnaps, !app_assoc.
      split; [reflexivity |]. split; [reflexivity |].
      split; [now apply Forall_app |]. split; [rewrite length_app; lia |].
      split; [reflexivity |]. split; [| exact Hnumbered].
      assert (Htotal : total (naps ++ naps') = total naps + total naps').
      { unfold total. clear. induction naps as [| x naps IHn]; cbn [app fold_right]; lia. }
      rewrite Htotal.
      replace (Z.of_nat (S a) + 1) with (Z.succ (Z.of_nat a + 1)) in Hsum by lia.
      rewrite Z.pow_succ_r in Hsum by lia.
      rewrite Z.max_l in Hsum by lia. rewrite Z.max_l by lia.
      replace (Z.of_nat (S a + n)) with (Z.of_nat (a + S n)) in Hsum by lia.
      destruct Hnap as [-> | [-> _]]; cbn [total fold_right];
        pose proof (Z.pow_pos_nonneg 2 (Z.of_nat a + 1)); lia.
Qed.

Lemma generate_flashcards_return (o : Console.outside) (text : string)
  (num_cards max_retries : Z) (w : Console.world) :
  exists w' cards lines reqs naps,
    Console.generate_flashcards_with_gemini o text num_cards max_retries w
    = (w', Console.Ok cards)
    /\ Console.printed w' = Console.printed w ++ lines
    /\ Console.requests w' = Console.requests w ++ reqs
    /\ Forall (eq (Console.prompt num_cards (Console.truncate text))) reqs
    /\ len reqs <= Z.max 0 max_retries
    /\ Console.slept w' = Console.slept w ++ naps
    /\ total naps <= 2 ^ Z.max 1 max_retries - 2
    /\ numbered 1 cards.
Proof.
  unfold Console.generate_flashcards_with_gemini, range.
  destruct (attempts_return o (Console.prompt num_cards (Console.truncate text)) max_retries
              (Z.to_nat max_retries) 0 w)
    as (w' & cards & lines & reqs & naps & Hrun & Hout & Hreqs & Hsent & Hcount & Hnaps
        & Hsum & Hnumbered); [lia |].
  exists w', cards, lines, reqs, naps. repeat (split; [assumption |]).
  split; [unfold len; lia |]. split; [assumption |]. split; [| assumption].
  cbn [Nat.add Z.of_nat Z.add] in Hsum. change (2 ^ 1) with 2 in Hsum.
  replace (Z.max (Z.of_nat (Z.to_nat max_retries)) 1) with (Z.max 1 max_retries) in Hsum
    by lia.
  lia.
Qed.

(** *** Where the cards come from *)

(** An item that is skipped can be left out of the count. *)
Lemma read_from_skip (items : list Console.value) (lo : Z) (cards : list Console.card)
  (item : Console.value) :
  0 <= lo -> nth_error items (Z.to_nat lo) = Some item -> skipped item ->
  read_from items (lo + 1) cards -> read_from items lo cards.
Proof.
  intros Hlo Hitem Hskipped.
  assert (Hfirst : forall q item', q = lo + 1 ->
            nth_error items (Z.to_nat (q - 1)) = Some item' -> skipped item').
  { intros q item' -> Hq. replace (lo + 1 - 1) with lo in Hq by lia. congruence. }
  destruct cards as [| [[[front back] extra] index] rest]; cbn [read_from].
  - intros Hrest q item' Hq Hnth.
    destruct (Z.eq_dec q (lo + 1)) as [E | E]; [now apply (Hfirst q) |].
    apply (Hrest q); [lia | exact Hnth].
  - intros (p & item' & Hp & Hnth & Hf & Hb & Hfront & Hback & Hextra & Hindex & Hgap & Hrest).
    exists p, item'. repeat (split; [assumption || lia |]). split; [| exact Hrest].
    intros q item'' Hq Hq'.
    destruct (Z.eq_dec q (lo + 1)) as [E | E]; [now apply (Hfirst q) |].
    apply (Hgap q); [lia | exact Hq'].
Qed.

(** The loop over the items from position [n] on adds the cards of these
    items. *)
Lemma collect_reads (all : list Console.value) (items : list Console.value) :
  forall (n : nat) (flashcards cards : list Console.card),
    items = skipn n all ->
    Console.collect (Z.of_nat n) items flashcards = Console.Ok cards ->
    exists new, cards = flashcards ++ new /\ read_from all (Z.of_nat n) new.
Proof.
  induction items as [| c rest IH]; intros n flashcards cards Hitems.
  - intros [= <-]. exists []. rewrite app_nil_r. split; [reflexivity |].
    cbn [read_from]. intros q item Hq Hnth.
    assert (Hin : (Z.to_nat (q - 1) < List.length all)%nat)
      by (apply nth_error_Some; congruence).
    apply (f_equal (@List.length _)) in Hitems. rewrite length_skipn in Hitems.
    cbn [List.length] in Hitems. lia.
  - assert (Hc : nth_error all n = Some c).
    { rewrite <- (Nat.add_0_r n), <- nth_error_skipn, <- Hitems. reflexivity. }
    assert (Hrest : rest = skipn (S n) all).
    { change (S n) with (1 + n)%nat. rewrite <- skipn_skipn, <- Hitems. reflexivity. }
    cbn [Console.collect]. unfold Console.and_then at 1.
    destruct (Console.field "front" c) as [front | e] eqn:Hfront; [| discriminate].
    unfold Console.and_then at 1.
    destruct (Console.field "back" c) as [back | e] eqn:Hback; [| discriminate].
    replace (Z.of_nat n + 1) with (Z.of_nat (S n)) by lia.
    intros Hrun. apply (IH _ _ _ Hrest) in Hrun as (new & -> & Hnew).
    replace (Z.of_nat (S n)) with (Z.of_nat n + 1) in Hnew |- * by lia.
    assert (Hskip : skipped c -> read_from all (Z.of_nat n) new).
    { intros Hskipped. apply (read_from_skip all (Z.of_nat n) new c);
        [lia | now rewrite Nat2Z.id | exact Hskipped | exact Hnew]. }
    destruct (String.eqb_spec front EmptyString) as [Hf | Hf];
      [| destruct (String.eqb_spec back EmptyString) as [Hb | Hb]]; cbn [negb andb].
    + exists new. split; [reflexivity |]. apply Hskip. left. congruence.
    + exists new. split; [reflexivity |]. apply Hskip. right. congruence.
    + exists ((front, back, EmptyString, str_of_int (Z.of_nat n + 1)) :: new).
      split; [now rewrite <- app_assoc |]. cbn [read_from].
      exists (Z.of_nat n + 1), c.
      split; [lia |].
      split; [now replace (Z.to_nat (Z.of_nat n + 1 - 1)) with n by lia |].
      repeat (split; [assumption || reflexivity |]).
      split; [intros q item' Hq; lia | exact Hnew].
Qed.

(** The cards of a response are none, or those read from the array found
    in it. *)
Lemma read_cards_reads (o : Console.outside) (response_text : string)
  (w w' : Console.world) (cards : list Console.card) :
  Console.read_cards o response_text w = (w', Console.Ok cards) ->
  cards = []
  \/ exists group cards_json items,
       Console.search response_text = Some group
       /\ Console.json_loads o group = Console.Ok cards_json
       /\ Console.iterate cards_json = Console.Ok items
       /\ read_from items 0 cards.
Proof.
  unfold Console.read_cards, Console.try.
  destruct (Console.search response_text) as [group |].
  - unfold Console.bindM at 1, Console.lift at 1.
    destruct (Console.json_loads o group) as [v | e] eqn:Hloads.
    + unfold Console.lift, Console.and_then.
      destruct (Console.iterate v) as [items | e] eqn:Hiterate;
        [destruct (Console.collect 0 items []) as [cards' | e] eqn:Hcollect |].
      * intros [= _ <-]. right. exists group, v, items.
        repeat (split; [reflexivity || assumption |]).
        apply (collect_reads items items 0 [] cards' eq_refl) in Hcollect
          as (new & -> & Hnew).
        exact Hnew.
      * destruct e; try discriminate.
        unfold Console.bindM, Console.print, Console.ret. intros [= _ <-]. now left.
      * destruct e; try discriminate.
        unfold Console.bindM, Console.print, Console.ret. intros [= _ <-]. now left.
    + destruct e; try discriminate.
      unfold Console.bindM, Console.print, Console.ret. intros [= _ <-]. now left.
  - unfold Console.bindM, Console.print, Console.ret. intros [= _ <-]. now left.
Qed.

(** The cards a pass of the loop returns are none, or those read from the
    reply of the pass. *)
Lemma attempt_pass_reads (o : Console.outside) (prompt : string) (max_retries attempt : Z)
  (w w' : Console.world) (cards : list Console.card) :
  Console.attempt_pass o prompt max_retries attempt w
  = (w', Console.Ok (Console.Return cards)) ->
  cards = [] \/ read_from_reply o prompt cards.
Proof.
  unfold Console.attempt_pass, Console.try, Console.attempt_body.
  unfold Console.bindM at 1. unfold Console.bindM at 1, Console.print at 1.
  unfold Console.bindM at 1.
  match goal with
  | |- context [Console.geminiResponse o ?k prompt ?w0] =>
      destruct (geminiResponse_returns o k prompt w0) as (w1 & s & lines & Hreply & _);
      rewrite Hreply
  end.
  destruct (Console.time o (Z.to_nat attempt)) as [start_time now].
  destruct (Console.max_api_time <? now - start_time)%float.
  - unfold Console.bindM, Console.print, Console.raise, Console.ret.
    destruct (attempt <? max_retries - 1); [discriminate |]. intros [= _ <-]. now left.
  - destruct (Console.read_cards o s w1) as [w2 [cards' | e]] eqn:Hread.
    + unfold Console.ret. intros [= _ <-].
      apply read_cards_reads in Hread
        as [-> | (group & cards_json & items & Hsearch & Hloads & Hiterate & Hcards)];
        [now left | right].
      eexists _, _, w1, s, group, cards_json, items. split; [exact Hreply |].
      repeat (split; [assumption |]). exact Hcards.
    + destruct e; unfold Console.bindM, Console.print, Console.sleep, Console.ret;
        (destruct (attempt <? max_retries - 1); [discriminate |]);
        intros [= _ <-]; now left.
Qed.

Lemma attempts_read (o : Console.outside) (prompt : string) (max_retries : Z)
  (left : list Z) :
  forall (w w' : Console.world) (cards : list Console.card),
    Console.attempts o prompt max_retries left w = (w', Console.Ok cards) ->
    cards = [] \/ read_from_reply o prompt cards.
Proof.
  induction left as [| attempt rest IH]; intros w w' cards; cbn [Console.attempts].
  - unfold Console.ret. intros [= _ <-]. now left.
  - unfold Console.bindM at 1.
    destruct (Console.attempt_pass o prompt max_retries attempt w)
      as [w1 [[cards' |] | e]] eqn:Hpass; [| apply IH | discriminate].
    unfold Console.ret. intros [= _ <-]. exact (attempt_pass_reads _ _ _ _ _ _ _ Hpass).
Qed.

(** X10. Every card [generate_flashcards_with_gemini] returns has a front
    and a back that are not empty and neither start nor end with
    whitespace, and an empty extra. The cards it returns, when there are
    any, are read from the array decoded from a reply of the service, in
    the order of the array: one card for each item whose front and back
    are both not empty once stripped, with these as its front and back,
    and with the decimal of the position of the item in the array, counted
    from one, as its index. An item with an empty side gives no card and
    leaves a gap in the indexes. *)
Theorem returned_cards_are_numbered (o : Console.outside) (text : string)
  (num_cards max_retries : Z) (w w' : Console.world) (cards : list Console.card) :
  Console.generate_flashcards_with_gemini o text num_cards max_retries w
  = (w', Console.Ok cards) ->
  numbered 1 cards
  /\ (cards = []
      \/ read_from_reply o (Console.prompt num_cards (Console.truncate text)) cards).
Proof.
  intros Hrun. split.
  - destruct (generate_flashcards_return o text num_cards max_retries w)
      as (w1 & cards1 & _ & _ & _ & Hrun1 & _ & _ & _ & _ & _ & _ & Hnumbered).
    rewrite Hrun in Hrun1. now injection Hrun1 as _ ->.
  - exact (attempts_read _ _ _ _ _ _ _ Hrun).
Qed.

(** X11. [generate_flashcards_with_gemini] never raises. It only adds to
    what is printed; it gives the model the same prompt each time, at most
    [max_retries] times; and it sleeps for at most [2 ** max_retries - 2]
    seconds in all, not at all with one retry or none. *)
Theorem generate_flashcards_is_bounded (o : Console.outside) (text : string)
  (num_cards max_retries : Z) (w : Console.world) :
  exists w' cards lines reqs naps,
    Console.generate_flashcards_with_gemini o text num_cards max_retries w
    = (w', Console.Ok cards)
    /\ Console.printed w' = Console.printed w ++ lines
    /\ Console.requests w' = Console.requests w ++ reqs
    /\ Forall (eq (Console.prompt num_cards (Console.truncate text))) reqs
    /\ len reqs <= Z.max 0 max_retries
    /\ Console.slept w' = Console.slept w ++ naps
    /\ total naps <= 2 ^ Z.max 1 max_retries - 2.
Proof.
  destruct (generate_flashcards_return o text num_cards max_retries w)
    as (w' & cards & lines & reqs & naps & H1 & H2 & H3 & H4 & H5 & H6 & H7 & _).
  exists w', cards, lines, reqs, naps. repeat (split; [assumption |]). assumption.
Qed.
Lemma returned_cards_are_numbered_witness :
  snd (Console.generate_flashcards_with_gemini
         (canned "Here are the cards: [{}]"
            (Console.VList
               [Console.VDict [("front", Console.VStr " Capital of France? ");
                               ("back", Console.VStr "Paris")];
                Console.VDict [("front", Console.VStr "No answer")];
                Console.VDict [("front", Console.VStr "2 + 2");
                               ("back", Console.VStr "4")]]))
         "France. Sums." 3 3 keyed)
  = Console.Ok [("Capital of France?", "Paris", "", "1"); ("2 + 2", "4", "", "3")]
  /\ numbered 1 [("Capital of France?", "Paris", "", "1"); ("2 + 2", "4", "", "3")]
  /\ ([("Capital of France?", "Paris", "", "1"); ("2 + 2", "4", "", "3")] = []
      \/ read_from_reply
           (canned "Here are the cards: [{}]"
              (Console.VList
                 [Console.VDict [("front", Console.VStr " Capital of France? ");
                                 ("back", Console.VStr "Paris")];
                  Console.VDict [("front", Console.VStr "No answer")];
                  Console.VDict [("front", Console.VStr "2 + 2");
                                 ("back", Console.VStr "4")]]))
           (Console.prompt 3 (Console.truncate "France. Sums."))
           [("Capital of France?", "Paris", "", "1"); ("2 + 2", "4", "", "3")]).
Proof.
  split; [vm_compute; reflexivity |].
  apply (returned_cards_are_numbered
           (canned "Here are the cards: [{}]"
              (Console.VList
                 [Console.VDict [("front", Console.VStr " Capital of France? ");
                                 ("back", Console.VStr "Paris")];
                  Console.VDict [("front", Console.VStr "No answer")];
                  Console.VDict [("front", Console.VStr "2 + 2");
                                 ("back", Console.VStr "4")]]))
           "France. Sums." 3 3 keyed
           (fst (Console.generate_flashcards_with_gemini
                   (canned "Here are the cards: [{}]"
                      (Console.VList
                         [Console.VDict [("front", Console.VStr " Capital of France? ");
                                         ("back", Console.VStr "Paris")];
                          Console.VDict [("front", Console.VStr "No answer")];
                          Console.VDict [("front", Console.VStr "2 + 2");
                                         ("back", Console.VStr "4")]]))
                   "France. Sums." 3 3 keyed))).
  vm_compute. reflexivity.
Defined.

(** *** The search for the array *)

Lemma close_bracket_without (s : string) :
  occurs "]" s = false -> Console.close_bracket s = None.
Proof.
  induction s as [| c s IH]; [reflexivity |]. cbn [occurs Console.close_bracket].
  intros H. apply orb_false_elim in H as [Hc Hs]. rewrite Ascii.eqb_sym, Hc, IH by exact Hs.
  now destruct (Console.isspace c).
Qed.

Lemma greedy_close_without (s : string) :
  occurs "]" s = false -> Console.greedy_close s = None.
Proof.
  induction s as [| c s IH]; [reflexivity |]. cbn [occurs Console.greedy_close].
  intros H. apply orb_false_elim in H as [Hc Hs]. rewrite IH, close_bracket_without by exact Hs.
  now destruct (Ascii.eqb c "}").
Qed.

Lemma search_without (s : string) : occurs "[" s = false -> Console.search s = None.
Proof.
  induction s as [| c s IH]; [reflexivity |]. cbn [occurs Console.search Console.match_here].
  intros H. apply orb_false_elim in H as [Hc Hs]. rewrite Ascii.eqb_sym, Hc. now apply IH.
Qed.

Lemma blank_not (c : ascii) (ws : string) :
  Console.isspace c = false -> blank (String c ws) = false.
Proof. intros H. cbn [blank]. now rewrite H. Qed.

Lemma open_brace_blank (ws r : string) :
  blank ws = true -> Console.open_brace (ws ++ "{" ++ r) = Some ((ws ++ "{")%string, r).
Proof.
  induction ws as [| c ws IH]; [reflexivity |]. cbn [blank]. intros H.
  apply andb_prop in H as [Hc Hws]. cbn [append Console.open_brace].
  destruct (Ascii.eqb_spec c "{") as [-> | _]; [discriminate |].
  cbn [append] in IH. now rewrite Hc, IH.
Qed.

Lemma close_bracket_blank (ws r : string) :
  blank ws = true -> Console.close_bracket (ws ++ "]" ++ r) = Some (ws ++ "]")%string.
Proof.
  induction ws as [| c ws IH]; [reflexivity |]. cbn [blank]. intros H.
  apply andb_prop in H as [Hc Hws]. cbn [append Console.close_bracket].
  destruct (Ascii.eqb_spec c "]") as [-> | _]; [discriminate |].
  cbn [append] in IH. now rewrite Hc, IH.
Qed.

Lemma greedy_close_blank (ws r : string) :
  blank ws = true -> occurs "]" r = false -> Console.greedy_close (ws ++ "]" ++ r) = None.
Proof.
  intros Hws Hr. induction ws as [| c ws IH].
  - cbn [append Console.greedy_close]. now rewrite greedy_close_without.
  - cbn [blank] in Hws. apply andb_prop in Hws as [Hc Hws].
    cbn [append Console.greedy_close]. cbn [append] in IH. rewrite IH by exact Hws.
    destruct (Ascii.eqb_spec c "}") as [-> | _]; [discriminate | reflexivity].
Qed.

Lemma greedy_close_last (body ws r : string) :
  blank ws = true -> occurs "]" r = false ->
  Console.greedy_close (body ++ "}" ++ ws ++ "]" ++ r) = Some (body ++ "}" ++ ws ++ "]")%string.
Proof.
  intros Hws Hr.
  assert (Hbase : Console.greedy_close ("}" ++ ws ++ "]" ++ r)
                  = Some ("}" ++ ws ++ "]")%string).
  { cbn [append Console.greedy_close].
    pose proof (greedy_close_blank ws r Hws Hr) as Hnone. cbn [append] in Hnone.
    rewrite Hnone. pose proof (close_bracket_blank ws r Hws) as Hclose.
    cbn [append] in Hclose. now rewrite Hclose. }
  revert Hbase. generalize ("}" ++ ws ++ "]" ++ r)%string ("}" ++ ws ++ "]")%string.
  intros t m Hbase. induction body as [| c body IH]; [exact Hbase |].
  cbn [append Console.greedy_close]. now rewrite IH.
Qed.

(** X12. An array of objects is found whole inside a reply, whatever
    surrounds it, when the text before it has no [[] and the text after it
    no []]: the match runs from the [[] to the []], with the whitespace
    inside the brackets. *)
Theorem search_finds_wrapped_array (pre ws1 body ws2 post : string) :
  occurs "[" pre = false -> blank ws1 = true -> blank ws2 = true ->
  occurs "]" post = false ->
  Console.search (pre ++ "[" ++ ws1 ++ "{" ++ body ++ "}" ++ ws2 ++ "]" ++ post)
  = Some ("[" ++ ws1 ++ "{" ++ body ++ "}" ++ ws2 ++ "]")%string.
Proof.
  intros Hpre Hws1 Hws2 Hpost. induction pre as [| c pre IH].
  - cbn [append]. unfold Console.search.
    destruct (ws1 ++ String "{" (body ++ String "}" (ws2 ++ String "]" post)))%string
      eqn:E; cbn [Console.match_here Ascii.eqb Bool.eqb];
      pose proof (open_brace_blank ws1 (body ++ "}" ++ ws2 ++ "]" ++ post) Hws1) as Hopen;
      cbn [append] in Hopen; rewrite E in Hopen; rewrite Hopen;
      pose proof (greedy_close_last body ws2 post Hws2 Hpost) as Hclose;
      cbn [append] in Hclose; rewrite Hclose; cbn [option_map];
      rewrite append_assoc; reflexivity.
  - cbn [occurs] in Hpre. apply orb_false_elim in Hpre as [Hc Hpre].
    cbn [append Console.search Console.match_here]. rewrite Ascii.eqb_sym, Hc.
    now apply IH.
Qed.

Lemma search_finds_wrapped_array_witness :
  Console.search ("Sure! " ++ "[" ++ " " ++ "{" ++ "front: Q, back: A}, {front: R, back: B"
                  ++ "}" ++ " " ++ "]" ++ " Enjoy.")
  = Some ("[" ++ " " ++ "{" ++ "front: Q, back: A}, {front: R, back: B" ++ "}" ++ " "
          ++ "]")%string.
Proof.
  apply (search_finds_wrapped_array "Sure! " " " "front: Q, back: A}, {front: R, back: B"
           " " " Enjoy."); reflexivity.
Defined.
Lemma close_bracket_shape (s m : string) :
  Console.close_bracket s = Some m ->
  exists ws post, m = (ws ++ "]")%string /\ s = (m ++ post)%string /\ blank ws = true.
Proof.
  revert m. induction s as [| c s IH]; intros m; [discriminate |].
  cbn [Console.close_bracket]. destruct (Ascii.eqb_spec c "]") as [-> | _].
  - intros [= <-]. now exists EmptyString, s.
  - destruct (Console.isspace c) eqn:Hc; [| discriminate].
    destruct (Console.close_bracket s) as [m' |]; [| discriminate].
    intros [= <-]. destruct (IH m' eq_refl) as (ws & post & -> & -> & Hws).
    exists (String c ws), post. cbn [append blank]. now rewrite Hc, Hws.
Qed.

Lemma open_brace_shape (s m r : string) :
  Console.open_brace s = Some (m, r) ->
  exists ws, m = (ws ++ "{")%string /\ s = (m ++ r)%string /\ blank ws = true.
Proof.
  revert m. induction s as [| c s IH]; intros m; [discriminate |].
  cbn [Console.open_brace]. destruct (Ascii.eqb_spec c "{") as [-> | _].
  - intros [= <- <-]. now exists EmptyString.
  - destruct (Console.isspace c) eqn:Hc; [| discriminate].
    destruct (Console.open_brace s) as [[m' r'] |]; [| discriminate].
    intros [= <- <-]. destruct (IH m' eq_refl) as (ws & -> & -> & Hws).
    exists (String c ws). cbn [append blank]. now rewrite Hc, Hws.
Qed.

Lemma greedy_close_suffix (x y : string) :
  Console.greedy_close (x ++ y) = None -> Console.greedy_close y = None.
Proof.
  induction x as [| c x IH]; [trivial |]. cbn [append Console.greedy_close].
  destruct (Console.greedy_close (x ++ y)); [discriminate |]. intros _. now apply IH.
Qed.

Lemma greedy_close_shape (s m : string) :
  Console.greedy_close s = Some m ->
  exists body ws post,
    m = (body ++ "}" ++ ws ++ "]")%string /\ s = (m ++ post)%string
    /\ blank ws = true /\ Console.greedy_close post = None.
Proof.
  revert m. induction s as [| c s IH]; intros m; [discriminate |].
  cbn [Console.greedy_close]. destruct (Console.greedy_close s) as [m' |] eqn:Hlater.
  - intros [= <-]. destruct (IH m' eq_refl) as (body & ws & post & -> & -> & Hws & Hpost).
    now exists (String c body), ws, post.
  - destruct (Ascii.eqb_spec c "}") as [-> | _]; [| discriminate].
    destruct (Console.close_bracket s) as [m' |] eqn:Hclose; [| discriminate].
    intros [= <-]. destruct (close_bracket_shape _ _ Hclose) as (ws & post & -> & -> & Hws).
    exists EmptyString, ws, post. repeat split; try assumption.
    now apply (greedy_close_suffix (ws ++ "]")).
Qed.

(** X13. What [re.search] finds is a part of the reply that runs from a
    [[], whitespace and a [{] to a [}], whitespace and a []]; it ends at
    the last such closing of the reply. *)
Theorem search_match_shape (s m : string) :
  Console.search s = Some m ->
  exists pre ws1 body ws2 post,
    s = (pre ++ m ++ post)%string
    /\ m = ("[" ++ ws1 ++ "{" ++ body ++ "}" ++ ws2 ++ "]")%string
    /\ blank ws1 = true /\ blank ws2 = true
    /\ Console.greedy_close post = None.
Proof.
  induction s as [| c s IH]; [discriminate |]. cbn [Console.search].
  destruct (Console.match_here (String c s)) as [m' |] eqn:Hhere.
  - intros [= <-]. revert Hhere. cbn [Console.match_here].
    destruct (Ascii.eqb_spec c "[") as [-> | _]; [| discriminate].
    destruct (Console.open_brace s) as [[mo r] |] eqn:Hopen; [| discriminate].
    destruct (Console.greedy_close r) as [mc |] eqn:Hclose; [| discriminate].
    intros [= <-].
    destruct (open_brace_shape _ _ _ Hopen) as (ws1 & -> & -> & Hws1).
    destruct (greedy_close_shape _ _ Hclose) as (body & ws2 & post & -> & -> & Hws2 & Hpost).
    exists EmptyString, ws1, body, ws2, post. cbn [append].
    rewrite !append_assoc. cbn [append]. repeat split; assumption.
  - intros Hs. destruct (IH Hs) as (pre & ws1 & body & ws2 & post & -> & -> & H1 & H2 & H3).
    exists (String c pre), ws1, body, ws2, post. repeat split; assumption.
Qed.

Lemma search_match_shape_witness :
  Console.search "Cards: [ {a}, {b} ] and [x]" = Some "[ {a}, {b} ]"
  /\ exists pre ws1 body ws2 post,
       "Cards: [ {a}, {b} ] and [x]" = (pre ++ "[ {a}, {b} ]" ++ post)%string
       /\ "[ {a}, {b} ]" = ("[" ++ ws1 ++ "{" ++ body ++ "}" ++ ws2 ++ "]")%string
       /\ blank ws1 = true /\ blank ws2 = true
       /\ Console.greedy_close post = None.
Proof.
  split; [reflexivity |].
  apply (search_match_shape "Cards: [ {a}, {b} ] and [x]" "[ {a}, {b} ]"). reflexivity.
Defined.

(** *** Replies that are not retried *)

Lemma read_cards_unreadable (o : Console.outside) (reply : string) (w : Console.world) :
  unreadable o reply ->
  Console.read_cards o reply w
  = ({| Console.environ := Console.environ w;
        Console.printed := Console.printed w ++ [unreadable_line reply];
        Console.slept := Console.slept w;
        Console.requests := Console.requests w |}, Console.Ok []).
Proof.
  unfold unreadable, unreadable_line, Console.read_cards, Console.try.
  destruct (Console.search reply) as [group |]; [intros [message Hloads] | intros _].
  - unfold Console.bindM at 1, Console.lift at 1. now rewrite Hloads.
  - reflexivity.
Qed.

(** With a first call that is in time and a reply that cannot be read, the
    function returns no card after this one attempt. *)
Lemma unreadable_gives_up (o : Console.outside) (text : string) (num_cards max_retries : Z)
  (w w1 : Console.world) (reply : string) :
  0 < max_retries -> in_time o 0%nat ->
  Console.geminiResponse o 0 (Console.prompt num_cards (Console.truncate text))
    {| Console.environ := Console.environ w;
       Console.printed := Console.printed w ++ ["Attempt 1 to generate flashcards"];
       Console.slept := Console.slept w;
       Console.requests := Console.requests w |}
  = (w1, Console.Ok reply) ->
  unreadable o reply ->
  Console.generate_flashcards_with_gemini o text num_cards max_retries w
  = ({| Console.environ := Console.environ w1;
        Console.printed := Console.printed w1 ++ [unreadable_line reply];
        Console.slept := Console.slept w1;
        Console.requests := Console.requests w1 |}, Console.Ok []).
Proof.
  intros Hretries Htime Hcall Hreply.
  unfold Console.generate_flashcards_with_gemini, range.
  destruct (Z.to_nat max_retries) as [| n] eqn:E; [lia |].
  cbn [seq map Console.attempts Z.of_nat].
  unfold Console.bindM at 1, Console.attempt_pass, Console.try, Console.bindM at 1.
  unfold Console.attempt_body, Console.bindM at 1, Console.print at 1.
  unfold Console.bindM at 1.
  change (str_of_int (0 + 1)) with "1". change (Z.to_nat 0) with 0%nat.
  cbn [append]. cbn [append] in Hcall. rewrite Hcall.
  unfold in_time in Htime. destruct (Console.time o 0) as [start_time now].
  cbn [fst snd] in Htime. rewrite Htime.
  now rewrite (read_cards_unreadable o reply w1 Hreply).
Qed.
(** X14. A reply that comes in time and holds no array, or an array that
    [json.loads] rejects, is not retried: with a key and
    [max_retries > 0], the function asks the model once, prints one line
    about the reply, sleeps not at all and returns no card. *)
Theorem unreadable_reply_is_not_retried (o : Console.outside) (text : string)
  (num_cards max_retries : Z) (w : Console.world) (c : ascii) (key reply : string) :
  0 < max_retries -> in_time o 0%nat ->
  Console.environ w = Some (String c key) ->
  Console.genai o 0 (String c key) (Console.prompt num_cards (Console.truncate text))
  = Console.Text reply ->
  unreadable o reply ->
  Console.generate_flashcards_with_gemini o text num_cards max_retries w
  = ({| Console.environ := Console.environ w;
        Console.printed := Console.printed w
                           ++ ["Attempt 1 to generate flashcards"; "API key found: True";
                               unreadable_line reply];
        Console.slept := Console.slept w;
        Console.requests := Console.requests w
                            ++ [Console.prompt num_cards (Console.truncate text)] |},
     Console.Ok []).
Proof.
  intros Hretries Htime Hkey Hreply Hunreadable.
  rewrite (unreadable_gives_up o text num_cards max_retries w
             {| Console.environ := Console.environ w;
                Console.printed := Console.printed w
                                   ++ ["Attempt 1 to generate flashcards";
                                       "API key found: True"];
                Console.slept := Console.slept w;
                Console.requests := Console.requests w
                                    ++ [Console.prompt num_cards (Console.truncate text)] |}
             reply Hretries Htime); [| | exact Hunreadable].
  - cbn [Console.environ Console.printed Console.slept Console.requests].
    now rewrite <- app_assoc.
  - unfold Console.geminiResponse, Console.try, Console.geminiResponse_body.
    unfold Console.bindM at 1, Console.getenv. unfold Console.bindM at 1, Console.print at 1.
    cbn [Console.environ Console.printed Console.slept Console.requests].
    unfold Console.bindM at 1. rewrite Hkey. cbn [Console.has_key]. unfold Console.ret at 1.
    rewrite Hreply. unfold Console.bindM, Console.request, Console.ret.
    cbn [Console.environ Console.printed Console.slept Console.requests Console.str_of_bool].
    now rewrite <- app_assoc.
Qed.

Lemma unreadable_reply_is_not_retried_witness :
  Console.generate_flashcards_with_gemini (rejecting "I cannot help with that.")
    "France." 5 3 keyed
  = ({| Console.environ := Console.environ keyed;
        Console.printed := Console.printed keyed
                           ++ ["Attempt 1 to generate flashcards"; "API key found: True";
                               unreadable_line "I cannot help with that."];
        Console.slept := Console.slept keyed;
        Console.requests := Console.requests keyed
                            ++ [Console.prompt 5 (Console.truncate "France.")] |},
     Console.Ok []).
Proof.
  apply (unreadable_reply_is_not_retried (rejecting "I cannot help with that.") "France."
           5 3 keyed "s" "ecret" "I cannot help with that.").
  - lia.
  - reflexivity.
  - reflexivity.
  - reflexivity.
  - exact I.
Defined.

(** X15. Without a key, in the environment or from [.env], the function
    gives up at the first attempt whatever [max_retries > 0] is: the model
    is never asked, nothing is slept, and no card is returned. *)
Theorem missing_key_gives_up_at_once (o : Console.outside) (text : string)
  (num_cards max_retries : Z) (w : Console.world) :
  0 < max_retries -> in_time o 0%nat -> no_key o w ->
  exists w',
    Console.generate_flashcards_with_gemini o text num_cards max_retries w
    = (w', Console.Ok [])
    /\ Console.requests w' = Console.requests w
    /\ Console.slept w' = Console.slept w
    /\ exists lines,
         Console.printed w'
         = Console.printed w
           ++ ["Attempt 1 to generate flashcards"; "API key found: False"] ++ lines
           ++ ["Error in geminiResponse: " ++ Console.str missing_key;
               Console.format_exc o 0; "No JSON found in response"]%string.
Proof.
  intros Hretries Htime [Hkey Hdotenv].
  assert (Hcall : exists key lines,
    Console.geminiResponse o 0 (Console.prompt num_cards (Console.truncate text))
      {| Console.environ := Console.environ w;
         Console.printed := Console.printed w ++ ["Attempt 1 to generate flashcards"];
         Console.slept := Console.slept w;
         Console.requests := Console.requests w |}
    = ({| Console.environ := key;
          Console.printed := Console.printed w
                             ++ ["Attempt 1 to generate flashcards"; "API key found: False"]
                             ++ lines
                             ++ ["Error in geminiResponse: " ++ Console.str missing_key;
                                 Console.format_exc o 0]%string;
          Console.slept := Console.slept w;
          Console.requests := Console.requests w |},
       Console.Ok (Console.error_reply missing_key))).
  { unfold Console.geminiResponse, Console.try, Console.geminiResponse_body.
    unfold Console.bindM at 1, Console.getenv. unfold Console.bindM at 1, Console.print at 1.
    cbn [Console.environ Console.printed Console.slept Console.requests].
    unfold Console.bindM at 1. rewrite Hkey.
    destruct (Console.load_dotenv o 0 (Console.environ w)) as [key | e];
      [| destruct e; try contradiction].
    2: {
      exists (Console.environ w), ["dotenv module not found"].
      unfold Console.bindM, Console.print, Console.ret, Console.raise.
      cbn [Console.environ Console.printed Console.slept Console.requests].
      destruct (Console.environ w) as [[| c0 key0] |]; try discriminate;
        cbn [Console.environ Console.printed Console.slept Console.requests
             Console.str_of_bool];
        rewrite <- ?app_assoc; reflexivity. }
    exists key, ["API key loaded from .env: False"].
    unfold Console.bindM, Console.print, Console.ret, Console.raise, Console.setenv.
    cbn [Console.environ Console.printed Console.slept Console.requests].
    rewrite Hdotenv.
    destruct key as [[| c0 key0] |]; try discriminate;
      cbn [Console.environ Console.printed Console.slept Console.requests
           Console.str_of_bool];
      rewrite <- ?app_assoc; reflexivity. }
  destruct Hcall as (key & lines & Hcall).
  eexists. split.
  - apply (unreadable_gives_up o text num_cards max_retries w _ _ Hretries Htime Hcall).
    exact I.
  - cbn [Console.environ Console.printed Console.slept Console.requests].
    split; [reflexivity |]. split; [reflexivity |]. exists lines.
    change (unreadable_line (Console.error_reply missing_key))
      with "No JSON found in response".
    now rewrite <- !app_assoc.
Qed.

Lemma missing_key_gives_up_at_once_witness :
  exists w',
    Console.generate_flashcards_with_gemini (rejecting "[{}]") "France." 5 3 keyless
    = (w', Console.Ok [])
    /\ Console.requests w' = Console.requests keyless
    /\ Console.slept w' = Console.slept keyless
    /\ exists lines,
         Console.printed w'
         = Console.printed keyless
           ++ ["Attempt 1 to generate flashcards"; "API key found: False"] ++ lines
           ++ ["Error in geminiResponse: " ++ Console.str missing_key;
               Console.format_exc (rejecting "[{}]") 0; "No JSON found in response"]%string.
Proof.
  apply (missing_key_gives_up_at_once (rejecting "[{}]") "France." 5 3 keyless).
  - lia.
  - reflexivity.
  - split; [reflexivity | exact I].
Defined.
(** *** [geminiResponse] and the prompt *)

(** X16. [geminiResponse] never raises: whatever the environment, the
    [.env] loader and the service do, it returns a string. It only
    prints, never sleeps, and gives the message to the model at most once,
    and only with a key in the environment. *)
Theorem geminiResponse_always_answers (o : Console.outside) (k : nat) (message : string)
  (w : Console.world) :
  exists w' s lines,
    Console.geminiResponse o k message w = (w', Console.Ok s)
    /\ Console.printed w' = Console.printed w ++ lines
    /\ Console.slept w' = Console.slept w
    /\ (Console.requests w' = Console.requests w
        \/ Console.requests w' = Console.requests w ++ [message]
           /\ Console.has_key (Console.environ w') = true).
Proof.
  destruct w as [key out naps reqs].
  unfold Console.geminiResponse, Console.try, Console.geminiResponse_body.
  unfold Console.bindM at 1, Console.getenv. unfold Console.bindM at 1, Console.print at 1.
  cbn [Console.environ Console.printed Console.slept Console.requests].
  unfold Console.bindM at 1.
  destruct (Console.has_key key) eqn:Hkey.
  - destruct key as [[| c key] |]; try discriminate. unfold Console.ret at 1.
    destruct (Console.genai o k (String c key) message); cbn;
      eexists _, _, _; (split; [reflexivity |]); cbn; rewrite <- ?app_assoc;
      (split; [reflexivity |]); (split; [reflexivity |]);
      first [left; reflexivity | right; split; reflexivity].
  - destruct (Console.load_dotenv o k key) as [[[| c key'] |] | e]; [| | | destruct e];
      cbn;
      try (destruct key as [[| c0 key0] |]; try discriminate; cbn);
      try (destruct (Console.genai o k (String c key') message); cbn);
      eexists _, _, _; (split; [reflexivity |]); cbn; rewrite <- ?app_assoc;
      (split; [reflexivity |]); (split; [reflexivity |]);
      first [left; reflexivity | right; split; reflexivity].
Qed.




(** *** Replies that are retried *)

Lemma field_error (key : string) (c : Console.value) (e : Console.exn) :
  Console.field key c = Console.Err e -> exists m, e = Console.AttributeError m.
Proof.
  unfold Console.field. destruct c; try (intros [= <-]; eexists; reflexivity).
  destruct (Console.truth (Console.dict_get key items)); [| discriminate].
  destruct (Console.dict_get key items); try discriminate;
    intros [= <-]; eexists; reflexivity.
Qed.

Lemma collect_malformed (items : list Console.value) :
  existsb malformed items = true ->
  forall (i : Z) (flashcards : list Console.card),
    exists m, Console.collect i items flashcards = Console.Err (Console.AttributeError m).
Proof.
  induction items as [| item rest IH]; [discriminate |]. cbn [existsb].
  intros H i flashcards. cbn [Console.collect]. unfold malformed in H at 1.
  destruct (Console.field "front" item) as [front | e] eqn:Hfront.
  - destruct (Console.field "back" item) as [back | e] eqn:Hback.
    + cbn [orb Console.and_then] in *. now apply IH.
    + destruct (field_error _ _ _ Hback) as [m ->]. now exists m.
  - destruct (field_error _ _ _ Hfront) as [m ->]. now exists m.
Qed.

Section Malformed.

(** A service that answers in time, each time with the same reply, in
    which a card is malformed. *)
Variables (o : Console.outside) (prompt : string) (max_retries : Z).
Variables (c : ascii) (key reply group : string) (items : list Console.value).
Hypothesis Htime : forall k, in_time o k.
Hypothesis Hreply : forall k, Console.genai o k (String c key) prompt = Console.Text reply.
Hypothesis Hgroup : Console.search reply = Some group.
Hypothesis Hloads : Console.json_loads o group = Console.Ok (Console.VList items).
Hypothesis Hitems : existsb malformed items = true.

Lemma read_cards_malformed (w : Console.world) :
  exists m, Console.read_cards o reply w = (w, Console.Err (Console.AttributeError m)).
Proof.
  unfold Console.read_cards, Console.try. rewrite Hgroup.
  unfold Console.bindM, Console.lift. rewrite Hloads.
  unfold Console.and_then at 1. cbn [Console.iterate].
  destruct (collect_malformed items Hitems 0 []) as [m ->]. now exists m.
Qed.

Lemma malformed_pass (a : nat) (w : Console.world) :
  Console.environ w = Some (String c key) ->
  exists lines,
    Console.attempt_pass o prompt max_retries (Z.of_nat a) w
    = ({| Console.environ := Console.environ w;
          Console.printed := Console.printed w ++ lines;
          Console.slept := Console.slept w
                           ++ (if Z.of_nat a <? max_retries - 1
                               then [2 ^ (Z.of_nat a + 1)] else []);
          Console.requests := Console.requests w ++ [prompt] |},
       Console.Ok (if Z.of_nat a <? max_retries - 1
                   then Console.Continue else Console.Return [])).
Proof.
  intros Hkey. destruct w as [env out naps reqs]. cbn [Console.environ] in Hkey. subst env.
  unfold Console.attempt_pass, Console.try, Console.attempt_body.
  unfold Console.bindM at 1. unfold Console.bindM at 1, Console.print at 1.
  unfold Console.bindM at 1. rewrite Nat2Z.id.
  unfold Console.geminiResponse, Console.try, Console.geminiResponse_body.
  unfold Console.bindM at 1, Console.getenv. unfold Console.bindM at 1, Console.print at 1.
  cbn [Console.environ Console.printed Console.slept Console.requests Console.has_key].
  unfold Console.bindM at 1, Console.ret at 1. rewrite Hreply.
  unfold Console.bindM at 1, Console.request, Console.ret at 1.
  cbn [Console.environ Console.printed Console.slept Console.requests].
  pose proof (Htime a) as Ha. unfold in_time in Ha.
  destruct (Console.time o a) as [start_time now]. cbn [fst snd] in Ha. rewrite Ha.
  match goal with
  | |- context [Console.read_cards o reply ?w0] =>
      destruct (read_cards_malformed w0) as [m ->]
  end.
  unfold Console.bindM, Console.print, Console.sleep, Console.ret.
  cbn [Console.environ Console.printed Console.slept Console.requests Console.str].
  destruct (Z.of_nat a <? max_retries - 1); eexists;
    cbn [Console.environ Console.printed Console.slept Console.requests];
    rewrite <- ?app_assoc; try rewrite (app_nil_r naps); reflexivity.
Qed.

Lemma malformed_attempts (n : nat) :
  forall (a : nat) (w : Console.world),
    Z.of_nat (a + S n) = max_retries ->
    Console.environ w = Some (String c key) ->
    exists w',
      Console.attempts o prompt max_retries (map Z.of_nat (seq a (S n))) w
      = (w', Console.Ok [])
      /\ Console.requests w' = Console.requests w ++ repeat prompt (S n)
      /\ Console.slept w'
         = Console.slept w ++ map (fun x => 2 ^ (x + 1)) (map Z.of_nat (seq a n)).
Proof.
  induction n as [| n IH]; intros a w Hlast Hkey.
  - cbn [seq map Console.attempts]. unfold Console.bindM at 1.
    destruct (malformed_pass a w Hkey) as [lines ->].
    destruct (Z.ltb_spec (Z.of_nat a) (max_retries - 1)); [lia |].
    unfold Console.ret. eexists. split; [reflexivity |].
    cbn [Console.requests Console.slept repeat]. split; reflexivity.
  - remember (S n) as n' eqn:En. cbn [seq map Console.attempts]. unfold Console.bindM at 1.
    destruct (malformed_pass a w Hkey) as [lines ->].
    destruct (Z.ltb_spec (Z.of_nat a) (max_retries - 1)); [| lia].
    subst n'.
    match goal with
    | |- context [Console.attempts _ _ _ _ ?w0] =>
        destruct (IH (S a) w0) as (w' & -> & Hreqs & Hnaps); [lia | exact Hkey |]
    end.
    exists w'. split; [reflexivity |]. rewrite Hreqs, Hnaps.
    cbn [Console.requests Console.slept]. rewrite <- !app_assoc.
    split; reflexivity.
Qed.

End Malformed.

(** X18. One malformed card costs all the cards and all the retries: when
    the service always answers in time with a reply whose array holds an
    item that is not an object, or an object whose front or back is a
    number, a list or an object, the function asks the model
    [max_retries] times, sleeps 2, 4, ... seconds between the attempts and
    returns no card. *)
Theorem malformed_card_exhausts_retries (o : Console.outside) (text : string)
  (num_cards max_retries : Z) (w : Console.world) (c : ascii) (key reply group : string)
  (items : list Console.value) :
  0 < max_retries ->
  (forall k, in_time o k) ->
  Console.environ w = Some (String c key) ->
  (forall k, Console.genai o k (String c key) (Console.prompt num_cards (Console.truncate text))
             = Console.Text reply) ->
  Console.search reply = Some group ->
  Console.json_loads o group = Console.Ok (Console.VList items) ->
  existsb malformed items = true ->
  exists w',
    Console.generate_flashcards_with_gemini o text num_cards max_retries w
    = (w', Console.Ok [])
    /\ Console.requests w'
       = Console.requests w
         ++ repeat (Console.prompt num_cards (Console.truncate text)) (Z.to_nat max_retries)
    /\ Console.slept w'
       = Console.slept w ++ map (fun a => 2 ^ (a + 1)) (range (max_retries - 1)).
Proof.
  intros Hretries Htime Hkey Hreply Hgroup Hloads Hitems.
  unfold Console.generate_flashcards_with_gemini, range.
  destruct (Z.to_nat max_retries) as [| n] eqn:E; [lia |].
  replace (Z.to_nat (max_retries - 1)) with n by lia.
  apply (malformed_attempts o _ max_retries c key reply group items Htime Hreply Hgroup
           Hloads Hitems n 0 w); [lia | exact Hkey].
Qed.

Lemma malformed_card_exhausts_retries_witness :
  exists w',
    Console.generate_flashcards_with_gemini numeric_front "France." 5 3 keyed
    = (w', Console.Ok [])
    /\ Console.requests w'
       = Console.requests keyed
         ++ repeat (Console.prompt 5 (Console.truncate "France.")) (Z.to_nat 3)
    /\ Console.slept w' = Console.slept keyed ++ map (fun a => 2 ^ (a + 1)) (range (3 - 1)).
Proof.
  apply (malformed_card_exhausts_retries numeric_front "France." 5 3 keyed "s" "ecret"
           "[{}]" "[{}]"
           [Console.VDict [("front", Console.VStr "Q"); ("back", Console.VStr "A")];
            Console.VDict [("front", Console.VInt 7); ("back", Console.VStr "B")]]).
  - lia.
  - intros k. reflexivity.
  - reflexivity.
  - intros k. reflexivity.
  - reflexivity.
  - reflexivity.
  - reflexivity.
Defined.
Lemma slow_pass (o : Console.outside) (prompt : string) (max_retries attempt : Z)
  (w : Console.world) :
  ~ in_time o (Z.to_nat attempt) ->
  exists w',
    Console.attempt_pass o prompt max_retries attempt w
    = (w', Console.Ok (if attempt <? max_retries - 1
                       then Console.Continue else Console.Return []))
    /\ Console.slept w' = Console.slept w.
Proof.
  intros Hslow. unfold Console.attempt_pass, Console.try, Console.attempt_body.
  unfold Console.bindM at 1. unfold Console.bindM at 1, Console.print at 1.
  unfold Console.bindM at 1.
  match goal with
  | |- context [Console.geminiResponse o ?k prompt ?w0] =>
      destruct (geminiResponse_returns o k prompt w0)
        as (w1 & s & lines & -> & _ & Hnaps & _)
  end.
  cbn [Console.slept] in Hnaps. unfold in_time in Hslow.
  destruct (Console.time o (Z.to_nat attempt)) as [start_time now]. cbn [fst snd] in Hslow.
  destruct (Console.max_api_time <? now - start_time)%float; [| congruence].
  unfold Console.bindM, Console.print, Console.raise, Console.ret.
  destruct (attempt <? max_retries - 1); eexists; (split; [reflexivity |]);
    cbn [Console.slept]; exact Hnaps.
Qed.

(** X19. A reply that takes more than [max_api_time] seconds is thrown
    away, whatever it holds, and asked for again at once: when every call
    is that slow the function returns no card, and never sleeps. *)
Theorem slow_service_returns_nothing (o : Console.outside) (text : string)
  (num_cards max_retries : Z) (w : Console.world) :
  (forall k, ~ in_time o k) ->
  exists w',
    Console.generate_flashcards_with_gemini o text num_cards max_retries w
    = (w', Console.Ok [])
    /\ Console.slept w' = Console.slept w.
Proof.
  intros Hslow. unfold Console.generate_flashcards_with_gemini.
  generalize (range max_retries). intros left. revert w.
  induction left as [| attempt rest IH]; intros w.
  - exists w. now split.
  - cbn [Console.attempts]. unfold Console.bindM at 1.
    destruct (slow_pass o (Console.prompt num_cards (Console.truncate text)) max_retries
                attempt w (Hslow _)) as (w1 & -> & Hnaps).
    destruct (attempt <? max_retries - 1).
    + destruct (IH w1) as (w' & -> & Hnaps'). exists w'. split; [reflexivity | congruence].
    + exists w1. now split.
Qed.

Lemma slow_service_returns_nothing_witness :
  exists w',
    Console.generate_flashcards_with_gemini sluggish "France." 5 3 keyed
    = (w', Console.Ok [])
    /\ Console.slept w' = Console.slept keyed.
Proof.
  apply (slow_service_returns_nothing sluggish "France." 5 3 keyed).
  intros k. unfold in_time. cbn. discriminate.
Defined.
